(** * Outline permission grants: resolver, policies, effective permission

    A shallow embedding of
    - [server/models/Permission.ts] (the grant row and its enums),
    - [server/services/permissions/PermissionResolver.ts],
    - the permission helpers [getDocumentPermission] and
      [isElevatedPermission] (the module their tests import as
      [./permissions]),
    - the matching helpers of [server/policies/collection.ts] and
      [server/policies/document.ts],
    - the grant-writing routes [documents.add_user], [documents.add_group],
      [collections.add_user], [collections.add_group] and the grant-writing
      block of [collections.update],
    together with the properties of the specification that concern them.

    Tables are lists of rows (a table may be scanned in any order and rows
    are appended on insert); tables addressed by primary key only are finite
    maps from the key. Identifiers (uuid columns) and role names are
    strings; timestamps are integers. *)

From Stdlib Require Import ZArith.
From stdpp Require Import base option list sorting gmap strings.

Local Open Scope string_scope.
Local Open Scope Z_scope.
Local Open Scope list_scope.

(** ** Enumerations of [server/models/Permission.ts] and [@shared/types] *)

Module PermissionSubjectType.
Inductive t := User | Group | Role.
#[global] Instance PermissionSubjectType_eq_dec : EqDecision t.
Proof. solve_decision. Defined.
Definition value (x : t) : string :=
  match x with User => "user" | Group => "group" | Role => "role" end.
(** Position of [value] in alphabetical order, as [ORDER BY] sees it. *)
Definition ord (x : t) : Z :=
  match x with Group => 0 | Role => 1 | User => 2 end.
End PermissionSubjectType.

Module PermissionResourceType.
Inductive t := Workspace | Collection | Document.
#[global] Instance PermissionResourceType_eq_dec : EqDecision t.
Proof. solve_decision. Defined.
Definition value (x : t) : string :=
  match x with
  | Workspace => "workspace" | Collection => "collection"
  | Document => "document"
  end.
Definition ord (x : t) : Z :=
  match x with Collection => 0 | Document => 1 | Workspace => 2 end.
End PermissionResourceType.

Module PermissionLevel.
Inductive t := Read | Edit | Manage.
#[global] Instance PermissionLevel_eq_dec : EqDecision t.
Proof. solve_decision. Defined.
End PermissionLevel.

Module PermissionInheritMode.
Inductive t := Self | Children.
#[global] Instance PermissionInheritMode_eq_dec : EqDecision t.
Proof. solve_decision. Defined.
End PermissionInheritMode.

Module DocumentPermission.
Inductive t := Read | Edit | Manage.
#[global] Instance DocumentPermission_eq_dec : EqDecision t.
Proof. solve_decision. Defined.
End DocumentPermission.

Module CollectionPermission.
Inductive t := Read | Edit | Manage.
#[global] Instance CollectionPermission_eq_dec : EqDecision t.
Proof. solve_decision. Defined.
End CollectionPermission.

(** Higher value takes precedence. *)
Definition CollectionPermissionPriority (p : CollectionPermission.t) : Z :=
  match p with
  | CollectionPermission.Manage => 2
  | CollectionPermission.Edit => 1
  | CollectionPermission.Read => 0
  end.

Definition DocumentPermissionPriority (p : DocumentPermission.t) : Z :=
  match p with
  | DocumentPermission.Manage => 2
  | DocumentPermission.Edit => 1
  | DocumentPermission.Read => 0
  end.

(** ** Rows *)

(** A row of the [permissions] table: the columns of the [Permission] model
    and the [createdAt] / [deletedAt] columns it inherits from
    [ParanoidModel]. *)
Module Permission.
Record t := mk {
  id : string;
  teamId : string;
  subjectType : PermissionSubjectType.t;
  subjectId : option string;
  subjectRole : option string;
  resourceType : PermissionResourceType.t;
  resourceId : option string;
  permission : PermissionLevel.t;
  inheritMode : PermissionInheritMode.t;
  grantedById : string;
  createdAt : Z;
  deletedAt : option Z;
}.
#[global] Instance Permission_eq_dec : EqDecision t.
Proof. solve_decision. Defined.
End Permission.

Inductive Source := direct | inherited.
#[global] Instance Source_eq_dec : EqDecision Source.
Proof. solve_decision. Defined.

Module ResolvedPermission.
Record t := mk {
  id : string;
  teamId : string;
  subjectType : PermissionSubjectType.t;
  subjectId : option string;
  subjectRole : option string;
  resourceType : PermissionResourceType.t;
  resourceId : option string;
  permission : PermissionLevel.t;
  inheritMode : PermissionInheritMode.t;
  grantedById : string;
  source : Source;
}.
#[global] Instance ResolvedPermission_eq_dec : EqDecision t.
Proof. solve_decision. Defined.
End ResolvedPermission.

(** The columns of [documents], [users] and [group_users] that the code
    below reads.  [documents] and [users] are keyed by their primary key;
    [findByPk] is the lookup of the key. *)
Module Document.
Record t := mk {
  teamId : string;
  collectionId : option string;
  parentDocumentId : option string;
  createdById : string;
}.
End Document.

Module User.
Record t := mk {
  id : string;
  teamId : string;
  role : string;
}.
End User.

Module GroupUser.
Record t := mk {
  groupId : string;
  userId : string;
}.
End GroupUser.

(** The database.  [sequelize] is [Document.sequelize]: whether the
    [Document] model is bound to a connection.  Of [groups] and
    [collections] only the primary keys are read. *)
Record Database := mkDatabase {
  sequelize : bool;
  documents : gmap string Document.t;
  users : gmap string User.t;
  groups : gset string;
  group_users : list GroupUser.t;
  collections : gset string;
  permissions : list Permission.t;
}.

(** JavaScript truthiness of a [string | null] value. *)
Definition truthy (s : option string) : bool :=
  match s with
  | Some s => negb (bool_decide (s = ""))
  | None => false
  end.

(** ** [Permission.findAll] with [DEFAULT_ORDER] *)

(** [ORDER BY "resourceType" ASC, "subjectType" ASC, "createdAt" ASC]. *)
Definition DEFAULT_ORDER (a b : Permission.t) : Prop :=
  let ra := PermissionResourceType.ord (Permission.resourceType a) in
  let rb := PermissionResourceType.ord (Permission.resourceType b) in
  let sa := PermissionSubjectType.ord (Permission.subjectType a) in
  let sb := PermissionSubjectType.ord (Permission.subjectType b) in
  ra < rb ∨ (ra = rb ∧ (sa < sb ∨
    (sa = sb ∧ Permission.createdAt a ≤ Permission.createdAt b))).

#[global] Instance DEFAULT_ORDER_dec a b : Decision (DEFAULT_ORDER a b).
Proof. unfold DEFAULT_ORDER. apply _. Defined.

Definition findAll (where_ : Permission.t → bool)
    (table : list Permission.t) : list Permission.t :=
  merge_sort DEFAULT_ORDER (filter (λ p, where_ p = true) table).

(** ** [PermissionResolver] *)

Module PermissionResolver.

Definition toResolved (src : Permission.t → Source) (p : Permission.t)
    : ResolvedPermission.t :=
  {| ResolvedPermission.id := Permission.id p;
     ResolvedPermission.teamId := Permission.teamId p;
     ResolvedPermission.subjectType := Permission.subjectType p;
     ResolvedPermission.subjectId := Permission.subjectId p;
     ResolvedPermission.subjectRole := Permission.subjectRole p;
     ResolvedPermission.resourceType := Permission.resourceType p;
     ResolvedPermission.resourceId := Permission.resourceId p;
     ResolvedPermission.permission := Permission.permission p;
     ResolvedPermission.inheritMode := Permission.inheritMode p;
     ResolvedPermission.grantedById := Permission.grantedById p;
     ResolvedPermission.source := src p |}.

(** The disjuncts of the [Op.or] clauses. *)
Definition whereCollection (collectionId : string) (p : Permission.t) : bool :=
  bool_decide (Permission.resourceType p = PermissionResourceType.Collection)
  && bool_decide (Permission.resourceId p = Some collectionId).

Definition whereWorkspaceChildren (p : Permission.t) : bool :=
  bool_decide (Permission.resourceType p = PermissionResourceType.Workspace)
  && bool_decide (Permission.resourceId p = None)
  && bool_decide (Permission.inheritMode p = PermissionInheritMode.Children).

Definition whereScope (teamId : string) (p : Permission.t) : bool :=
  bool_decide (Permission.teamId p = teamId)
  && bool_decide (Permission.deletedAt p = None).

Definition resolveForCollection (db : Database) (teamId collectionId : string)
    : list ResolvedPermission.t :=
  let permissions :=
    findAll (λ p, whereScope teamId p
                  && (whereCollection collectionId p
                      || whereWorkspaceChildren p))
            (permissions db) in
  map (toResolved (λ permission,
         if bool_decide (Permission.resourceType permission
                         = PermissionResourceType.Collection)
            && bool_decide (Permission.resourceId permission
                            = Some collectionId)
         then direct else inherited))
      permissions.

(** Rows of the common table expression [ancestry]:
    [(id, "parentDocumentId")]. *)
Definition AncestryRow : Type := string * option string.

(** The non-recursive term:
    [SELECT d.id, d."parentDocumentId" FROM documents d
     WHERE d.id = :documentId]. *)
Definition ancestry_base (docs : gmap string Document.t) (documentId : string)
    : list AncestryRow :=
  match docs !! documentId with
  | Some d => [(documentId, Document.parentDocumentId d)]
  | None => []
  end.

(** The recursive term, evaluated against the working table:
    [SELECT parent.id, parent."parentDocumentId" FROM documents parent
     INNER JOIN ancestry ON ancestry."parentDocumentId" = parent.id].
    A null [parentDocumentId] joins with nothing. *)
Definition ancestry_step (docs : gmap string Document.t)
    (working : list AncestryRow) : list AncestryRow :=
  omap (λ row : AncestryRow,
          pid ← row.2;
          parent ← docs !! pid;
          Some (pid, Document.parentDocumentId parent))
       working.

(** Evaluation of [WITH RECURSIVE ancestry AS (base UNION ALL step)]:
    the working table starts as the result of the non-recursive term; as
    long as it is not empty its rows are appended to the result and it is
    replaced by the recursive term evaluated on it.  [UNION ALL] discards
    nothing, so the iteration ends only when a step yields no row.  [fuel]
    bounds the number of iterations the model follows; [None] means the
    query has not finished within them. *)
Fixpoint ancestry_eval (fuel : nat) (docs : gmap string Document.t)
    (working : list AncestryRow) : option (list AncestryRow) :=
  match working with
  | [] => Some []
  | _ :: _ =>
      match fuel with
      | O => None
      | S fuel =>
          rest ← ancestry_eval fuel docs (ancestry_step docs working);
          Some (working ++ rest)
      end
  end.

Definition findAncestorDocumentIds (fuel : nat) (db : Database)
    (documentId : string) : option (list string) :=
  if negb (sequelize db) then Some [documentId]
  else
    rows ← ancestry_eval fuel (documents db)
              (ancestry_base (documents db) documentId);
    Some (map (λ row : AncestryRow, row.1) rows).

Definition whereDocument (documentId : string) (p : Permission.t) : bool :=
  bool_decide (Permission.resourceType p = PermissionResourceType.Document)
  && bool_decide (Permission.resourceId p = Some documentId).

Definition whereCollectionChildren (collectionId : string)
    (p : Permission.t) : bool :=
  bool_decide (Permission.resourceType p = PermissionResourceType.Collection)
  && bool_decide (Permission.resourceId p = Some collectionId)
  && bool_decide (Permission.inheritMode p = PermissionInheritMode.Children).

(** [resourceId: { [Op.in]: ids }]; a null [resourceId] is in no list. *)
Definition whereAncestorsChildren (ids : list string)
    (p : Permission.t) : bool :=
  bool_decide (Permission.resourceType p = PermissionResourceType.Document)
  && match Permission.resourceId p with
     | Some r => bool_decide (r ∈ ids)
     | None => false
     end
  && bool_decide (Permission.inheritMode p = PermissionInheritMode.Children).

Definition resolveForDocument (fuel : nat) (db : Database)
    (teamId documentId : string) (collectionId : option string)
    : option (list ResolvedPermission.t) :=
  ancestorIds ← findAncestorDocumentIds fuel db documentId;
  let inheritedAncestorIds := filter (λ id, id ≠ documentId) ancestorIds in
  let disjunction :=
    [whereWorkspaceChildren; whereDocument documentId]
    ++ match collectionId with
       | Some c => if truthy collectionId
                   then [whereCollectionChildren c] else []
       | None => []
       end
    ++ (if bool_decide (inheritedAncestorIds = []) then []
        else [whereAncestorsChildren inheritedAncestorIds]) in
  let permissions :=
    findAll (λ p, whereScope teamId p
                  && existsb (λ clause, clause p) disjunction)
            (permissions db) in
  Some (map (toResolved (λ permission,
               if bool_decide (Permission.resourceType permission
                               = PermissionResourceType.Document)
                  && bool_decide (Permission.resourceId permission
                                  = Some documentId)
               then direct else inherited))
            permissions).

End PermissionResolver.

(** ** The permission helpers *)

(** lodash [orderBy(xs, key, "desc")]. *)
Definition desc {A} (key : A → Z) (a b : A) : Prop := key b ≤ key a.

#[global] Instance desc_dec {A} (key : A → Z) a b : Decision (desc key a b).
Proof. unfold desc. apply _. Defined.

Definition orderBy_desc {A} (key : A → Z) (xs : list A) : list A :=
  merge_sort (desc key) xs.

(** [Group.filterByMember(userId).findAll({ attributes: ["id"] })]: the
    ids of the rows of [groups] joined with a [group_users] row of
    [userId]. *)
Definition Group_filterByMember (db : Database) (userId : string)
    : list string :=
  map GroupUser.groupId
      (filter (λ gu, GroupUser.userId gu = userId
                     ∧ GroupUser.groupId gu ∈ groups db)
         (group_users db)).

(** The subject filter of [getDocumentPermission]. *)
Definition subjectFilter (userId : string) (user : User.t)
    (groupIds : gset string) (permission : ResolvedPermission.t) : bool :=
  match ResolvedPermission.subjectType permission with
  | PermissionSubjectType.User =>
      bool_decide (ResolvedPermission.subjectId permission = Some userId)
  | PermissionSubjectType.Role =>
      bool_decide (ResolvedPermission.subjectRole permission
                   = Some (User.role user))
  | PermissionSubjectType.Group =>
      truthy (ResolvedPermission.subjectId permission)
      && match ResolvedPermission.subjectId permission with
         | Some g => bool_decide (g ∈ groupIds)
         | None => false
         end
  end.

Definition toDocumentPermission (level : PermissionLevel.t)
    : DocumentPermission.t :=
  if bool_decide (level = PermissionLevel.Manage) then DocumentPermission.Manage
  else if bool_decide (level = PermissionLevel.Edit) then DocumentPermission.Edit
  else DocumentPermission.Read.

(** The outer [option] is [None] when the ancestor query of the resolver
    has not finished within [fuel]; the inner one is
    [DocumentPermission | undefined]. *)
Definition getDocumentPermission (fuel : nat) (db : Database)
    (userId documentId : string) (skipMembershipId : option string)
    : option (option DocumentPermission.t) :=
  match documents db !! documentId, users db !! userId with
  | Some document, Some user =>
      let groupIds : gset string :=
        list_to_set (Group_filterByMember db userId) in
      resolvedPermissions ←
        PermissionResolver.resolveForDocument fuel db (User.teamId user)
          documentId (Document.collectionId document);
      let permissions :=
        map (λ permission,
               toDocumentPermission (ResolvedPermission.permission permission))
          (filter (λ permission, subjectFilter userId user groupIds permission
                                 = true)
             (filter (λ permission,
                        Some (ResolvedPermission.id permission)
                        ≠ skipMembershipId)
                resolvedPermissions)) in
      let orderedPermissions :=
        orderBy_desc DocumentPermissionPriority permissions in
      Some (head orderedPermissions)
  | _, _ => Some None
  end.

(** [!existingPermission] tests for [undefined]: the values of
    [DocumentPermission] are non-empty strings. *)
Definition isElevatedPermission (fuel : nat) (db : Database)
    (userId documentId : string) (permission : DocumentPermission.t)
    (skipMembershipId : option string) : option bool :=
  existingPermission ←
    getDocumentPermission fuel db userId documentId skipMembershipId;
  match existingPermission with
  | None => Some true
  | Some existingPermission =>
      Some (bool_decide (DocumentPermissionPriority existingPermission
                         < DocumentPermissionPriority permission))
  end.

(** ** The matching helpers of the policies *)

(** [false | string[]]: the value of [includesPermission]. *)
Inductive Includes :=
  | NoGrant
  | GrantIds (grantIds : list string).

Module CollectionPolicy.

Record Collection := mkCollection {
  id : string;
  teamId : string;
  ownerId : option string;
  permissionGrants : option (list Permission.t);
}.

Definition matchesSubject (grant : Permission.t) (user : User.t) : bool :=
  if bool_decide (Permission.subjectType grant = PermissionSubjectType.User)
  then bool_decide (Permission.subjectId grant = Some (User.id user))
  else if bool_decide (Permission.subjectType grant
                       = PermissionSubjectType.Role)
  then bool_decide (Permission.subjectRole grant = Some (User.role user))
  else bool_decide (Permission.subjectType grant
                    = PermissionSubjectType.Group).

Definition mapped (grant : Permission.t) : CollectionPermission.t :=
  if bool_decide (Permission.permission grant = PermissionLevel.Manage)
  then CollectionPermission.Manage
  else if bool_decide (Permission.permission grant = PermissionLevel.Edit)
  then CollectionPermission.Edit
  else CollectionPermission.Read.

Definition includesPermission (collection : option Collection)
    (user : User.t) (permissions : list CollectionPermission.t) : Includes :=
  match collection with
  | None => NoGrant
  | Some collection =>
      if truthy (ownerId collection)
         && bool_decide (ownerId collection = Some (User.id user))
      then GrantIds ["owner:" +:+ id collection]
      else
        let grants := default [] (permissionGrants collection) in
        let grantIds :=
          map Permission.id
            (filter (λ grant, matchesSubject grant user = true
                              ∧ mapped grant ∈ permissions)
               grants) in
        if bool_decide (0 < length grantIds)%nat
        then GrantIds grantIds else NoGrant
  end.

End CollectionPolicy.

Module DocumentPolicy.

(** The fields of a loaded [Document] that the helper and the rules around
    it read; a document has no [ownerId] column. *)
Record Document := mkDocument {
  id : string;
  teamId : string;
  createdById : string;
  permissionGrants : option (list Permission.t);
}.

Definition matchesSubject (grant : Permission.t) (user : User.t) : bool :=
  if bool_decide (Permission.subjectType grant = PermissionSubjectType.User)
  then bool_decide (Permission.subjectId grant = Some (User.id user))
  else if bool_decide (Permission.subjectType grant
                       = PermissionSubjectType.Role)
  then bool_decide (Permission.subjectRole grant = Some (User.role user))
  else bool_decide (Permission.subjectType grant
                    = PermissionSubjectType.Group).

Definition mapped (grant : Permission.t) : DocumentPermission.t :=
  if bool_decide (Permission.permission grant = PermissionLevel.Manage)
  then DocumentPermission.Manage
  else if bool_decide (Permission.permission grant = PermissionLevel.Edit)
  then DocumentPermission.Edit
  else DocumentPermission.Read.

Definition includesPermission (document : option Document)
    (user : User.t) (permissions : list DocumentPermission.t) : Includes :=
  match document with
  | None => NoGrant
  | Some document =>
      let grants := default [] (permissionGrants document) in
      let grantIds :=
        map Permission.id
          (filter (λ grant, matchesSubject grant user = true
                            ∧ mapped grant ∈ permissions)
             grants) in
      if bool_decide (0 < length grantIds)%nat
      then GrantIds grantIds else NoGrant
  end.

End DocumentPolicy.

(** ** The grant-writing routes *)

Inductive Error :=
  | ValidationError (message : string)
  | NotFoundError
  | AuthorizationError
  | TypeError
  | UniqueConstraintError.

(** A route handler runs against the database of its transaction and
    either throws or returns a value and the database it leaves. *)
Definition Handler (A : Type) : Type := Database → Error + (A * Database).

Definition ret {A} (a : A) : Handler A := λ db, inr (a, db).
Definition throw {A} (e : Error) : Handler A := λ _, inl e.
Definition bind {A B} (m : Handler A) (k : A → Handler B) : Handler B :=
  λ db, match m db with
        | inl e => inl e
        | inr (a, db') => k a db'
        end.
Definition query {A} (q : Database → A) : Handler A := λ db, inr (q db, db).

Notation "x <- m ;; k" := (bind m (λ x, k))
  (at level 100, m at next level, right associativity).
Notation "m ;;; k" := (bind m (λ _, k))
  (at level 100, right associativity).

(** The [transaction()] middleware: commit when the handler returns, roll
    back when it throws. *)
Definition transaction {A} (handler : Handler A) (db : Database)
    : (Error + A) * Database :=
  match handler db with
  | inl e => (inl e, db)
  | inr (a, db') => (inr a, db')
  end.

Definition ZERO_UUID : string := "00000000-0000-0000-0000-000000000000".

(** The indexed expressions of ["permissions_unique_active_idx"]. *)
Definition unique_active_key (p : Permission.t)
    : string * PermissionSubjectType.t * string * string
      * PermissionResourceType.t * string * PermissionInheritMode.t :=
  (Permission.teamId p,
   Permission.subjectType p,
   default ZERO_UUID (Permission.subjectId p),
   default "" (Permission.subjectRole p),
   Permission.resourceType p,
   default ZERO_UUID (Permission.resourceId p),
   Permission.inheritMode p).

(** [WHERE "deletedAt" IS NULL]. *)
Definition active (p : Permission.t) : Prop := Permission.deletedAt p = None.

#[global] Instance active_dec p : Decision (active p).
Proof. unfold active. apply _. Defined.

Definition set_deletedAt (at_ : option Z) (p : Permission.t) : Permission.t :=
  {| Permission.id := Permission.id p;
     Permission.teamId := Permission.teamId p;
     Permission.subjectType := Permission.subjectType p;
     Permission.subjectId := Permission.subjectId p;
     Permission.subjectRole := Permission.subjectRole p;
     Permission.resourceType := Permission.resourceType p;
     Permission.resourceId := Permission.resourceId p;
     Permission.permission := Permission.permission p;
     Permission.inheritMode := Permission.inheritMode p;
     Permission.grantedById := Permission.grantedById p;
     Permission.createdAt := Permission.createdAt p;
     Permission.deletedAt := at_ |}.

Definition set_permissions (table : list Permission.t) (db : Database)
    : Database :=
  {| sequelize := sequelize db;
     documents := documents db;
     users := users db;
     groups := groups db;
     group_users := group_users db;
     collections := collections db;
     permissions := table |}.

(** [Permission.destroy({ where, force: false })] on the paranoid model:
    the rows that satisfy [where] and are not yet deleted get
    [deletedAt = now]. *)
Definition Permission_destroy (where_ : Permission.t → bool) (now : Z)
    : Handler unit :=
  λ db, inr (tt, set_permissions
                   (map (λ p, if where_ p && bool_decide (active p)
                              then set_deletedAt (Some now) p else p)
                      (permissions db))
                   db).

(** [Permission.create(values)]: the insert is refused by the unique index
    when an active row has the same indexed expressions. *)
Definition Permission_create (row : Permission.t) : Handler Permission.t :=
  λ db,
    if bool_decide (Exists (λ q, active q
                                 ∧ unique_active_key q = unique_active_key row)
                      (permissions db))
    then inl UniqueConstraintError
    else inr (row, set_permissions (permissions db ++ [row]) db).

(** The where clause the four routes pass to [Permission.destroy]. *)
Definition whereGrant (teamId : string) (subjectType : PermissionSubjectType.t)
    (subjectId : string) (resourceType : PermissionResourceType.t)
    (resourceId : string) (p : Permission.t) : bool :=
  bool_decide (Permission.teamId p = teamId)
  && bool_decide (Permission.subjectType p = subjectType)
  && bool_decide (Permission.subjectId p = Some subjectId)
  && bool_decide (Permission.resourceType p = resourceType)
  && bool_decide (Permission.resourceId p = Some resourceId).

Definition documentPermissionToLevel (permission : DocumentPermission.t)
    : PermissionLevel.t :=
  if bool_decide (permission = DocumentPermission.Manage)
  then PermissionLevel.Manage
  else if bool_decide (permission = DocumentPermission.Edit)
  then PermissionLevel.Edit
  else PermissionLevel.Read.

(** The argument is [CollectionPermission | undefined]. *)
Definition collectionPermissionToLevel
    (permission : option CollectionPermission.t) : PermissionLevel.t :=
  if bool_decide (permission = Some CollectionPermission.Manage)
  then PermissionLevel.Manage
  else if bool_decide (permission = Some CollectionPermission.Edit)
  then PermissionLevel.Edit
  else PermissionLevel.Read.

(** What a policy is asked about: a loaded row, or [null]. *)
Inductive Target :=
  | TargetDocument (id : string) (document : option Document.t)
  | TargetCollection (id : string) (found : bool)
  | TargetUser (user : option User.t)
  | TargetGroup (id : string) (found : bool).

(** The request: the authenticated user, the clock and the uuid the
    database assigns to the inserted row. *)
Record Context := mkContext {
  auth_user : User.t;
  now : Z;
  uuid : string;
}.

Section Routes.

(** [can] of [server/policies/cancan], evaluated on rows loaded from the
    database of the transaction; [defaultDocumentPermission] and
    [defaultCollectionPermission] are getters of the [User] model. *)
Variable can : Database → User.t → string → Target → bool.
Variable defaultDocumentPermission : User.t → DocumentPermission.t.
Variable defaultCollectionPermission : User.t → CollectionPermission.t.

Definition authorize (actor : User.t) (action : string) (target : Target)
    : Handler unit :=
  λ db, if can db actor action target then inr (tt, db)
        else inl AuthorizationError.

(** [findByPk(id, { rejectOnEmpty: true })]. *)
Definition rejectOnEmpty {A} (row : option A) : Handler A :=
  match row with
  | Some row => ret row
  | None => throw NotFoundError
  end.

Definition newGrant (ctx : Context) (teamId : string)
    (subjectType : PermissionSubjectType.t) (subjectId : string)
    (resourceType : PermissionResourceType.t) (resourceId : string)
    (permission : PermissionLevel.t) (inheritMode : PermissionInheritMode.t)
    (grantedById : string) : Permission.t :=
  {| Permission.id := uuid ctx;
     Permission.teamId := teamId;
     Permission.subjectType := subjectType;
     Permission.subjectId := Some subjectId;
     Permission.subjectRole := None;
     Permission.resourceType := resourceType;
     Permission.resourceId := Some resourceId;
     Permission.permission := permission;
     Permission.inheritMode := inheritMode;
     Permission.grantedById := grantedById;
     Permission.createdAt := now ctx;
     Permission.deletedAt := None |}.

Definition documents_add_user (ctx : Context) (id userId : string)
    (permission : option DocumentPermission.t) : Handler Permission.t :=
  let actor := auth_user ctx in
  if bool_decide (userId = User.id actor)
  then throw (ValidationError "You cannot invite yourself")
  else
    document <- bind (query (λ db, documents db !! id)) rejectOnEmpty ;;
    user <- bind (query (λ db, users db !! userId)) rejectOnEmpty ;;
    authorize actor "manageUsers" (TargetDocument id (Some document)) ;;;
    authorize actor "read" (TargetUser (Some user)) ;;;
    let resolvedPermission :=
      default (defaultDocumentPermission user) permission in
    Permission_destroy
      (whereGrant (User.teamId actor) PermissionSubjectType.User userId
         PermissionResourceType.Document id)
      (now ctx) ;;;
    Permission_create
      (newGrant ctx (User.teamId actor) PermissionSubjectType.User userId
         PermissionResourceType.Document id
         (documentPermissionToLevel resolvedPermission)
         PermissionInheritMode.Self (User.id actor)).

Definition documents_add_group (ctx : Context) (id groupId : string)
    (permission : option DocumentPermission.t) : Handler Permission.t :=
  let user := auth_user ctx in
  document <- bind (query (λ db, documents db !! id)) rejectOnEmpty ;;
  bind (query (λ db, if bool_decide (groupId ∈ groups db)
                     then Some groupId else None)) rejectOnEmpty ;;;
  authorize user "manageUsers" (TargetDocument id (Some document)) ;;;
  authorize user "read" (TargetGroup groupId true) ;;;
  let resolvedPermission :=
    default (defaultDocumentPermission user) permission in
  Permission_destroy
    (whereGrant (User.teamId user) PermissionSubjectType.Group groupId
       PermissionResourceType.Document id)
    (now ctx) ;;;
  Permission_create
    (newGrant ctx (User.teamId user) PermissionSubjectType.Group groupId
       PermissionResourceType.Document id
       (documentPermissionToLevel resolvedPermission)
       PermissionInheritMode.Self (User.id user)).

Definition collections_add_user (ctx : Context) (id userId : string)
    (permission : option CollectionPermission.t) : Handler Permission.t :=
  let actor := auth_user ctx in
  collection <- query (λ db, bool_decide (id ∈ collections db)) ;;
  user <- query (λ db, users db !! userId) ;;
  authorize actor "update" (TargetCollection id collection) ;;;
  authorize actor "read" (TargetUser user) ;;;
  resolvedPermission <-
    match permission, user with
    | Some permission, _ => ret permission
    | None, Some user => ret (defaultCollectionPermission user)
    | None, None => throw TypeError
    end ;;
  Permission_destroy
    (whereGrant (User.teamId actor) PermissionSubjectType.User userId
       PermissionResourceType.Collection id)
    (now ctx) ;;;
  Permission_create
    (newGrant ctx (User.teamId actor) PermissionSubjectType.User userId
       PermissionResourceType.Collection id
       (collectionPermissionToLevel (Some resolvedPermission))
       PermissionInheritMode.Children (User.id actor)).

Definition collections_add_group (ctx : Context) (id groupId : string)
    (permission : option CollectionPermission.t) : Handler Permission.t :=
  let user := auth_user ctx in
  collection <- query (λ db, bool_decide (id ∈ collections db)) ;;
  group <- query (λ db, bool_decide (groupId ∈ groups db)) ;;
  authorize user "update" (TargetCollection id collection) ;;;
  authorize user "read" (TargetGroup groupId group) ;;;
  Permission_destroy
    (whereGrant (User.teamId user) PermissionSubjectType.Group groupId
       PermissionResourceType.Collection id)
    (now ctx) ;;;
  Permission_create
    (newGrant ctx (User.teamId user) PermissionSubjectType.Group groupId
       PermissionResourceType.Collection id
       (collectionPermissionToLevel permission)
       PermissionInheritMode.Children (User.id user)).

(** [Permission.bulkCreate(rows)]: the rows are inserted one after the
    other under the same unique index. *)
Fixpoint Permission_bulkCreate (rows : list Permission.t)
    : Handler (list Permission.t) :=
  match rows with
  | [] => ret []
  | row :: rows =>
      created <- Permission_create row ;;
      rest <- Permission_bulkCreate rows ;;
      ret (created :: rest)
  end.

(** The where clause of the two [Permission.destroy] calls of
    [collections.update]. *)
Definition whereRoleGrant (teamId subjectRole resourceId : string)
    (p : Permission.t) : bool :=
  bool_decide (Permission.teamId p = teamId)
  && bool_decide (Permission.subjectType p = PermissionSubjectType.Role)
  && bool_decide (Permission.subjectRole p = Some subjectRole)
  && bool_decide (Permission.resourceType p
                  = PermissionResourceType.Collection)
  && bool_decide (Permission.resourceId p = Some resourceId).

(** The block of [collections.update] that runs when the request carries
    a [permission] ([CollectionPermission | null]), after the collection
    [collectionId] has been loaded and [authorize(user, "update",
    collection)] has passed; [uuids] are the ids the database assigns to
    the inserted rows. *)
Definition collections_update_grants (ctx : Context) (uuids : string * string)
    (collectionId : string) (permission : option CollectionPermission.t)
    : Handler (list Permission.t) :=
  let user := auth_user ctx in
  Permission_destroy
    (whereRoleGrant (User.teamId user) "viewer" collectionId) (now ctx) ;;;
  Permission_destroy
    (whereRoleGrant (User.teamId user) "editor" collectionId) (now ctx) ;;;
  let roleGrants : list (string * string * PermissionLevel.t) :=
    if bool_decide (permission = Some CollectionPermission.Read)
    then [(uuids.1, "viewer", PermissionLevel.Read);
          (uuids.2, "editor", PermissionLevel.Read)]
    else if bool_decide (permission = Some CollectionPermission.Edit)
    then [(uuids.1, "viewer", PermissionLevel.Read);
          (uuids.2, "editor", PermissionLevel.Edit)]
    else [] in
  if bool_decide (roleGrants = []) then ret []
  else
    Permission_bulkCreate
      (map (λ grant : string * string * PermissionLevel.t,
              {| Permission.id := grant.1.1;
                 Permission.teamId := User.teamId user;
                 Permission.subjectType := PermissionSubjectType.Role;
                 Permission.subjectId := None;
                 Permission.subjectRole := Some grant.1.2;
                 Permission.resourceType := PermissionResourceType.Collection;
                 Permission.resourceId := Some collectionId;
                 Permission.permission := grant.2;
                 Permission.inheritMode := PermissionInheritMode.Children;
                 Permission.grantedById := User.id user;
                 Permission.createdAt := now ctx;
                 Permission.deletedAt := None |})
         roleGrants).

End Routes.

(** ** More of the routes *)

(** [levelToDocumentPermission] of [documents.ts] and of
    [groupMemberships.ts], [levelToCollectionPermission] of
    [collections.ts]. *)
Definition levelToDocumentPermission (level : PermissionLevel.t)
    : DocumentPermission.t :=
  if bool_decide (level = PermissionLevel.Manage)
  then DocumentPermission.Manage
  else if bool_decide (level = PermissionLevel.Edit)
  then DocumentPermission.Edit
  else DocumentPermission.Read.

Definition levelToCollectionPermission (level : PermissionLevel.t)
    : CollectionPermission.t :=
  if bool_decide (level = PermissionLevel.Manage)
  then CollectionPermission.Manage
  else if bool_decide (level = PermissionLevel.Edit)
  then CollectionPermission.Edit
  else CollectionPermission.Read.

(** The [CHECK] constraints the migration puts on [permissions]:
    ["permissions_subject_consistency_check"] and
    ["permissions_resource_consistency_check"].  The four [IN (...)]
    constraints hold of every value of the enumerations. *)
Definition subject_consistency_check (p : Permission.t) : bool :=
  (bool_decide (Permission.subjectType p = PermissionSubjectType.Role)
   && bool_decide (Permission.subjectRole p ≠ None)
   && bool_decide (Permission.subjectId p = None))
  || (bool_decide (Permission.subjectType p = PermissionSubjectType.User
                   ∨ Permission.subjectType p = PermissionSubjectType.Group)
      && bool_decide (Permission.subjectId p ≠ None)
      && bool_decide (Permission.subjectRole p = None)).

Definition resource_consistency_check (p : Permission.t) : bool :=
  (bool_decide (Permission.resourceType p = PermissionResourceType.Workspace)
   && bool_decide (Permission.resourceId p = None))
  || (bool_decide (Permission.resourceType p
                   = PermissionResourceType.Collection
                   ∨ Permission.resourceType p
                     = PermissionResourceType.Document)
      && bool_decide (Permission.resourceId p ≠ None)).

(** *** The deduplication that precedes the unique index *)

(** [CASE "permission" WHEN 'manage' THEN 3 WHEN 'edit' THEN 2 ELSE 1 END]. *)
Definition dedupeRank (p : Permission.t) : Z :=
  match Permission.permission p with
  | PermissionLevel.Manage => 3
  | PermissionLevel.Edit => 2
  | PermissionLevel.Read => 1
  end.

(** [ORDER BY CASE ... END DESC, "createdAt" ASC]: [p] is not after [q]. *)
Definition windowOrder (p q : Permission.t) : Prop :=
  dedupeRank q < dedupeRank p
  ∨ (dedupeRank q = dedupeRank p
     ∧ Permission.createdAt p ≤ Permission.createdAt q).

#[global] Instance windowOrder_dec p q : Decision (windowOrder p q).
Proof. unfold windowOrder. apply _. Defined.

(** The values of the [PARTITION BY] expressions, which are those of the
    unique index. *)
Definition Partition : Type :=
  string * PermissionSubjectType.t * string * string
  * PermissionResourceType.t * string * PermissionInheritMode.t.

(** The subquery [duplicates]: the ids of the rows whose [ROW_NUMBER()]
    within their partition is above one.  [ranked] lists the rows with
    [deletedAt IS NULL] in an order of the window, [seen] holds the
    partitions that have been met. *)
Fixpoint duplicates (seen : list Partition) (ranked : list Permission.t)
    : list string :=
  match ranked with
  | [] => []
  | p :: ranked =>
      if bool_decide (unique_active_key p ∈ seen)
      then Permission.id p :: duplicates seen ranked
      else duplicates (unique_active_key p :: seen) ranked
  end.

(** [DELETE FROM "permissions" p USING (...) duplicates
     WHERE p.id = duplicates.id].  Rows that are equal under the
    [ORDER BY] of the window are numbered in an order that the database
    chooses; [ranked] is the order it has chosen. *)
Definition dedupe_with (ranked table : list Permission.t)
    : list Permission.t :=
  filter (λ p, Permission.id p ∉ duplicates [] ranked) table.

(** The deletion with one order of the window. *)
Definition dedupe (table : list Permission.t) : list Permission.t :=
  dedupe_with (merge_sort windowOrder (filter active table)) table.

(** *** The backfill of the grants of admins and managers *)

(** The columns of [collections] that the backfill reads. *)
Module CollectionRow.
Record t := mk {
  id : string;
  teamId : string;
  ownerId : string;
  deletedAt : option Z;
}.
End CollectionRow.

(** The subquery under [NOT EXISTS] for a collection and a role. *)
Definition existsRoleGrant (table : list Permission.t) (c : CollectionRow.t)
    (subjectRole : string) : bool :=
  existsb
    (λ p, bool_decide (Permission.teamId p = CollectionRow.teamId c)
          && bool_decide (Permission.subjectType p
                          = PermissionSubjectType.Role)
          && bool_decide (Permission.subjectRole p = Some subjectRole)
          && bool_decide (Permission.resourceType p
                          = PermissionResourceType.Collection)
          && bool_decide (Permission.resourceId p
                          = Some (CollectionRow.id c))
          && bool_decide (Permission.inheritMode p
                          = PermissionInheritMode.Children)
          && bool_decide (Permission.deletedAt p = None))
    table.

(** [FROM "collections" c CROSS JOIN (VALUES ('admin'), ('manager'))
     WHERE c."deletedAt" IS NULL AND NOT EXISTS (...)]. *)
Definition backfillSelection (collections : list CollectionRow.t)
    (table : list Permission.t) : list (CollectionRow.t * string) :=
  filter (λ x, CollectionRow.deletedAt x.1 = None
               ∧ existsRoleGrant table x.1 x.2 = false)
    (flat_map (λ c, [(c, "admin"); (c, "manager")]) collections).

(** The row of the [SELECT] list; [uuid] is the value of
    [uuid_generate_v4()], [now] that of [NOW()]. *)
Definition backfillRow (uuid : string) (now : Z)
    (x : CollectionRow.t * string) : Permission.t :=
  {| Permission.id := uuid;
     Permission.teamId := CollectionRow.teamId x.1;
     Permission.subjectType := PermissionSubjectType.Role;
     Permission.subjectId := None;
     Permission.subjectRole := Some x.2;
     Permission.resourceType := PermissionResourceType.Collection;
     Permission.resourceId := Some (CollectionRow.id x.1);
     Permission.permission := PermissionLevel.Manage;
     Permission.inheritMode := PermissionInheritMode.Children;
     Permission.grantedById := CollectionRow.ownerId x.1;
     Permission.createdAt := now;
     Permission.deletedAt := None |}.

(** [up]: one [INSERT ... SELECT], whose subquery reads the table as it
    was before the statement; [uuid i] is the id generated for the [i]-th
    row selected. *)
Definition backfill_up (uuid : nat → string) (now : Z)
    (collections : list CollectionRow.t) (table : list Permission.t)
    : list Permission.t :=
  table ++ imap (λ i x, backfillRow (uuid i) now x)
             (backfillSelection collections table).

(** *** The migration of the user roles *)

Definition set_role (role : string) (u : User.t) : User.t :=
  User.mk (User.id u) (User.teamId u) role.

(** [UPDATE "users" SET "role" = to WHERE "role" = from]. *)
Definition updateRole (from to : string) (users : gmap string User.t)
    : gmap string User.t :=
  (λ u, if bool_decide (User.role u = from) then set_role to u else u)
  <$> users.

(** [up] on [users]: members become editors, then guests become viewers.
    The statements on the enumeration type and on [teams] touch no row of
    [users]. *)
Definition roles_up (users : gmap string User.t) : gmap string User.t :=
  updateRole "guest" "viewer" (updateRole "member" "editor" users).

(** [down] on [users]:
    [CASE WHEN "role" = 'editor' THEN 'member'
          WHEN "role" = 'viewer' THEN 'guest' ELSE "role" END]. *)
Definition roles_down (users : gmap string User.t) : gmap string User.t :=
  (λ u, if bool_decide (User.role u = "editor") then set_role "member" u
        else if bool_decide (User.role u = "viewer") then set_role "guest" u
        else u)
  <$> users.

(** [Permission.findOne({ where })] on the paranoid model: a row that
    satisfies [where] and is not deleted, here the first the scan meets. *)
Definition Permission_findOne (where_ : Permission.t → bool)
    : Handler (option Permission.t) :=
  query (λ db, head (filter (λ p, where_ p = true ∧ active p)
                       (permissions db))).

(** [grant.destroy()] on an instance of the paranoid model: the row with
    the primary key of [grant] gets [deletedAt = now]. *)
Definition Permission_instance_destroy (grant : Permission.t) (now : Z)
    : Handler unit :=
  λ db, inr (tt, set_permissions
                   (map (λ p, if bool_decide (Permission.id p
                                              = Permission.id grant)
                              then set_deletedAt (Some now) p else p)
                      (permissions db))
                   db).

Section RemoveRoutes.

Variable can : Database → User.t → string → Target → bool.

Definition documents_remove_user (ctx : Context) (id userId : string)
    : Handler unit :=
  let actor := auth_user ctx in
  document <- bind (query (λ db, documents db !! id)) rejectOnEmpty ;;
  user <- bind (query (λ db, users db !! userId)) rejectOnEmpty ;;
  (if bool_decide (User.id actor ≠ userId)
   then
     authorize can actor "manageUsers" (TargetDocument id (Some document)) ;;;
     authorize can actor "read" (TargetUser (Some user))
   else ret tt) ;;;
  grant <- bind (Permission_findOne
                   (whereGrant (User.teamId actor) PermissionSubjectType.User
                      userId PermissionResourceType.Document id))
             rejectOnEmpty ;;
  Permission_instance_destroy grant (now ctx) ;;;
  Permission_destroy
    (whereGrant (User.teamId actor) PermissionSubjectType.User userId
       PermissionResourceType.Document id)
    (now ctx).

Definition documents_remove_group (ctx : Context) (id groupId : string)
    : Handler unit :=
  let user := auth_user ctx in
  document <- bind (query (λ db, documents db !! id)) rejectOnEmpty ;;
  bind (query (λ db, if bool_decide (groupId ∈ groups db)
                     then Some groupId else None)) rejectOnEmpty ;;;
  authorize can user "manageUsers" (TargetDocument id (Some document)) ;;;
  authorize can user "read" (TargetGroup groupId true) ;;;
  grant <- bind (Permission_findOne
                   (whereGrant (User.teamId user) PermissionSubjectType.Group
                      groupId PermissionResourceType.Document id))
             rejectOnEmpty ;;
  Permission_instance_destroy grant (now ctx) ;;;
  Permission_destroy
    (whereGrant (User.teamId user) PermissionSubjectType.Group groupId
       PermissionResourceType.Document id)
    (now ctx).

End RemoveRoutes.

(** ** The processor of [users.delete] *)

Definition set_group_users (rows : list GroupUser.t) (db : Database)
    : Database :=
  {| sequelize := sequelize db;
     documents := documents db;
     users := users db;
     groups := groups db;
     group_users := rows;
     collections := collections db;
     permissions := permissions db |}.

(** [GroupUser.destroy({ where: { userId } })]. *)
Definition GroupUser_destroy (userId : string) : Handler unit :=
  λ db, inr (tt, set_group_users
                   (filter (λ gu, GroupUser.userId gu ≠ userId)
                      (group_users db))
                   db).

(** [where: { subjectType: PermissionSubjectType.User, subjectId: userId }];
    the clause names no team. *)
Definition whereUserSubject (userId : string) (p : Permission.t) : bool :=
  bool_decide (Permission.subjectType p = PermissionSubjectType.User)
  && bool_decide (Permission.subjectId p = Some userId).

Module UserDeletedProcessor.

(** [perform(event)] on the tables of the model: the rows of [group_users]
    and the grants of the user.  Its other statements delete from
    [user_authentications], [subscriptions], [apiKeys],
    [oauth_authentications] and [stars]. *)
Definition perform (userId : string) (now : Z) : Handler unit :=
  GroupUser_destroy userId ;;;
  Permission_destroy (whereUserSubject userId) now.

End UserDeletedProcessor.

(** ** The [read] rule of the collection policy *)

Module CollectionRules.

(** [Object.values(CollectionPermission)]. *)
Definition CollectionPermission_values : list CollectionPermission.t :=
  [CollectionPermission.Read; CollectionPermission.Edit;
   CollectionPermission.Manage].

(** [allow(User, "read", Collection, ...)], and with the same body
    [readDocument], [star], [unstar], [subscribe], [unsubscribe]. *)
Definition read (user : User.t)
    (collection : option CollectionPolicy.Collection) : Includes :=
  match collection with
  | None => NoGrant
  | Some c =>
      if bool_decide (User.teamId user ≠ CollectionPolicy.teamId c)
      then NoGrant
      else CollectionPolicy.includesPermission collection user
             CollectionPermission_values
  end.

End CollectionRules.

(** * The specification's view of the data *)

Module Spec.

(** The resource of a grant as the tagged union of the data model:
    [Workspace] carries no id, [Collection] and [Document] carry one.  A row
    whose columns fit no variant has no resource. *)
Inductive Resource :=
  | Workspace
  | Collection (resourceId : string)
  | Document (resourceId : string).

#[global] Instance Resource_eq_dec : EqDecision Resource.
Proof. solve_decision. Defined.

Definition resource (p : Permission.t) : option Resource :=
  match Permission.resourceType p, Permission.resourceId p with
  | PermissionResourceType.Workspace, None => Some Workspace
  | PermissionResourceType.Collection, Some c => Some (Collection c)
  | PermissionResourceType.Document, Some d => Some (Document d)
  | _, _ => None
  end.

(** An active grant of the team. *)
Definition activeOf (teamId : string) (p : Permission.t) : Prop :=
  Permission.teamId p = teamId ∧ Permission.deletedAt p = None.

(** [Read=0, Edit=1, Manage=2]. *)
Definition rank (level : PermissionLevel.t) : Z :=
  match level with
  | PermissionLevel.Read => 0
  | PermissionLevel.Edit => 1
  | PermissionLevel.Manage => 2
  end.

(** (a) and (b) of [resolveForCollection], each grant paired with its
    source. *)
Definition resolveForCollection (table : list Permission.t)
    (teamId collectionId : string) : list (Permission.t * Source) :=
  map (λ p, (p, inherited))
      (filter (λ p, activeOf teamId p ∧ resource p = Some Workspace
                    ∧ Permission.inheritMode p = PermissionInheritMode.Children)
         table)
  ++ map (λ p, (p, direct))
      (filter (λ p, activeOf teamId p
                    ∧ resource p = Some (Collection collectionId))
         table).

(** The parent of a document: the row its [parentDocumentId] points to. *)
Definition parentOf (docs : gmap string Document.t) (a : string)
    : option string :=
  d ← docs !! a;
  p ← Document.parentDocumentId d;
  _ ← docs !! p;
  Some p.

(** The chain walked upward from a document: the document itself, its
    parent, the parent of its parent, ... *)
Fixpoint nth_ancestor (docs : gmap string Document.t) (n : nat)
    (documentId : string) : option string :=
  match n with
  | O => _ ← docs !! documentId; Some documentId
  | S n => nth_ancestor docs n documentId ≫= parentOf docs
  end.

(** The chain ends: after [n] steps there is no further parent. *)
Definition chainEnds (docs : gmap string Document.t) (documentId : string)
    (n : nat) : Prop :=
  nth_ancestor docs n documentId = None.

(** The chain comes back to a document it has already visited. *)
Definition chainRevisits (docs : gmap string Document.t)
    (documentId : string) : Prop :=
  ∃ i j a, (i < j)%nat
           ∧ nth_ancestor docs i documentId = Some a
           ∧ nth_ancestor docs j documentId = Some a.

(** The strict ancestors met within [n] steps. *)
Definition strictAncestors (docs : gmap string Document.t)
    (documentId : string) (n : nat) : list string :=
  omap (λ k, nth_ancestor docs (S k) documentId) (seq 0 n).

(** The grant is on the collection whose id is supplied: an id that is
    not null and not the empty string. *)
Definition onSuppliedCollection (collectionId : option string)
    (p : Permission.t) : Prop :=
  match collectionId with
  | Some c => c ≠ "" ∧ resource p = Some (Collection c)
  | None => False
  end.

#[global] Instance onSuppliedCollection_dec c p :
  Decision (onSuppliedCollection c p).
Proof. unfold onSuppliedCollection. destruct c; apply _. Defined.

(** The grant is on one of the documents [ancestors]. *)
Definition onAncestor (ancestors : list string) (p : Permission.t) : Prop :=
  match resource p with
  | Some (Document a) => a ∈ ancestors
  | _ => False
  end.

#[global] Instance onAncestor_dec ancestors p :
  Decision (onAncestor ancestors p).
Proof. unfold onAncestor. destruct (resource p) as [[]|]; apply _. Defined.

(** (a)-(d) of [resolveForDocument]. *)
Definition resolveForDocument (table : list Permission.t)
    (ancestors : list string) (teamId documentId : string)
    (collectionId : option string) : list (Permission.t * Source) :=
  map (λ p, (p, inherited))
      (filter (λ p, activeOf teamId p ∧ resource p = Some Workspace
                    ∧ Permission.inheritMode p = PermissionInheritMode.Children)
         table)
  ++ map (λ p, (p, inherited))
      (filter (λ p, activeOf teamId p
                    ∧ onSuppliedCollection collectionId p
                    ∧ Permission.inheritMode p = PermissionInheritMode.Children)
         table)
  ++ map (λ p, (p, direct))
      (filter (λ p, activeOf teamId p
                    ∧ resource p = Some (Document documentId))
         table)
  ++ map (λ p, (p, inherited))
      (filter (λ p, activeOf teamId p
                    ∧ onAncestor ancestors p
                    ∧ Permission.inheritMode p = PermissionInheritMode.Children)
         table).

(** A resolved grant applies to a user: direct id match, match of the
    user's current role, or membership of the user in the group. *)
Definition applies (db : Database) (userId : string) (role : string)
    (r : ResolvedPermission.t) : Prop :=
  match ResolvedPermission.subjectType r with
  | PermissionSubjectType.User => ResolvedPermission.subjectId r = Some userId
  | PermissionSubjectType.Role => ResolvedPermission.subjectRole r = Some role
  | PermissionSubjectType.Group =>
      ∃ g, ResolvedPermission.subjectId r = Some g ∧ g ≠ ""
           ∧ g ∈ groups db
           ∧ GroupUser.mk g userId ∈ group_users db
  end.

(** [result] is the level of maximum rank among the grants of [resolved]
    that satisfy [P], and no level when none does. *)
Definition effective (P : ResolvedPermission.t → Prop)
    (resolved : list ResolvedPermission.t)
    (result : option DocumentPermission.t) : Prop :=
  match result with
  | None => ∀ r, r ∈ resolved → ¬ P r
  | Some level =>
      (∃ r, r ∈ resolved ∧ P r
            ∧ toDocumentPermission (ResolvedPermission.permission r) = level
            ∧ DocumentPermissionPriority level
              = rank (ResolvedPermission.permission r))
      ∧ ∀ r, r ∈ resolved → P r →
             rank (ResolvedPermission.permission r)
             ≤ DocumentPermissionPriority level
  end.

(** The rank of the current effective permission, no permission ranking
    below [Read]. *)
Definition rankOrNone (existing : option DocumentPermission.t) : Z :=
  match existing with
  | Some level => DocumentPermissionPriority level
  | None => -1
  end.

(** At most one active grant per indexed tuple. *)
Definition uniqueActive (table : list Permission.t) : Prop :=
  NoDup (map unique_active_key (filter active table)).

End Spec.

(** * Notions used in the statements *)

(** A resolved grant built from a pair of the specification. *)
Definition tagged (x : Permission.t * Source) : ResolvedPermission.t :=
  PermissionResolver.toResolved (λ _, x.2) x.1.

(** The row of [ancestry] for a document id. *)
Definition rowOf (docs : gmap string Document.t) (a : string)
    : option PermissionResolver.AncestryRow :=
  d ← docs !! a; Some (a, Document.parentDocumentId d).

(** The working table of the [k]-th iteration. *)
Definition workingAt (docs : gmap string Document.t) (documentId : string)
    (k : nat)
    : list PermissionResolver.AncestryRow :=
  option_list (Spec.nth_ancestor docs k documentId ≫= rowOf docs).

(** Changing only the role of a user. *)
Definition setRole (db : Database) (userId role : string) : Database :=
  {| sequelize := sequelize db;
     documents := documents db;
     users := alter (λ u, User.mk (User.id u) (User.teamId u) role) userId
                (users db);
     groups := groups db;
     group_users := group_users db;
     collections := collections db;
     permissions := permissions db |}.

(** The rows after a soft delete of those that satisfy [where_]. *)
Definition softDeleted (where_ : Permission.t → bool) (now : Z)
    (table : list Permission.t) : list Permission.t :=
  map (λ p, if where_ p && bool_decide (active p)
            then set_deletedAt (Some now) p else p)
      table.

(** A handler that, when it returns, has soft-deleted the active grants
    that would conflict with the grant it returns and has inserted that
    grant, keeping at most one active grant per indexed tuple. *)
Definition replacesGrant (handler : Handler Permission.t) (now : Z) : Prop :=
  ∀ db,
    Spec.uniqueActive (permissions db) →
    match handler db with
    | inl _ => True
    | inr (row, db') =>
        Spec.uniqueActive (permissions db')
        ∧ active row
        ∧ ∃ where_,
            permissions db' = softDeleted where_ now (permissions db) ++ [row]
            ∧ ∀ p, p ∈ permissions db → active p →
                   unique_active_key p = unique_active_key row →
                   where_ p = true
                   ∧ set_deletedAt (Some now) p ∈ permissions db'
    end.

(** The same for a handler that returns several grants. *)
Definition replacesGrants (handler : Handler (list Permission.t)) (now : Z)
    : Prop :=
  ∀ db,
    Spec.uniqueActive (permissions db) →
    match handler db with
    | inl _ => True
    | inr (rows, db') =>
        Spec.uniqueActive (permissions db')
        ∧ Forall active rows
        ∧ (∀ row, row ∈ rows → row ∈ permissions db')
        ∧ ∀ p row, p ∈ permissions db → active p → row ∈ rows →
                   unique_active_key p = unique_active_key row →
                   set_deletedAt (Some now) p ∈ permissions db'
    end.

(** The grant [row] has taken the place of the grants of its indexed
    tuple: it is in the table and active, it is the only active row of the
    table with that tuple, and the rows of [before] that were active with
    that tuple are in the table soft-deleted at [now]. *)
Definition superseded (now : Z) (before after : list Permission.t)
    (row : Permission.t) : Prop :=
  row ∈ after
  ∧ active row
  ∧ (∀ q, q ∈ after → active q →
          unique_active_key q = unique_active_key row → q = row)
  ∧ (∀ p, p ∈ before → active p →
          unique_active_key p = unique_active_key row →
          set_deletedAt (Some now) p ∈ after).

(** On [db] the handler returns [row] and its transaction commits; the
    table it leaves is the table of [db] with the active rows that satisfy
    [where_] soft-deleted at [now], followed by [row], which has taken the
    place of the grants of its tuple. *)
Definition replacesWith (handler : Handler Permission.t)
    (where_ : Permission.t → bool) (now : Z) (db : Database)
    (row : Permission.t) : Prop :=
  let db' :=
    set_permissions (softDeleted where_ now (permissions db) ++ [row]) db in
  handler db = inr (row, db')
  ∧ transaction handler db = (inr row, db')
  ∧ superseded now (permissions db) (permissions db') row
  ∧ (Spec.uniqueActive (permissions db) →
     Spec.uniqueActive (permissions db')).

(** The same for a handler that soft-deletes by several where clauses, one
    after the other, and returns several grants. *)
Definition replacesAllWith (handler : Handler (list Permission.t))
    (wheres : list (Permission.t → bool)) (now : Z) (db : Database)
    (rows : list Permission.t) : Prop :=
  let db' :=
    set_permissions
      (foldl (λ table where_, softDeleted where_ now table) (permissions db)
         wheres ++ rows) db in
  handler db = inr (rows, db')
  ∧ transaction handler db = (inr rows, db')
  ∧ Forall (superseded now (permissions db) (permissions db')) rows
  ∧ (Spec.uniqueActive (permissions db) →
     Spec.uniqueActive (permissions db')).

(** A handler that leaves the database as it found it. *)
Definition readOnly {A} (handler : Handler A) : Prop :=
  ∀ db, match handler db with
        | inl _ => True
        | inr (_, db') => db' = db
        end.

(** Both [CHECK] constraints of the table. *)
Definition checked (p : Permission.t) : Prop :=
  subject_consistency_check p = true ∧ resource_consistency_check p = true.

(** The columns that identify a grant: team, subject, resource and
    inherit mode, as they are stored. *)
Definition grantTuple (p : Permission.t)
    : string * PermissionSubjectType.t * option string * option string
      * PermissionResourceType.t * option string * PermissionInheritMode.t :=
  (Permission.teamId p, Permission.subjectType p, Permission.subjectId p,
   Permission.subjectRole p, Permission.resourceType p,
   Permission.resourceId p, Permission.inheritMode p).

(** [p'] is the row [p] as a request at time [now] may leave it: untouched,
    or soft-deleted at [now] if it was active. *)
Definition keptRow (now : Z) (p p' : Permission.t) : Prop :=
  p' = p ∨ (active p ∧ p' = set_deletedAt (Some now) p).

(** A request that touches only [permissions], keeps every row it found
    in place, changing at most its [deletedAt], and appends the rows it
    inserts. *)
Definition historyKept (now : Z) (db db' : Database) : Prop :=
  db' = set_permissions (permissions db') db
  ∧ ∃ old added,
      permissions db' = old ++ added
      ∧ Forall2 (keptRow now) (permissions db) old.

(** A handler that keeps the history of grants and, in a table whose
    rows pass the CHECK constraints, leaves only such rows. *)
Definition keepsHistory {A} (now : Z) (handler : Handler A) : Prop :=
  ∀ db a db',
    handler db = inr (a, db') →
    historyKept now db db'
    ∧ (Forall checked (permissions db) → Forall checked (permissions db')).

(** A handler that never fails on the unique index in a table whose rows
    pass the CHECK constraints. *)
Definition neverConflicts {A} (handler : Handler A) : Prop :=
  ∀ db, Forall checked (permissions db) →
        handler db ≠ inl UniqueConstraintError.

(** A handler that, when it returns in a table with unique ids, found an
    active grant that satisfies [where_] and has soft-deleted every such
    grant, touching nothing else. *)
Definition removesGrant (where_ : Permission.t → bool) (now : Z)
    (handler : Handler unit) : Prop :=
  ∀ db u db',
    NoDup (map Permission.id (permissions db)) →
    handler db = inr (u, db') →
    (∃ g, g ∈ permissions db ∧ where_ g = true ∧ active g)
    ∧ db' = set_permissions (softDeleted where_ now (permissions db)) db
    ∧ (∀ p, p ∈ permissions db' → active p → where_ p = false)
    ∧ (Spec.uniqueActive (permissions db) →
       Spec.uniqueActive (permissions db')).

(** The subject of a grant exists: the user or the group its [subjectId]
    names; a role grant names no row. *)
Definition subjectExists (db : Database) (p : Permission.t) : Prop :=
  match Permission.subjectType p with
  | PermissionSubjectType.User =>
      ∃ u, Permission.subjectId p = Some u ∧ is_Some (users db !! u)
  | PermissionSubjectType.Group =>
      ∃ g, Permission.subjectId p = Some g ∧ g ∈ groups db
  | PermissionSubjectType.Role => True
  end.

(** The resource of a grant exists: the collection or the document its
    [resourceId] names. *)
Definition resourceExists (db : Database) (p : Permission.t) : Prop :=
  match Permission.resourceType p with
  | PermissionResourceType.Workspace => True
  | PermissionResourceType.Collection =>
      ∃ c, Permission.resourceId p = Some c ∧ c ∈ collections db
  | PermissionResourceType.Document =>
      ∃ d, Permission.resourceId p = Some d ∧ is_Some (documents db !! d)
  end.

(** Every active grant is between rows that exist. *)
Definition referencesExist (db : Database) : Prop :=
  ∀ p, p ∈ permissions db → active p →
       subjectExists db p ∧ resourceExists db p.

(** [ranked] is an order in which the window of the deduplication may
    number the active rows of [table]. *)
Definition windowOf (table ranked : list Permission.t) : Prop :=
  ranked ≡ₚ filter active table ∧ StronglySorted windowOrder ranked.

(** The rows numbered one in their partition. *)
Fixpoint firstRows (seen : list Partition) (ranked : list Permission.t)
    : list Permission.t :=
  match ranked with
  | [] => []
  | p :: ranked =>
      if bool_decide (unique_active_key p ∈ seen)
      then firstRows seen ranked
      else p :: firstRows (unique_active_key p :: seen) ranked
  end.

(** The indexed tuple of the row that the backfill builds. *)
Definition backfillKey (x : CollectionRow.t * string) : Partition :=
  (CollectionRow.teamId x.1, PermissionSubjectType.Role, ZERO_UUID, x.2,
   PermissionResourceType.Collection, CollectionRow.id x.1,
   PermissionInheritMode.Children).

(** ** Example databases *)

Module Examples.

Definition doc (parent : option string) : Document.t :=
  Document.mk "team" (Some "col") parent "alice".

(** A tree [root <- mid <- leaf] in the collection [col]. *)
Definition treeDocuments : gmap string Document.t :=
  {[ "root" := doc None; "mid" := doc (Some "root");
     "leaf" := doc (Some "mid") ]}.

(** Two documents that are each other's parent. *)
Definition cyclicDocuments : gmap string Document.t :=
  {[ "A" := doc (Some "B"); "B" := doc (Some "A") ]}.

Definition alice : User.t := User.mk "alice" "team" "admin".
Definition bob : User.t := User.mk "bob" "team" "viewer".
Definition carol : User.t := User.mk "carol" "team" "editor".

Definition teamUsers : gmap string User.t :=
  {[ "alice" := alice; "bob" := bob; "carol" := carol ]}.

Definition grant (id : string) (subjectType : PermissionSubjectType.t)
    (subjectId subjectRole : option string)
    (resourceType : PermissionResourceType.t) (resourceId : option string)
    (level : PermissionLevel.t) (inheritMode : PermissionInheritMode.t)
    (createdAt : Z) (deletedAt : option Z) : Permission.t :=
  Permission.mk id "team" subjectType subjectId subjectRole resourceType
    resourceId level inheritMode "alice" createdAt deletedAt.

(** [bob] edits through the collection. *)
Definition g1 : Permission.t :=
  grant "g1" PermissionSubjectType.User (Some "bob") None
    PermissionResourceType.Collection (Some "col")
    PermissionLevel.Edit PermissionInheritMode.Children 1 None.
(** [bob] reads the leaf directly. *)
Definition g2 : Permission.t :=
  grant "g2" PermissionSubjectType.User (Some "bob") None
    PermissionResourceType.Document (Some "leaf")
    PermissionLevel.Read PermissionInheritMode.Self 2 None.
(** Admins manage the workspace. *)
Definition g3 : Permission.t :=
  grant "g3" PermissionSubjectType.Role None (Some "admin")
    PermissionResourceType.Workspace None
    PermissionLevel.Manage PermissionInheritMode.Children 3 None.
(** A revoked grant of the group on the root. *)
Definition g4 : Permission.t :=
  grant "g4" PermissionSubjectType.Group (Some "eng") None
    PermissionResourceType.Document (Some "root")
    PermissionLevel.Manage PermissionInheritMode.Children 4 (Some 5).
(** The group reads below [mid]. *)
Definition g5 : Permission.t :=
  grant "g5" PermissionSubjectType.Group (Some "eng") None
    PermissionResourceType.Document (Some "mid")
    PermissionLevel.Read PermissionInheritMode.Children 6 None.
(** [carol]'s only grant. *)
Definition g6 : Permission.t :=
  grant "g6" PermissionSubjectType.User (Some "carol") None
    PermissionResourceType.Document (Some "leaf")
    PermissionLevel.Read PermissionInheritMode.Self 7 None.

Definition treeDb : Database :=
  {| sequelize := true;
     documents := treeDocuments;
     users := teamUsers;
     groups := {[ "eng" ]};
     group_users := [GroupUser.mk "eng" "bob"];
     collections := {[ "col" ]};
     permissions := [g1; g2; g3; g4; g5; g6] |}.

Definition cyclicDb : Database :=
  {| sequelize := true;
     documents := cyclicDocuments;
     users := teamUsers;
     groups := ∅;
     group_users := [];
     collections := {[ "col" ]};
     permissions := [] |}.

(** The cycle, with a direct grant on one of its documents. *)
Definition gA : Permission.t :=
  grant "gA" PermissionSubjectType.User (Some "bob") None
    PermissionResourceType.Document (Some "A")
    PermissionLevel.Read PermissionInheritMode.Self 1 None.

Definition cyclicGrantDb : Database :=
  {| sequelize := true;
     documents := cyclicDocuments;
     users := teamUsers;
     groups := ∅;
     group_users := [];
     collections := {[ "col" ]};
     permissions := [gA] |}.

End Examples.

(** * Properties *)

(** ** Lists, filters and the order of a query *)

Section ListFacts.
Context {A : Type}.

Lemma filter_split (P Q R : A → Prop)
    `{∀ x, Decision (P x)} `{∀ x, Decision (Q x)} `{∀ x, Decision (R x)}
    (l : list A) :
  (∀ x, x ∈ l → P x ↔ Q x ∨ R x) →
  (∀ x, x ∈ l → Q x → R x → False) →
  filter P l ≡ₚ filter Q l ++ filter R l.
Proof.
  induction l as [|x l IH]; intros Hsplit Hdisj; [done|].
  assert (IH' : filter P l ≡ₚ filter Q l ++ filter R l).
  { apply IH; intros y Hy; [apply Hsplit | apply Hdisj]; by right. }
  pose proof (Hsplit x (list_elem_of_here x l)) as Hx.
  pose proof (Hdisj x (list_elem_of_here x l)) as Hd.
  rewrite !filter_cons.
  destruct (decide (P x)) as [HP|HP], (decide (Q x)) as [HQ|HQ],
    (decide (R x)) as [HR|HR]; try tauto; simpl.
  - by rewrite IH'.
  - rewrite IH'. apply Permutation_middle.
Qed.


Lemma map_filter_ext {B} (f g : A → B) (P : A → Prop)
    `{∀ x, Decision (P x)} (l : list A) :
  (∀ x, P x → f x = g x) → map f (filter P l) = map g (filter P l).
Proof.
  intros Hfg. apply map_ext_in. intros x Hx.
  apply list_elem_of_In, list_elem_of_filter in Hx. apply Hfg, Hx.
Qed.

End ListFacts.

(** A permutation goal between two lists that are in fact equal. *)
Ltac perm_by_eq :=
  match goal with
  | |- ?x ≡ₚ ?y => let E := fresh in assert (x = y) as E; [|by rewrite E]
  end.

(** [ord] is the position of [value] in the order of strings. *)
Lemma PermissionResourceType_ord_value a b :
  PermissionResourceType.ord a < PermissionResourceType.ord b
  ↔ String.ltb (PermissionResourceType.value a)
      (PermissionResourceType.value b) = true.
Proof. destruct a, b; vm_compute; intuition congruence. Qed.

Lemma PermissionSubjectType_ord_value a b :
  PermissionSubjectType.ord a < PermissionSubjectType.ord b
  ↔ String.ltb (PermissionSubjectType.value a)
      (PermissionSubjectType.value b) = true.
Proof. destruct a, b; vm_compute; intuition congruence. Qed.

Lemma findAll_Permutation where_ table :
  findAll where_ table ≡ₚ filter (λ p, where_ p = true) table.
Proof. apply merge_sort_Permutation. Qed.

Lemma findAll_elem_of where_ table p :
  p ∈ findAll where_ table ↔ where_ p = true ∧ p ∈ table.
Proof. by rewrite findAll_Permutation, list_elem_of_filter. Qed.

Lemma toResolved_id src p :
  ResolvedPermission.id (PermissionResolver.toResolved src p)
  = Permission.id p.
Proof. done. Qed.

Lemma toResolved_ext src1 src2 p :
  src1 p = src2 p →
  PermissionResolver.toResolved src1 p = PermissionResolver.toResolved src2 p.
Proof. unfold PermissionResolver.toResolved. by intros ->. Qed.

(** The clauses of the queries in terms of the tagged union. *)
Lemma whereScope_spec teamId p :
  PermissionResolver.whereScope teamId p = true ↔ Spec.activeOf teamId p.
Proof.
  unfold PermissionResolver.whereScope, Spec.activeOf.
  rewrite andb_true_iff, !bool_decide_eq_true. done.
Qed.

Lemma whereWorkspaceChildren_spec p :
  PermissionResolver.whereWorkspaceChildren p = true
  ↔ Spec.resource p = Some Spec.Workspace
    ∧ Permission.inheritMode p = PermissionInheritMode.Children.
Proof.
  unfold PermissionResolver.whereWorkspaceChildren, Spec.resource.
  rewrite !andb_true_iff, !bool_decide_eq_true.
  destruct (Permission.resourceType p), (Permission.resourceId p);
    intuition congruence.
Qed.


Lemma whereDocument_spec d p :
  PermissionResolver.whereDocument d p = true
  ↔ Spec.resource p = Some (Spec.Document d).
Proof.
  unfold PermissionResolver.whereDocument, Spec.resource.
  rewrite !andb_true_iff, !bool_decide_eq_true.
  destruct (Permission.resourceType p), (Permission.resourceId p);
    intuition congruence.
Qed.

Lemma whereCollectionChildren_spec c p :
  PermissionResolver.whereCollectionChildren c p = true
  ↔ Spec.resource p = Some (Spec.Collection c)
    ∧ Permission.inheritMode p = PermissionInheritMode.Children.
Proof.
  unfold PermissionResolver.whereCollectionChildren, Spec.resource.
  rewrite !andb_true_iff, !bool_decide_eq_true.
  destruct (Permission.resourceType p), (Permission.resourceId p);
    intuition congruence.
Qed.

Lemma whereAncestorsChildren_spec ids p :
  PermissionResolver.whereAncestorsChildren ids p = true
  ↔ Spec.onAncestor ids p
    ∧ Permission.inheritMode p = PermissionInheritMode.Children.
Proof.
  unfold PermissionResolver.whereAncestorsChildren, Spec.onAncestor,
    Spec.resource.
  rewrite !andb_true_iff, !bool_decide_eq_true.
  destruct (Permission.resourceType p), (Permission.resourceId p);
    rewrite ?bool_decide_eq_true; intuition congruence.
Qed.

Example treeDb_col_resolved :
  map (λ r, (ResolvedPermission.id r, ResolvedPermission.source r))
    (PermissionResolver.resolveForCollection Examples.treeDb "team" "col")
  = [("g1", direct); ("g3", inherited)].
Proof. vm_compute. reflexivity. Qed.


(** ** The ancestor query *)

Section Ancestry.
Variable docs : gmap string Document.t.

Lemma parentOf_in_docs a p :
  Spec.parentOf docs a = Some p → is_Some (docs !! p).
Proof.
  unfold Spec.parentOf. intros H.
  destruct (docs !! a) as [d|]; simpl in H; [|done].
  destruct (Document.parentDocumentId d) as [q|]; simpl in H; [|done].
  destruct (docs !! q) eqn:E; simpl in H; [|done].
  simplify_eq. by rewrite E.
Qed.

Lemma nth_ancestor_in_docs n documentId a :
  Spec.nth_ancestor docs n documentId = Some a → is_Some (docs !! a).
Proof.
  destruct n as [|n]; simpl.
  - destruct (docs !! documentId) eqn:E; simpl; [|done].
    intros; simplify_eq. by rewrite E.
  - intros (b & _ & Hp)%bind_Some. by eapply parentOf_in_docs.
Qed.

Lemma nth_ancestor_row n documentId a :
  Spec.nth_ancestor docs n documentId = Some a → is_Some (rowOf docs a).
Proof.
  intros [d Hd]%nth_ancestor_in_docs. unfold rowOf. rewrite Hd. by eexists.
Qed.

Lemma nth_ancestor_None_mono n m documentId :
  Spec.nth_ancestor docs n documentId = None → (n ≤ m)%nat →
  Spec.nth_ancestor docs m documentId = None.
Proof.
  intros Hn. induction 1 as [|m _ IH]; [done|]. simpl. by rewrite IH.
Qed.

Lemma nth_ancestor_Some_mono n m documentId :
  is_Some (Spec.nth_ancestor docs m documentId) → (n ≤ m)%nat →
  is_Some (Spec.nth_ancestor docs n documentId).
Proof.
  intros Hm Hle.
  destruct (Spec.nth_ancestor docs n documentId) eqn:E; [by eexists|].
  rewrite (nth_ancestor_None_mono _ _ _ E Hle) in Hm. by destruct Hm.
Qed.

Lemma nth_ancestor_0 documentId a :
  Spec.nth_ancestor docs 0 documentId = Some a → a = documentId.
Proof.
  simpl. destruct (docs !! documentId); simpl; intros; by simplify_eq.
Qed.

Lemma ancestry_base_working documentId :
  PermissionResolver.ancestry_base docs documentId = workingAt docs documentId 0.
Proof.
  unfold PermissionResolver.ancestry_base, workingAt, rowOf. simpl.
  destruct (docs !! documentId) as [d|] eqn:E; simpl; [|done].
  by rewrite E.
Qed.

Lemma ancestry_step_working documentId k :
  PermissionResolver.ancestry_step docs (workingAt docs documentId k)
  = workingAt docs documentId (S k).
Proof.
  unfold PermissionResolver.ancestry_step, workingAt.
  rewrite omap_option_list. f_equal. simpl.
  destruct (Spec.nth_ancestor docs k documentId) as [a|]; simpl; [|done].
  unfold rowOf, Spec.parentOf.
  destruct (docs !! a) as [d|]; simpl; [|done].
  destruct (Document.parentDocumentId d) as [p|]; simpl; [|done].
  destruct (docs !! p) as [pd|] eqn:E; simpl; [|done].
  by rewrite E.
Qed.

Lemma workingAt_nil documentId k :
  workingAt docs documentId k = [] ↔ Spec.nth_ancestor docs k documentId = None.
Proof.
  unfold workingAt.
  destruct (Spec.nth_ancestor docs k documentId) as [a|] eqn:E; simpl;
    [|done].
  destruct (nth_ancestor_row _ _ _ E) as [r ->]. done.
Qed.

Lemma workingAt_cons documentId k a :
  Spec.nth_ancestor docs k documentId = Some a →
  ∃ parent, workingAt docs documentId k = [(a, parent)].
Proof.
  intros E. unfold workingAt. rewrite E. simpl. unfold rowOf.
  destruct (nth_ancestor_in_docs _ _ _ E) as [d ->]. simpl. by eexists.
Qed.

Lemma ancestry_eval_S fuel working :
  working ≠ [] →
  PermissionResolver.ancestry_eval (S fuel) docs working
  = rest ← PermissionResolver.ancestry_eval fuel docs
             (PermissionResolver.ancestry_step docs working);
    Some (working ++ rest).
Proof. by destruct working. Qed.

(** When the chain ends the query returns the documents of the chain, in
    the order in which they are met. *)
Lemma ancestry_eval_ends documentId n :
  ∀ k fuel,
    Spec.nth_ancestor docs (k + n) documentId = None → (n ≤ fuel)%nat →
    ∃ rows,
      PermissionResolver.ancestry_eval fuel docs (workingAt docs documentId k)
      = Some rows
      ∧ map (λ row : PermissionResolver.AncestryRow, row.1) rows
        = omap (λ j, Spec.nth_ancestor docs j documentId) (seq k n).
Proof.
  induction n as [|n IH]; intros k fuel Hend Hfuel.
  - rewrite Nat.add_0_r in Hend. apply workingAt_nil in Hend.
    rewrite Hend. exists []. by destruct fuel.
  - destruct (Spec.nth_ancestor docs k documentId) as [a|] eqn:E.
    + destruct (workingAt_cons _ _ _ E) as [parent Hw].
      destruct fuel as [|fuel]; [lia|].
      destruct (IH (S k) fuel) as (rest & Hrest & Hids);
        [by replace (S k + n)%nat with (k + S n)%nat by lia | lia |].
      exists ((a, parent) :: rest). split.
      * rewrite ancestry_eval_S by (by rewrite Hw).
        rewrite ancestry_step_working, Hrest. simpl. by rewrite Hw.
      * simpl. rewrite E. simpl. by rewrite Hids.
    + exists []. split.
      * apply workingAt_nil in E. rewrite E. by destruct fuel.
      * symmetry. apply elem_of_nil_inv. intros x.
        rewrite list_elem_of_omap. intros (j & Hj%elem_of_seq & Hx).
        rewrite (nth_ancestor_None_mono k j) in Hx; [done..|lia].
Qed.

(** When the query returns, the chain has ended. *)
Lemma ancestry_eval_Some_ends documentId fuel :
  ∀ k rows,
    PermissionResolver.ancestry_eval fuel docs (workingAt docs documentId k)
    = Some rows →
    ∃ n, Spec.nth_ancestor docs n documentId = None.
Proof.
  induction fuel as [|fuel IH]; intros k rows Hev.
  - exists k. apply workingAt_nil.
    destruct (workingAt docs documentId k); [done|]. done.
  - destruct (workingAt docs documentId k) eqn:Hw.
    + exists k. by apply workingAt_nil.
    + rewrite <- Hw, ancestry_eval_S in Hev by (by rewrite Hw).
      rewrite ancestry_step_working in Hev.
      destruct (PermissionResolver.ancestry_eval fuel docs
                  (workingAt docs documentId (S k))) as [rest|] eqn:Hrest;
        [|done].
      by eapply IH.
Qed.

(** A chain that revisits a document never ends. *)
Lemma nth_ancestor_shift i j documentId n :
  Spec.nth_ancestor docs i documentId = Spec.nth_ancestor docs j documentId →
  Spec.nth_ancestor docs (i + n) documentId
  = Spec.nth_ancestor docs (j + n) documentId.
Proof.
  intros Hij. induction n as [|n IH].
  - by rewrite !Nat.add_0_r.
  - rewrite !Nat.add_succ_r. simpl. by rewrite IH.
Qed.

Lemma chainRevisits_never_ends documentId :
  Spec.chainRevisits docs documentId →
  ∀ n, is_Some (Spec.nth_ancestor docs n documentId).
Proof.
  intros (i & j & a & Hij & Hi & Hj) n.
  induction (lt_wf n) as [n _ IH].
  destruct (decide (n ≤ j)%nat) as [Hle|Hgt].
  - apply (nth_ancestor_Some_mono n j); [by rewrite Hj|done].
  - replace n with (j + (n - j))%nat by lia.
    rewrite <- (nth_ancestor_shift i j) by congruence.
    apply IH. lia.
Qed.

Lemma chainRevisits_not_chainEnds documentId n :
  Spec.chainRevisits docs documentId → ¬ Spec.chainEnds docs documentId n.
Proof.
  intros Hrev Hend. destruct (chainRevisits_never_ends _ Hrev n) as [a Ha].
  unfold Spec.chainEnds in Hend. congruence.
Qed.

(** The ancestors the resolver keeps are the strict ancestors. *)
Lemma inheritedAncestorIds_spec documentId n a :
  Spec.chainEnds docs documentId n →
  a ∈ filter (λ id, id ≠ documentId)
        (omap (λ j, Spec.nth_ancestor docs j documentId) (seq 0 n))
  ↔ a ∈ Spec.strictAncestors docs documentId n.
Proof.
  intros Hend. unfold Spec.strictAncestors.
  rewrite list_elem_of_filter, !list_elem_of_omap. split.
  - intros (Hne & j & Hj%elem_of_seq & Ha).
    destruct j as [|j].
    + apply nth_ancestor_0 in Ha. done.
    + exists j. split; [apply elem_of_seq; lia|done].
  - intros (j & Hj%elem_of_seq & Ha). split.
    + intros ->.
      apply (chainRevisits_not_chainEnds documentId n); [|done].
      exists 0%nat, (S j), documentId. split; [lia|]. split; [|done].
      destruct (nth_ancestor_Some_mono 0 (S j) documentId) as [b Hb];
        [by rewrite Ha | lia |].
      rewrite Hb. f_equal. by apply nth_ancestor_0.
    + exists (S j). split; [|done]. apply elem_of_seq.
      destruct (decide (S j = n)) as [<-|]; [|lia].
      unfold Spec.chainEnds in Hend. congruence.
Qed.

End Ancestry.

(** ** [findAncestorDocumentIds] and [resolveForDocument] *)

Lemma findAncestorDocumentIds_disconnected fuel db documentId :
  sequelize db = false →
  PermissionResolver.findAncestorDocumentIds fuel db documentId
  = Some [documentId].
Proof.
  intros H. unfold PermissionResolver.findAncestorDocumentIds. by rewrite H.
Qed.

Lemma findAncestorDocumentIds_ends fuel db documentId n :
  sequelize db = true →
  Spec.chainEnds (documents db) documentId n → (n ≤ fuel)%nat →
  PermissionResolver.findAncestorDocumentIds fuel db documentId
  = Some (omap (λ j, Spec.nth_ancestor (documents db) j documentId)
            (seq 0 n)).
Proof.
  intros Hseq Hend Hfuel.
  unfold PermissionResolver.findAncestorDocumentIds. rewrite Hseq. simpl.
  rewrite ancestry_base_working.
  destruct (ancestry_eval_ends (documents db) documentId n 0 fuel)
    as (rows & -> & Hids); [done..|].
  simpl. by rewrite Hids.
Qed.

Lemma findAncestorDocumentIds_Some_ends fuel db documentId ids :
  PermissionResolver.findAncestorDocumentIds fuel db documentId = Some ids →
  sequelize db = false ∨ ∃ n, Spec.chainEnds (documents db) documentId n.
Proof.
  unfold PermissionResolver.findAncestorDocumentIds.
  destruct (sequelize db); simpl; [|by left].
  rewrite ancestry_base_working. intros Hev. right.
  destruct (PermissionResolver.ancestry_eval fuel (documents db)
              (workingAt (documents db) documentId 0)) as [rows|] eqn:E;
    [|done].
  by eapply ancestry_eval_Some_ends.
Qed.

(** [resolveForDocument] returns exactly when the ancestor query does. *)
Lemma resolveForDocument_is_Some fuel db teamId documentId collectionId :
  is_Some (PermissionResolver.resolveForDocument fuel db teamId documentId
             collectionId)
  ↔ is_Some (PermissionResolver.findAncestorDocumentIds fuel db documentId).
Proof.
  unfold PermissionResolver.resolveForDocument.
  destruct (PermissionResolver.findAncestorDocumentIds fuel db documentId);
    simpl; split; intros [? ?]; try done; by eexists.
Qed.

Lemma resolveForDocument_revisits fuel db teamId documentId collectionId :
  sequelize db = true →
  Spec.chainRevisits (documents db) documentId →
  PermissionResolver.resolveForDocument fuel db teamId documentId collectionId
  = None.
Proof.
  intros Hseq Hrev.
  destruct (PermissionResolver.resolveForDocument fuel db teamId documentId
              collectionId) as [r|] eqn:E; [|done].
  assert (is_Some (PermissionResolver.findAncestorDocumentIds fuel db
                     documentId)) as [ids Hids].
  { apply (resolveForDocument_is_Some fuel db teamId documentId collectionId).
    by rewrite E. }
  apply findAncestorDocumentIds_Some_ends in Hids as [Hd|[n Hn]];
    [congruence|].
  by destruct (chainRevisits_not_chainEnds _ _ n Hrev).
Qed.

(** The disjunction built by [resolveForDocument]. *)
Lemma disjunction_spec documentId collectionId ancestors p :
  existsb (λ clause : Permission.t → bool, clause p)
    ([PermissionResolver.whereWorkspaceChildren;
      PermissionResolver.whereDocument documentId]
     ++ match collectionId with
        | Some c => if truthy collectionId
                    then [PermissionResolver.whereCollectionChildren c]
                    else []
        | None => []
        end
     ++ (if bool_decide (ancestors = []) then []
         else [PermissionResolver.whereAncestorsChildren ancestors])) = true
  ↔ (Spec.resource p = Some Spec.Workspace
     ∧ Permission.inheritMode p = PermissionInheritMode.Children)
    ∨ (Spec.onSuppliedCollection collectionId p
       ∧ Permission.inheritMode p = PermissionInheritMode.Children)
    ∨ Spec.resource p = Some (Spec.Document documentId)
    ∨ (Spec.onAncestor ancestors p
       ∧ Permission.inheritMode p = PermissionInheritMode.Children).
Proof.
  rewrite !existsb_app, !orb_true_iff. simpl. rewrite !orb_true_iff.
  rewrite whereWorkspaceChildren_spec, whereDocument_spec.
  assert (Hcoll :
    existsb (λ clause : Permission.t → bool, clause p)
      match collectionId with
      | Some c => if truthy collectionId
                  then [PermissionResolver.whereCollectionChildren c]
                  else []
      | None => []
      end = true
    ↔ Spec.onSuppliedCollection collectionId p
      ∧ Permission.inheritMode p = PermissionInheritMode.Children).
  { unfold Spec.onSuppliedCollection.
    destruct collectionId as [c|]; simpl; [|intuition congruence].
    case_bool_decide; simpl; [intuition congruence|].
    rewrite orb_false_r, whereCollectionChildren_spec. tauto. }
  assert (Hanc :
    existsb (λ clause : Permission.t → bool, clause p)
      (if bool_decide (ancestors = []) then []
       else [PermissionResolver.whereAncestorsChildren ancestors]) = true
    ↔ Spec.onAncestor ancestors p
      ∧ Permission.inheritMode p = PermissionInheritMode.Children).
  { case_bool_decide as Hnil; simpl.
    - subst. unfold Spec.onAncestor.
      destruct (Spec.resource p) as [[]|]; try (intuition congruence).
      rewrite elem_of_nil. intuition congruence.
    - by rewrite orb_false_r, whereAncestorsChildren_spec. }
  rewrite Hcoll, Hanc. intuition congruence.
Qed.

Lemma onAncestor_resource ancestors p :
  Spec.onAncestor ancestors p →
  ∃ a, a ∈ ancestors ∧ Spec.resource p = Some (Spec.Document a).
Proof.
  unfold Spec.onAncestor. destruct (Spec.resource p) as [[]|]; try done.
  intros. by eexists.
Qed.

Lemma onSuppliedCollection_resource collectionId p :
  Spec.onSuppliedCollection collectionId p →
  ∃ c, Spec.resource p = Some (Spec.Collection c).
Proof.
  unfold Spec.onSuppliedCollection. destruct collectionId; [|done].
  intros [_ ?]. by eexists.
Qed.

(** The body of [resolveForDocument] once the ancestor ids are known. *)
Lemma resolveForDocument_with fuel db teamId documentId collectionId ids :
  PermissionResolver.findAncestorDocumentIds fuel db documentId = Some ids →
  ∃ r,
    PermissionResolver.resolveForDocument fuel db teamId documentId
      collectionId = Some r
    ∧ r ≡ₚ map tagged
             (Spec.resolveForDocument (permissions db)
                (filter (λ id, id ≠ documentId) ids)
                teamId documentId collectionId)
    ∧ (NoDup (map Permission.id (permissions db)) →
       NoDup (map ResolvedPermission.id r))
    ∧ (∀ x, x ∈ r →
         ∃ p, p ∈ permissions db ∧ Permission.deletedAt p = None
              ∧ x = PermissionResolver.toResolved
                      (λ _, ResolvedPermission.source x) p).
Proof.
  intros Hids. unfold PermissionResolver.resolveForDocument.
  rewrite Hids. cbn [mbind option_bind]. eexists. split; [done|].
  set (anc := filter (λ id, id ≠ documentId) ids).
  assert (Hanc : documentId ∉ anc).
  { unfold anc. rewrite list_elem_of_filter. tauto. }
  split; [|split].
  - unfold Spec.resolveForDocument. rewrite findAll_Permutation.
    set (A := λ p, Spec.activeOf teamId p
                   ∧ Spec.resource p = Some Spec.Workspace
                   ∧ Permission.inheritMode p
                     = PermissionInheritMode.Children).
    set (B := λ p, Spec.activeOf teamId p
                   ∧ Spec.onSuppliedCollection collectionId p
                   ∧ Permission.inheritMode p
                     = PermissionInheritMode.Children).
    set (C := λ p, Spec.activeOf teamId p
                   ∧ Spec.resource p = Some (Spec.Document documentId)).
    set (D := λ p, Spec.activeOf teamId p
                   ∧ Spec.onAncestor anc p
                   ∧ Permission.inheritMode p
                     = PermissionInheritMode.Children).
    rewrite (filter_split _ A (λ p, B p ∨ C p ∨ D p)).
    2:{ intros p _. rewrite andb_true_iff, whereScope_spec, disjunction_spec.
        unfold A, B, C, D. tauto. }
    2:{ intros p _ (_ & Hw & _) [(_ & Hb & _)|[(_ & Hc)|(_ & Hd & _)]].
        - apply onSuppliedCollection_resource in Hb as [c Hb]. congruence.
        - congruence.
        - apply onAncestor_resource in Hd as (a & _ & Hd). congruence. }
    rewrite (filter_split (λ p, B p ∨ C p ∨ D p) B (λ p, C p ∨ D p)).
    2:{ intros p _. tauto. }
    2:{ intros p _ (_ & Hb & _) [(_ & Hc)|(_ & Hd & _)];
          apply onSuppliedCollection_resource in Hb as [c Hb].
        - congruence.
        - apply onAncestor_resource in Hd as (a & _ & Hd). congruence. }
    rewrite (filter_split (λ p, C p ∨ D p) C D).
    2:{ intros p _. tauto. }
    2:{ intros p _ (_ & Hc) (_ & Hd & _).
        apply onAncestor_resource in Hd as (a & Ha & Hd).
        assert (a = documentId) as -> by congruence. done. }
    rewrite !map_app, !map_map.
    assert (Hsrc : ∀ p,
      (if bool_decide (Permission.resourceType p
                       = PermissionResourceType.Document)
          && bool_decide (Permission.resourceId p = Some documentId)
       then direct else inherited)
      = if PermissionResolver.whereDocument documentId p
        then direct else inherited) by done.
    apply Permutation_app; [|apply Permutation_app; [|apply Permutation_app]];
      perm_by_eq; apply map_filter_ext; intros p Hp;
      apply toResolved_ext; cbn [fst snd]; rewrite Hsrc.
    + destruct Hp as (_ & Hw & _).
      destruct (PermissionResolver.whereDocument documentId p) eqn:E;
        [|done].
      apply whereDocument_spec in E. congruence.
    + destruct Hp as (_ & Hb & _).
      apply onSuppliedCollection_resource in Hb as [c Hb].
      destruct (PermissionResolver.whereDocument documentId p) eqn:E;
        [|done].
      apply whereDocument_spec in E. congruence.
    + destruct Hp as (_ & Hc). apply whereDocument_spec in Hc.
      by rewrite Hc.
    + destruct Hp as (_ & Hd & _).
      apply onAncestor_resource in Hd as (a & Ha & Hd).
      destruct (PermissionResolver.whereDocument documentId p) eqn:E;
        [|done].
      apply whereDocument_spec in E.
      assert (a = documentId) as -> by congruence. done.
  - intros Hnd. rewrite map_map.
    erewrite map_ext by (intros; apply toResolved_id).
    rewrite findAll_Permutation.
    eapply sublist_NoDup; [exact Hnd|].
    apply (fmap_sublist Permission.id), sublist_filter.
  - intros x Hx.
    apply list_elem_of_In, in_map_iff in Hx as (p & <- & Hp).
    apply list_elem_of_In, findAll_elem_of in Hp as [Hw Hp].
    apply andb_true_iff in Hw as [Hs _].
    apply whereScope_spec in Hs as [_ Hd].
    exists p. done.
Qed.

Lemma length_omap_le {A B} (f : A → option B) (l : list A) :
  (length (omap f l) ≤ length l)%nat.
Proof.
  induction l as [|x l IH]; csimpl; [lia|].
  destruct (f x); csimpl; lia.
Qed.

Lemma resolveForDocument_length fuel db teamId documentId collectionId r :
  PermissionResolver.resolveForDocument fuel db teamId documentId collectionId
  = Some r →
  (length r ≤ length (permissions db))%nat.
Proof.
  unfold PermissionResolver.resolveForDocument.
  destruct (PermissionResolver.findAncestorDocumentIds fuel db documentId);
    cbn [mbind option_bind]; [|done].
  intros [= <-]. rewrite length_map, findAll_Permutation. apply length_filter.
Qed.

Example treeDb_leaf_ancestors :
  PermissionResolver.findAncestorDocumentIds 3 Examples.treeDb "leaf"
  = Some ["leaf"; "mid"; "root"].
Proof. vm_compute. reflexivity. Qed.

Example treeDb_leaf_resolved :
  map ResolvedPermission.id
    (default [] (PermissionResolver.resolveForDocument 3 Examples.treeDb
                   "team" "leaf" (Some "col")))
  = ["g1"; "g5"; "g2"; "g6"; "g3"].
Proof. vm_compute. reflexivity. Qed.

Example cyclicDb_out_of_fuel :
  PermissionResolver.findAncestorDocumentIds 50 Examples.cyclicDb "A" = None.
Proof. vm_compute. reflexivity. Qed.

Lemma cyclicDocuments_revisit :
  Spec.chainRevisits Examples.cyclicDocuments "A".
Proof.
  exists 0%nat, 2%nat, "A". split; [lia|]. split; vm_compute; reflexivity.
Qed.

(** C1, as the code has it: [resolveForDocument] returns exactly when the
    [Document] model has no connection or the parent chain of the document
    ends; when the chain ends within [n] steps every run of at least [n]
    iterations returns, the ancestor list has at most [n] entries and the
    result at most one entry per row of [permissions]; the ancestor query
    keeps no set of visited ids, and on a chain that revisits a document
    it never returns. *)
Theorem resolveForDocument_returns_iff_chain_ends
    db teamId documentId collectionId :
  ((∃ fuel r, PermissionResolver.resolveForDocument fuel db teamId documentId
                collectionId = Some r)
   ↔ sequelize db = false
     ∨ ∃ n, Spec.chainEnds (documents db) documentId n)
  ∧ (∀ n fuel,
       sequelize db = true →
       Spec.chainEnds (documents db) documentId n → (n ≤ fuel)%nat →
       ∃ ids r,
         PermissionResolver.findAncestorDocumentIds fuel db documentId
         = Some ids
         ∧ (length ids ≤ n)%nat
         ∧ PermissionResolver.resolveForDocument fuel db teamId documentId
             collectionId = Some r
         ∧ (length r ≤ length (permissions db))%nat)
  ∧ (sequelize db = true →
     Spec.chainRevisits (documents db) documentId →
     ∀ fuel, PermissionResolver.resolveForDocument fuel db teamId documentId
               collectionId = None).
Proof.
  assert (Hends : ∀ n fuel,
       sequelize db = true →
       Spec.chainEnds (documents db) documentId n → (n ≤ fuel)%nat →
       ∃ ids r,
         PermissionResolver.findAncestorDocumentIds fuel db documentId
         = Some ids
         ∧ (length ids ≤ n)%nat
         ∧ PermissionResolver.resolveForDocument fuel db teamId documentId
             collectionId = Some r
         ∧ (length r ≤ length (permissions db))%nat).
  { intros n fuel Hseq Hend Hfuel.
    pose proof (findAncestorDocumentIds_ends fuel db documentId n
                  Hseq Hend Hfuel) as Hids.
    destruct (resolveForDocument_with fuel db teamId documentId collectionId
                _ Hids) as (r & Hr & _).
    eexists _, r. split; [exact Hids|]. split.
    - etrans; [apply length_omap_le|]. by rewrite length_seq.
    - split; [done|]. by eapply resolveForDocument_length. }
  split; [|split; [exact Hends|]].
  - split.
    + intros (fuel & r & Hr).
      assert (is_Some (PermissionResolver.findAncestorDocumentIds fuel db
                         documentId)) as [ids Hids].
      { apply (resolveForDocument_is_Some fuel db teamId documentId
                 collectionId). by rewrite Hr. }
      by eapply findAncestorDocumentIds_Some_ends.
    + intros [Hoff|[n Hn]].
      * exists 0%nat.
        destruct (resolveForDocument_with 0 db teamId documentId collectionId
                    _ (findAncestorDocumentIds_disconnected 0 db documentId
                         Hoff)) as (r & Hr & _).
        by exists r.
      * destruct (sequelize db) eqn:Hseq.
        -- destruct (Hends n n eq_refl Hn (le_n n)) as (_ & r & _ & _ & Hr & _).
           by exists n, r.
        -- exists 0%nat.
           destruct (resolveForDocument_with 0 db teamId documentId
                       collectionId _
                       (findAncestorDocumentIds_disconnected 0 db documentId
                          Hseq)) as (r & Hr & _).
           by exists r.
  - intros Hseq Hrev fuel. by apply resolveForDocument_revisits.
Qed.

Lemma resolveForDocument_returns_iff_chain_ends_witness :
  (∃ ids r,
     PermissionResolver.findAncestorDocumentIds 3 Examples.treeDb "leaf"
     = Some ids
     ∧ (length ids ≤ 3)%nat
     ∧ PermissionResolver.resolveForDocument 3 Examples.treeDb "team" "leaf"
         (Some "col") = Some r
     ∧ (length r ≤ length (permissions Examples.treeDb))%nat)
  ∧ ∀ fuel, PermissionResolver.resolveForDocument fuel Examples.cyclicDb
              "team" "A" (Some "col") = None.
Proof.
  split.
  - apply (resolveForDocument_returns_iff_chain_ends Examples.treeDb "team"
             "leaf" (Some "col")).
    + reflexivity.
    + vm_compute. reflexivity.
    + lia.
  - apply (resolveForDocument_returns_iff_chain_ends Examples.cyclicDb "team"
             "A" (Some "col")).
    + reflexivity.
    + exact cyclicDocuments_revisit.
Defined.

(** C1 fails as stated: the chain of document [A] contains a cycle and
    [resolveForDocument] returns nothing, however many iterations the
    ancestor query is followed. *)
Lemma resolveForDocument_cycle_never_returns :
  Spec.chainRevisits (documents Examples.cyclicDb) "A"
  ∧ ¬ ∃ fuel r, PermissionResolver.resolveForDocument fuel Examples.cyclicDb
                  "team" "A" (Some "col") = Some r.
Proof.
  split; [exact cyclicDocuments_revisit|].
  intros (fuel & r & Hr).
  rewrite resolveForDocument_revisits in Hr;
    [done | reflexivity | exact cyclicDocuments_revisit].
Qed.




Example treeDb_leaf_spec :
  map (λ x : Permission.t * Source, (Permission.id x.1, x.2))
    (Spec.resolveForDocument (permissions Examples.treeDb)
       (Spec.strictAncestors (documents Examples.treeDb) "leaf" 3)
       "team" "leaf" (Some "col"))
  = [("g3", inherited); ("g1", inherited); ("g2", direct); ("g6", direct);
     ("g5", inherited)].
Proof. vm_compute. reflexivity. Qed.


(** ** The effective permission *)

#[global] Instance desc_total {A} (key : A → Z) : Total (desc key).
Proof. intros a b. unfold desc. lia. Qed.

#[global] Instance desc_trans {A} (key : A → Z) : Transitive (desc key).
Proof. intros a b c. unfold desc. lia. Qed.

(** The head of a list ordered by descending key is an element of maximal
    key; there is none only when the list is empty. *)
Lemma head_orderBy_desc {A} (key : A → Z) (l : list A) :
  match head (orderBy_desc key l) with
  | None => l = []
  | Some x => x ∈ l ∧ ∀ y, y ∈ l → key y ≤ key x
  end.
Proof.
  unfold orderBy_desc.
  pose proof (merge_sort_Permutation (desc key) l) as Hperm.
  pose proof (StronglySorted_merge_sort (desc key) l) as Hsorted.
  destruct (merge_sort (desc key) l) as [|x s]; simpl.
  - by apply Permutation_nil.
  - apply StronglySorted_inv in Hsorted as [_ Hall].
    split; [rewrite <- Hperm; by left|].
    intros y Hy. rewrite <- Hperm in Hy.
    apply elem_of_cons in Hy as [->|Hy]; [lia|].
    rewrite Forall_forall in Hall. by apply Hall.
Qed.

Lemma DocumentPermissionPriority_rank level :
  DocumentPermissionPriority (toDocumentPermission level) = Spec.rank level.
Proof. by destruct level. Qed.

Lemma DocumentPermissionPriority_inj a b :
  DocumentPermissionPriority a = DocumentPermissionPriority b → a = b.
Proof. by destruct a, b. Qed.

Lemma DocumentPermissionPriority_nonneg a : 0 ≤ DocumentPermissionPriority a.
Proof. destruct a; simpl; lia. Qed.

Lemma elem_of_Group_filterByMember db userId g :
  g ∈ Group_filterByMember db userId
  ↔ g ∈ groups db ∧ GroupUser.mk g userId ∈ group_users db.
Proof.
  unfold Group_filterByMember. split.
  - intros Hg. apply list_elem_of_In, in_map_iff in Hg as (gu & <- & Hgu).
    apply list_elem_of_In, list_elem_of_filter in Hgu as [[<- Hin] Hgu].
    split; [done|]. by destruct gu.
  - intros [Hin Hgu]. apply list_elem_of_In, in_map_iff.
    exists (GroupUser.mk g userId). split; [done|].
    apply list_elem_of_In, list_elem_of_filter. done.
Qed.

Lemma subjectFilter_spec db userId user r :
  subjectFilter userId user (list_to_set (Group_filterByMember db userId)) r
  = true
  ↔ Spec.applies db userId (User.role user) r.
Proof.
  unfold subjectFilter, Spec.applies.
  destruct (ResolvedPermission.subjectType r).
  - by rewrite bool_decide_eq_true.
  - rewrite andb_true_iff.
    destruct (ResolvedPermission.subjectId r) as [g|]; simpl.
    + rewrite negb_true_iff, bool_decide_eq_false, bool_decide_eq_true,
        elem_of_list_to_set, elem_of_Group_filterByMember.
      split.
      * intros (Hne & Hin & Hgu). by exists g.
      * intros (g' & [= <-] & Hne & Hin & Hgu). done.
    + split; [intros [? ?]; done|]. intros (g & ? & _). done.
  - by rewrite bool_decide_eq_true.
Qed.

Lemma effective_ext (P Q : ResolvedPermission.t → Prop) resolved result :
  (∀ r, r ∈ resolved → P r ↔ Q r) →
  Spec.effective P resolved result → Spec.effective Q resolved result.
Proof.
  intros HPQ. destruct result as [level|]; simpl.
  - intros [(r & Hr & HP & Hrest) Hmax]. split.
    + exists r. split; [done|]. split; [by apply HPQ|done].
    + intros r' Hr' HQ. apply Hmax; [done|]. by apply HPQ.
  - intros Hnone r Hr HQ. apply (Hnone r Hr). by apply HPQ.
Qed.

Lemma effective_filter (P : ResolvedPermission.t → Prop)
    (K : ResolvedPermission.t → Prop) `{∀ r, Decision (K r)}
    resolved result :
  Spec.effective (λ r, P r ∧ K r) resolved result
  ↔ Spec.effective P (filter K resolved) result.
Proof.
  destruct result as [level|]; simpl.
  - split.
    + intros [(r & Hr & [HP HK] & Hrest) Hmax]. split.
      * exists r. rewrite list_elem_of_filter. done.
      * intros r' [HK' Hr']%list_elem_of_filter HP'. by apply Hmax.
    + intros [(r & [HK Hr]%list_elem_of_filter & HP & Hrest) Hmax]. split.
      * by exists r.
      * intros r' Hr' [HP' HK']. apply Hmax; [|done].
        by apply list_elem_of_filter.
  - split.
    + intros Hnone r [HK Hr]%list_elem_of_filter HP. by apply (Hnone r).
    + intros Hnone r Hr [HP HK]. apply (Hnone r); [|done].
      by apply list_elem_of_filter.
Qed.

(** The effective level is determined by the grants. *)
Lemma effective_unique P resolved result1 result2 :
  Spec.effective P resolved result1 → Spec.effective P resolved result2 →
  result1 = result2.
Proof.
  destruct result1 as [l1|], result2 as [l2|]; simpl; [| | |done].
  - intros [(r1 & Hr1 & HP1 & _ & Hk1) Hmax1] [(r2 & Hr2 & HP2 & _ & Hk2) Hmax2].
    f_equal. apply DocumentPermissionPriority_inj.
    pose proof (Hmax1 r2 Hr2 HP2). pose proof (Hmax2 r1 Hr1 HP1). lia.
  - intros [(r1 & Hr1 & HP1 & _) _] Hnone. by destruct (Hnone r1).
  - intros Hnone [(r2 & Hr2 & HP2 & _) _]. by destruct (Hnone r2).
Qed.

(** What [getDocumentPermission] computes from the resolved grants. *)
Lemma getDocumentPermission_effective fuel db userId documentId
    skipMembershipId document user resolved :
  documents db !! documentId = Some document →
  users db !! userId = Some user →
  PermissionResolver.resolveForDocument fuel db (User.teamId user)
    documentId (Document.collectionId document) = Some resolved →
  ∃ result,
    getDocumentPermission fuel db userId documentId skipMembershipId
    = Some result
    ∧ Spec.effective
        (λ r, Spec.applies db userId (User.role user) r
              ∧ Some (ResolvedPermission.id r) ≠ skipMembershipId)
        resolved result.
Proof.
  intros Hdoc Huser Hres. unfold getDocumentPermission.
  rewrite Hdoc, Huser, Hres. cbn [mbind option_bind].
  eexists. split; [done|].
  set (kept := filter _ (filter _ resolved)).
  assert (Hkept : ∀ r, r ∈ kept
            ↔ r ∈ resolved
              ∧ Spec.applies db userId (User.role user) r
              ∧ Some (ResolvedPermission.id r) ≠ skipMembershipId).
  { intros r. unfold kept.
    rewrite !list_elem_of_filter, subjectFilter_spec. tauto. }
  pose proof (head_orderBy_desc DocumentPermissionPriority
    (map (λ permission,
            toDocumentPermission (ResolvedPermission.permission permission))
       kept)) as Hhead.
  destruct (head _) as [level|]; simpl.
  - destruct Hhead as [Hin Hmax].
    apply list_elem_of_In, in_map_iff in Hin as (r & <- & Hr).
    apply list_elem_of_In, Hkept in Hr as (Hr & Happ & Hskip).
    split.
    + exists r. split; [done|]. split; [done|]. split; [done|].
      apply DocumentPermissionPriority_rank.
    + intros r' Hr' [Happ' Hskip'].
      rewrite <- DocumentPermissionPriority_rank. apply Hmax.
      apply list_elem_of_In, in_map_iff. exists r'. split; [done|].
      apply list_elem_of_In, Hkept. done.
  - intros r Hr [Happ Hskip].
    apply map_eq_nil in Hhead.
    assert (r ∈ kept) as Hin by (by apply Hkept).
    rewrite Hhead in Hin. by apply elem_of_nil in Hin.
Qed.

(** With a connected model and a chain that ends within the iterations
    followed, the resolver and the functions built on it return. *)
Lemma resolveForDocument_returns fuel db teamId documentId collectionId n :
  sequelize db = true →
  Spec.chainEnds (documents db) documentId n → (n ≤ fuel)%nat →
  is_Some (PermissionResolver.resolveForDocument fuel db teamId documentId
             collectionId).
Proof.
  intros Hseq Hend Hfuel. apply resolveForDocument_is_Some.
  rewrite (findAncestorDocumentIds_ends fuel db documentId n) by done.
  by eexists.
Qed.

Lemma getDocumentPermission_returns fuel db userId documentId
    skipMembershipId n :
  sequelize db = true →
  Spec.chainEnds (documents db) documentId n → (n ≤ fuel)%nat →
  is_Some (getDocumentPermission fuel db userId documentId skipMembershipId).
Proof.
  intros Hseq Hend Hfuel. unfold getDocumentPermission.
  destruct (documents db !! documentId) as [document|]; [|by eexists].
  destruct (users db !! userId) as [user|]; [|by eexists].
  destruct (resolveForDocument_returns fuel db (User.teamId user) documentId
              (Document.collectionId document) n Hseq Hend Hfuel)
    as [resolved ->].
  by eexists.
Qed.

Lemma isElevatedPermission_returns fuel db userId documentId permission
    skipMembershipId n :
  sequelize db = true →
  Spec.chainEnds (documents db) documentId n → (n ≤ fuel)%nat →
  is_Some (isElevatedPermission fuel db userId documentId permission
             skipMembershipId).
Proof.
  intros Hseq Hend Hfuel. unfold isElevatedPermission.
  destruct (getDocumentPermission_returns fuel db userId documentId
              skipMembershipId n Hseq Hend Hfuel) as [existing ->].
  destruct existing; by eexists.
Qed.

(** Without the document or without the user there is no permission, and
    the resolver is not asked. *)
Lemma getDocumentPermission_missing fuel db userId documentId
    skipMembershipId :
  documents db !! documentId = None ∨ users db !! userId = None →
  getDocumentPermission fuel db userId documentId skipMembershipId
  = Some None.
Proof.
  unfold getDocumentPermission.
  intros [-> | ->]; [done|]. by destruct (documents db !! documentId).
Qed.

(** For an existing user and document on a parent chain with a cycle the
    resolver is asked and does not return, so neither do the functions
    built on it, whatever grant is skipped. *)
Lemma getDocumentPermission_revisits fuel db userId documentId
    skipMembershipId document user :
  documents db !! documentId = Some document →
  users db !! userId = Some user →
  sequelize db = true →
  Spec.chainRevisits (documents db) documentId →
  getDocumentPermission fuel db userId documentId skipMembershipId = None.
Proof.
  intros Hdoc Huser Hseq Hrev. unfold getDocumentPermission.
  rewrite Hdoc, Huser. cbn zeta.
  by rewrite resolveForDocument_revisits.
Qed.

Lemma isElevatedPermission_revisits fuel db userId documentId permission
    skipMembershipId document user :
  documents db !! documentId = Some document →
  users db !! userId = Some user →
  sequelize db = true →
  Spec.chainRevisits (documents db) documentId →
  isElevatedPermission fuel db userId documentId permission skipMembershipId
  = None.
Proof.
  intros Hdoc Huser Hseq Hrev. unfold isElevatedPermission.
  by rewrite (getDocumentPermission_revisits fuel db userId documentId
                skipMembershipId document user).
Qed.

(** C2, as the code has it: for an existing user and document,
    [getDocumentPermission] returns whenever the parent chain of the
    document ends within the iterations followed; and once the grants of
    the document are resolved, it returns the level of maximum rank among
    the resolved grants whose subject matches the user (by id, by the
    user's role, or by a group the user is a member of, which is checked
    here against [group_users]), and returns no level exactly when no
    resolved grant matches; for two matching grants the result ranks at
    least as high as both, and is the higher of the two when no other grant
    matches.  On a parent chain with a cycle it does not return, however
    many iterations are followed. *)
Theorem getDocumentPermission_max_rank fuel db userId documentId
    document user :
  documents db !! documentId = Some document →
  users db !! userId = Some user →
  (∀ n, sequelize db = true →
        Spec.chainEnds (documents db) documentId n → (n ≤ fuel)%nat →
        is_Some (getDocumentPermission fuel db userId documentId None))
  ∧ (∀ resolved,
      PermissionResolver.resolveForDocument fuel db (User.teamId user)
        documentId (Document.collectionId document) = Some resolved →
      ∃ result,
        getDocumentPermission fuel db userId documentId None = Some result
        ∧ Spec.effective (Spec.applies db userId (User.role user))
            resolved result
        ∧ (result = None
           ↔ ∀ r, r ∈ resolved →
                  ¬ Spec.applies db userId (User.role user) r)
        ∧ (∀ g1 g2,
             g1 ∈ resolved → g2 ∈ resolved →
             Spec.applies db userId (User.role user) g1 →
             Spec.applies db userId (User.role user) g2 →
             ∃ level,
               result = Some level
               ∧ Z.max (Spec.rank (ResolvedPermission.permission g1))
                       (Spec.rank (ResolvedPermission.permission g2))
                 ≤ DocumentPermissionPriority level
               ∧ ((∀ r, r ∈ resolved →
                        Spec.applies db userId (User.role user) r →
                        r = g1 ∨ r = g2) →
                  DocumentPermissionPriority level
                  = Z.max (Spec.rank (ResolvedPermission.permission g1))
                          (Spec.rank (ResolvedPermission.permission g2)))))
  ∧ (sequelize db = true →
     Spec.chainRevisits (documents db) documentId →
     getDocumentPermission fuel db userId documentId None = None).
Proof.
  intros Hdoc Huser. split.
  { intros n. apply getDocumentPermission_returns. }
  split; [|by apply (getDocumentPermission_revisits _ _ _ _ _ document user)].
  intros resolved Hres.
  destruct (getDocumentPermission_effective fuel db userId documentId None
              document user resolved Hdoc Huser Hres) as (result & Hget & Heff).
  apply (effective_ext _ (Spec.applies db userId (User.role user))) in Heff;
    [|intros r _; split; [tauto | done]].
  exists result. split; [done|]. split; [done|]. split.
  - split.
    + intros ->. exact Heff.
    + intros Hnone. destruct result as [level|]; [|done].
      destruct Heff as [(r & Hr & Happ & _) _]. by destruct (Hnone r).
  - intros g1 g2 Hg1 Hg2 Ha1 Ha2.
    destruct result as [level|]; [|by destruct (Heff g1)].
    destruct Heff as [(r & Hr & Happ & _ & Hlevel) Hmax].
    exists level. split; [done|].
    pose proof (Hmax g1 Hg1 Ha1). pose proof (Hmax g2 Hg2 Ha2).
    split; [lia|].
    intros Honly. destruct (Honly r Hr Happ) as [->| ->]; lia.
Qed.

Lemma getDocumentPermission_max_rank_witness :
  is_Some (getDocumentPermission 3 Examples.treeDb "bob" "leaf" None)
  ∧ ∃ resolved,
      PermissionResolver.resolveForDocument 3 Examples.treeDb "team" "leaf"
        (Some "col") = Some resolved
      ∧ getDocumentPermission 3 Examples.treeDb "bob" "leaf" None
        = Some (Some DocumentPermission.Edit)
      ∧ Spec.effective (Spec.applies Examples.treeDb "bob" "viewer") resolved
          (Some DocumentPermission.Edit).
Proof.
  destruct (getDocumentPermission_max_rank 3 Examples.treeDb "bob" "leaf"
              (Examples.doc (Some "mid")) Examples.bob)
    as (Hreturns & Hmax & _).
  - vm_compute. reflexivity.
  - vm_compute. reflexivity.
  - split.
    + apply (Hreturns 3%nat); [reflexivity | vm_compute; reflexivity | lia].
    + destruct (PermissionResolver.resolveForDocument 3 Examples.treeDb
                  "team" "leaf" (Some "col")) as [resolved|] eqn:E;
        [|by vm_compute in E].
      destruct (Hmax resolved E) as (result & Hget & Heff & _).
      vm_compute in Hget. injection Hget as <-.
      exists resolved. split; [reflexivity|]. split; [reflexivity|].
      exact Heff.
Defined.

(** C2 fails as stated: [bob] and the document [A] exist, [gA] is an
    active grant of level [Read] on exactly [A] whose subject is [bob], and
    [getDocumentPermission] returns nothing for [bob] on [A], neither
    [Read] nor no level, however many iterations are followed: the parent
    chain of [A] is a cycle. *)
Lemma getDocumentPermission_cycle_never_returns :
  documents Examples.cyclicGrantDb !! "A" = Some (Examples.doc (Some "B"))
  ∧ users Examples.cyclicGrantDb !! "bob" = Some Examples.bob
  ∧ Examples.gA ∈ permissions Examples.cyclicGrantDb
  ∧ Spec.activeOf "team" Examples.gA
  ∧ Spec.resource Examples.gA = Some (Spec.Document "A")
  ∧ Spec.applies Examples.cyclicGrantDb "bob" "viewer"
      (tagged (Examples.gA, direct))
  ∧ ¬ ∃ fuel result,
        getDocumentPermission fuel Examples.cyclicGrantDb "bob" "A" None
        = Some result.
Proof.
  split; [by vm_compute|]. split; [by vm_compute|]. split; [by left|].
  split; [done|]. split; [done|]. split; [done|].
  intros (fuel & result & Hget).
  rewrite (getDocumentPermission_revisits fuel Examples.cyclicGrantDb "bob"
             "A" None (Examples.doc (Some "B")) Examples.bob) in Hget;
    [done | by vm_compute | by vm_compute | reflexivity
    | exact cyclicDocuments_revisit].
Qed.

(** C3, as the code has it: [isElevatedPermission] returns whenever the
    parent chain of the document ends within the iterations followed; given
    the current effective permission, it returns true if and only if the
    priority of the new level is strictly greater than the rank of the
    current one, no permission ranking -1; so with no current permission it
    is true for every level.  For an existing user and document on a parent
    chain with a cycle it does not return, however many iterations are
    followed. *)
Theorem isElevatedPermission_iff_rank fuel db userId documentId permission
    skipMembershipId :
  (∀ n, sequelize db = true →
        Spec.chainEnds (documents db) documentId n → (n ≤ fuel)%nat →
        is_Some (isElevatedPermission fuel db userId documentId permission
                   skipMembershipId))
  ∧ (∀ existing,
      getDocumentPermission fuel db userId documentId skipMembershipId
      = Some existing →
      ∃ elevated,
        isElevatedPermission fuel db userId documentId permission
          skipMembershipId = Some elevated
        ∧ (elevated = true
           ↔ Spec.rankOrNone existing < DocumentPermissionPriority permission)
        ∧ (existing = None → elevated = true))
  ∧ (∀ document user,
       documents db !! documentId = Some document →
       users db !! userId = Some user →
       sequelize db = true →
       Spec.chainRevisits (documents db) documentId →
       isElevatedPermission fuel db userId documentId permission
         skipMembershipId = None).
Proof.
  split.
  { intros n. apply isElevatedPermission_returns. }
  split; [|intros document user;
           by apply (isElevatedPermission_revisits _ _ _ _ _ _ document user)].
  intros existing Hget. unfold isElevatedPermission. rewrite Hget.
  cbn [mbind option_bind].
  destruct existing as [level|]; eexists; (split; [done|]); simpl.
  - rewrite bool_decide_eq_true. split; [done|]. done.
  - pose proof (DocumentPermissionPriority_nonneg permission).
    split; [|done]. split; [lia|done].
Qed.

Lemma isElevatedPermission_iff_rank_witness :
  is_Some (isElevatedPermission 3 Examples.treeDb "bob" "leaf"
             DocumentPermission.Manage None)
  ∧ isElevatedPermission 3 Examples.treeDb "bob" "leaf"
      DocumentPermission.Manage None = Some true
  ∧ isElevatedPermission 3 Examples.treeDb "bob" "leaf"
      DocumentPermission.Edit None = Some false
  ∧ isElevatedPermission 3 Examples.treeDb "alice" "leaf"
      DocumentPermission.Read (Some "g3") = Some true.
Proof.
  split; [|split; [|split]].
  - destruct (isElevatedPermission_iff_rank 3 Examples.treeDb "bob" "leaf"
                DocumentPermission.Manage None) as (Hreturns & _ & _).
    apply (Hreturns 3%nat); [reflexivity | vm_compute; reflexivity | lia].
  - destruct (isElevatedPermission_iff_rank 3 Examples.treeDb "bob" "leaf"
                DocumentPermission.Manage None) as (_ & Hrank & _).
    destruct (Hrank (Some DocumentPermission.Edit))
      as (elevated & Hel & Hiff & _).
    + vm_compute. reflexivity.
    + rewrite Hel. f_equal. apply Hiff. simpl. lia.
  - destruct (isElevatedPermission_iff_rank 3 Examples.treeDb "bob" "leaf"
                DocumentPermission.Edit None) as (_ & Hrank & _).
    destruct (Hrank (Some DocumentPermission.Edit))
      as (elevated & Hel & Hiff & _).
    + vm_compute. reflexivity.
    + rewrite Hel. f_equal. destruct elevated; [|done].
      assert (Spec.rankOrNone (Some DocumentPermission.Edit)
              < DocumentPermissionPriority DocumentPermission.Edit)
        by (by apply Hiff).
      simpl in *. lia.
  - destruct (isElevatedPermission_iff_rank 3 Examples.treeDb "alice" "leaf"
                DocumentPermission.Read (Some "g3")) as (_ & Hrank & _).
    destruct (Hrank None) as (elevated & Hel & _ & Hnone).
    + vm_compute. reflexivity.
    + rewrite Hel. f_equal. by apply Hnone.
Defined.

(** C3 fails as stated: the only grant of [bob] on the document [A] is
    [gA], of level [Read], so that [Manage] ranks strictly above whatever
    [bob] holds on [A]; and [isElevatedPermission] returns nothing for
    [bob] on [A], for [Manage] as for every other level, however many
    iterations are followed: the parent chain of [A] is a cycle. *)
Lemma isElevatedPermission_cycle_never_returns :
  documents Examples.cyclicGrantDb !! "A" = Some (Examples.doc (Some "B"))
  ∧ users Examples.cyclicGrantDb !! "bob" = Some Examples.bob
  ∧ permissions Examples.cyclicGrantDb = [Examples.gA]
  ∧ Spec.rank (Permission.permission Examples.gA)
    < DocumentPermissionPriority DocumentPermission.Manage
  ∧ ¬ ∃ fuel permission elevated,
        isElevatedPermission fuel Examples.cyclicGrantDb "bob" "A" permission
          None = Some elevated.
Proof.
  split; [by vm_compute|]. split; [by vm_compute|]. split; [done|].
  split; [done|].
  intros (fuel & permission & elevated & Hel).
  rewrite (isElevatedPermission_revisits fuel Examples.cyclicGrantDb "bob"
             "A" permission None (Examples.doc (Some "B")) Examples.bob)
    in Hel;
    [done | by vm_compute | by vm_compute | reflexivity
    | exact cyclicDocuments_revisit].
Qed.

(** C4, as the code has it: for an existing user and document,
    [getDocumentPermission] with [skipMembershipId = k] returns whenever
    the parent chain ends within the iterations followed; its result is the
    effective level over the resolved grants whose id is not [k]; when
    every grant that gives the user access has the id [k], it returns no
    level and [isElevatedPermission] is true for [Read]; an id that no
    matching grant carries leaves the result as it is without skipping.  On
    a parent chain with a cycle neither function returns, whatever the id
    [k], however many iterations are followed. *)
Theorem getDocumentPermission_skip fuel db userId documentId document user
    k :
  documents db !! documentId = Some document →
  users db !! userId = Some user →
  (∀ n, sequelize db = true →
        Spec.chainEnds (documents db) documentId n → (n ≤ fuel)%nat →
        is_Some (getDocumentPermission fuel db userId documentId (Some k)))
  ∧ (∀ resolved,
      PermissionResolver.resolveForDocument fuel db (User.teamId user)
        documentId (Document.collectionId document) = Some resolved →
      ∃ result,
        getDocumentPermission fuel db userId documentId (Some k)
        = Some result
        ∧ Spec.effective (Spec.applies db userId (User.role user))
            (filter (λ r, ResolvedPermission.id r ≠ k) resolved) result
        ∧ ((∀ r, r ∈ resolved →
                 Spec.applies db userId (User.role user) r →
                 ResolvedPermission.id r = k) →
           result = None
           ∧ isElevatedPermission fuel db userId documentId
               DocumentPermission.Read (Some k) = Some true)
        ∧ ((∀ r, r ∈ resolved →
                 Spec.applies db userId (User.role user) r →
                 ResolvedPermission.id r ≠ k) →
           getDocumentPermission fuel db userId documentId None
           = Some result))
  ∧ (sequelize db = true →
     Spec.chainRevisits (documents db) documentId →
     getDocumentPermission fuel db userId documentId (Some k) = None
     ∧ isElevatedPermission fuel db userId documentId
         DocumentPermission.Read (Some k) = None).
Proof.
  intros Hdoc Huser. split.
  { intros n. apply getDocumentPermission_returns. }
  split.
  2: { intros Hseq Hrev. split.
       - by eapply getDocumentPermission_revisits.
       - by eapply isElevatedPermission_revisits. }
  intros resolved Hres.
  destruct (getDocumentPermission_effective fuel db userId documentId (Some k)
              document user resolved Hdoc Huser Hres) as (result & Hget & Heff).
  exists result. split; [done|].
  assert (Heff' : Spec.effective (Spec.applies db userId (User.role user))
            (filter (λ r, ResolvedPermission.id r ≠ k) resolved) result).
  { apply effective_filter. eapply effective_ext; [|exact Heff].
    intros r _. simpl. split; intros [? ?]; split; congruence. }
  split; [done|]. split.
  - intros Hsole.
    assert (result = None) as ->.
    { destruct result as [level|]; [|done].
      destruct Heff as [(r & Hr & [Happ Hskip] & _) _].
      destruct Hskip. f_equal. by apply Hsole. }
    split; [done|].
    unfold isElevatedPermission. by rewrite Hget.
  - intros Hother.
    destruct (getDocumentPermission_effective fuel db userId documentId None
                document user resolved Hdoc Huser Hres)
      as (result0 & Hget0 & Heff0).
    rewrite Hget0. f_equal.
    eapply effective_unique; [exact Heff0|].
    eapply effective_ext; [|exact Heff].
    intros r Hr. split.
    + intros [Happ Hskip]. split; [done|]. done.
    + intros [Happ _]. split; [done|]. intros [= Hk]. by apply (Hother r).
Qed.

Lemma getDocumentPermission_skip_witness :
  (getDocumentPermission 3 Examples.treeDb "carol" "leaf" (Some "g6")
   = Some None
   ∧ isElevatedPermission 3 Examples.treeDb "carol" "leaf"
       DocumentPermission.Read (Some "g6") = Some true)
  ∧ getDocumentPermission 3 Examples.treeDb "bob" "leaf" (Some "g1")
    = Some (Some DocumentPermission.Read).
Proof.
  destruct (PermissionResolver.resolveForDocument 3 Examples.treeDb "team"
              "leaf" (Some "col")) as [resolved|] eqn:E;
    [|by vm_compute in E].
  split.
  - destruct (getDocumentPermission_skip 3 Examples.treeDb "carol" "leaf"
                (Examples.doc (Some "mid")) Examples.carol "g6")
      as (_ & Hskip & _).
    + vm_compute. reflexivity.
    + vm_compute. reflexivity.
    + destruct (Hskip resolved E) as (result & Hget & _ & Hsole & _).
      destruct Hsole as [-> Hel]; [|by split].
      intros r Hr Happ. apply subjectFilter_spec in Happ.
      vm_compute in E. injection E as <-.
      repeat (apply elem_of_cons in Hr as [->|Hr]);
        try reflexivity; try (vm_compute in Happ; discriminate).
      by apply elem_of_nil in Hr.
  - destruct (getDocumentPermission_skip 3 Examples.treeDb "bob" "leaf"
                (Examples.doc (Some "mid")) Examples.bob "g1")
      as (_ & Hskip & _).
    + vm_compute. reflexivity.
    + vm_compute. reflexivity.
    + destruct (Hskip resolved E) as (result & Hget & _).
      vm_compute in Hget. injection Hget as <-. reflexivity.
Defined.

(** C4 fails as stated: [gA] is the one grant of the table, it is active,
    on exactly the document [A], and its subject is [bob], so it alone
    provides the access of [bob] to [A]; and with [skipMembershipId] the id
    of [gA], [getDocumentPermission] returns nothing for [bob] on [A], not
    even no level, nor does [isElevatedPermission] return for [Read],
    however many iterations are followed: the parent chain of [A] is a
    cycle. *)
Lemma getDocumentPermission_skip_cycle_never_returns :
  documents Examples.cyclicGrantDb !! "A" = Some (Examples.doc (Some "B"))
  ∧ users Examples.cyclicGrantDb !! "bob" = Some Examples.bob
  ∧ permissions Examples.cyclicGrantDb = [Examples.gA]
  ∧ Spec.activeOf "team" Examples.gA
  ∧ Spec.resource Examples.gA = Some (Spec.Document "A")
  ∧ Spec.applies Examples.cyclicGrantDb "bob" "viewer"
      (tagged (Examples.gA, direct))
  ∧ (¬ ∃ fuel result,
         getDocumentPermission fuel Examples.cyclicGrantDb "bob" "A"
           (Some (Permission.id Examples.gA)) = Some result)
  ∧ ¬ ∃ fuel elevated,
        isElevatedPermission fuel Examples.cyclicGrantDb "bob" "A"
          DocumentPermission.Read (Some (Permission.id Examples.gA))
        = Some elevated.
Proof.
  split; [by vm_compute|]. split; [by vm_compute|]. split; [done|].
  split; [done|]. split; [done|]. split; [done|]. split.
  - intros (fuel & result & Hget).
    rewrite (getDocumentPermission_revisits fuel Examples.cyclicGrantDb
               "bob" "A" (Some (Permission.id Examples.gA))
               (Examples.doc (Some "B")) Examples.bob) in Hget;
      [done | by vm_compute | by vm_compute | reflexivity
      | exact cyclicDocuments_revisit].
  - intros (fuel & elevated & Hel).
    rewrite (isElevatedPermission_revisits fuel Examples.cyclicGrantDb
               "bob" "A" DocumentPermission.Read
               (Some (Permission.id Examples.gA))
               (Examples.doc (Some "B")) Examples.bob) in Hel;
      [done | by vm_compute | by vm_compute | reflexivity
      | exact cyclicDocuments_revisit].
Qed.

(** C7: a [Role] grant matches a user exactly when its [subjectRole] is the
    role the user has when the check runs, in the matching helpers of both
    policies and in the subject filter of [getDocumentPermission]; after
    only the role of the user is changed, the grants and the resolved set
    are the same and [getDocumentPermission] returns the effective level
    for the new role. *)
Theorem role_grants_follow_current_role :
  (∀ grant user,
     Permission.subjectType grant = PermissionSubjectType.Role →
     DocumentPolicy.matchesSubject grant user
     = bool_decide (Permission.subjectRole grant = Some (User.role user))
     ∧ CollectionPolicy.matchesSubject grant user
       = bool_decide (Permission.subjectRole grant = Some (User.role user)))
  ∧ (∀ userId user groupIds r,
       ResolvedPermission.subjectType r = PermissionSubjectType.Role →
       subjectFilter userId user groupIds r
       = bool_decide (ResolvedPermission.subjectRole r
                      = Some (User.role user)))
  ∧ (∀ fuel db userId documentId skipMembershipId document user resolved
       role,
       documents db !! documentId = Some document →
       users db !! userId = Some user →
       PermissionResolver.resolveForDocument fuel db (User.teamId user)
         documentId (Document.collectionId document) = Some resolved →
       permissions (setRole db userId role) = permissions db
       ∧ PermissionResolver.resolveForDocument fuel (setRole db userId role)
           (User.teamId user) documentId (Document.collectionId document)
         = Some resolved
       ∧ ∃ result,
           getDocumentPermission fuel (setRole db userId role) userId
             documentId skipMembershipId = Some result
           ∧ Spec.effective
               (λ r, Spec.applies db userId role r
                     ∧ Some (ResolvedPermission.id r) ≠ skipMembershipId)
               resolved result).
Proof.
  split; [|split].
  - intros grant user Hrole.
    unfold DocumentPolicy.matchesSubject, CollectionPolicy.matchesSubject.
    rewrite Hrole. done.
  - intros userId user groupIds r Hrole. unfold subjectFilter.
    by rewrite Hrole.
  - intros fuel db userId documentId skip document user resolved role
      Hdoc Huser Hres.
    split; [done|]. split; [done|].
    apply (getDocumentPermission_effective fuel (setRole db userId role)
             userId documentId skip document
             (User.mk (User.id user) (User.teamId user) role) resolved).
    + done.
    + simpl. by rewrite lookup_alter_eq, Huser.
    + done.
Qed.

Lemma role_grants_follow_current_role_witness :
  getDocumentPermission 3 Examples.treeDb "alice" "leaf" None
  = Some (Some DocumentPermission.Manage)
  ∧ permissions (setRole Examples.treeDb "alice" "viewer")
    = permissions Examples.treeDb
  ∧ getDocumentPermission 3 (setRole Examples.treeDb "alice" "viewer")
      "alice" "leaf" None = Some None.
Proof.
  destruct (PermissionResolver.resolveForDocument 3 Examples.treeDb "team"
              "leaf" (Some "col")) as [resolved|] eqn:E;
    [|by vm_compute in E].
  destruct role_grants_follow_current_role as (_ & _ & Hrole).
  destruct (Hrole 3%nat Examples.treeDb "alice" "leaf" None
              (Examples.doc (Some "mid")) Examples.alice resolved "viewer")
    as (Hperm & _ & result & Hget & _).
  - vm_compute. reflexivity.
  - vm_compute. reflexivity.
  - exact E.
  - split; [vm_compute; reflexivity|]. split; [exact Hperm|].
    vm_compute in Hget. injection Hget as <-. vm_compute. reflexivity.
Defined.

(** ** The owner in the matching helpers *)

(** The helper of the document policy takes a group grant as matching
    without looking at memberships: [carol] is in no group. *)
Example includesPermission_group_grant :
  DocumentPolicy.includesPermission
    (Some (DocumentPolicy.mkDocument "leaf" "team" "alice"
             (Some [Examples.g2; Examples.g5; Examples.g3])))
    Examples.carol [DocumentPermission.Read]
  = GrantIds ["g5"].
Proof. vm_compute. reflexivity. Qed.

(** C8: for a collection whose [ownerId] is the id of the actor,
    [includesPermission] returns the marker [owner:<collection id>]
    whatever the grants of the collection and whatever levels are asked
    for; the ids are uuids, the key of [users] that the column [ownerId]
    references, and so not the empty string, which the test [ownerId &&]
    reads as no owner.  Collections are the resources that have an
    [ownerId]: a document has none, and the helper of the document policy
    returns grant ids exactly when a grant of the document matches the
    actor at one of the levels asked for. *)
Theorem includesPermission_owner :
  (∀ collection user permissions,
     CollectionPolicy.ownerId collection = Some (User.id user) →
     User.id user ≠ "" →
     CollectionPolicy.includesPermission (Some collection) user permissions
     = GrantIds ["owner:" +:+ CollectionPolicy.id collection])
  ∧ (∀ document user permissions,
       DocumentPolicy.includesPermission (Some document) user permissions
       = NoGrant
       ↔ ∀ grant,
           grant ∈ default [] (DocumentPolicy.permissionGrants document) →
           ¬ (DocumentPolicy.matchesSubject grant user = true
              ∧ DocumentPolicy.mapped grant ∈ permissions)).
Proof.
  split.
  - intros collection user permissions Howner Hid.
    unfold CollectionPolicy.includesPermission. rewrite Howner. simpl.
    rewrite bool_decide_eq_false_2 by done.
    by rewrite bool_decide_eq_true_2.
  - intros document user permissions.
    unfold DocumentPolicy.includesPermission.
    set (kept := filter _ _).
    assert (Hkept : ∀ grant, grant ∈ kept
              ↔ (DocumentPolicy.matchesSubject grant user = true
                 ∧ DocumentPolicy.mapped grant ∈ permissions)
                ∧ grant ∈ default [] (DocumentPolicy.permissionGrants
                                        document)).
    { intros grant. unfold kept. by rewrite list_elem_of_filter. }
    rewrite length_map. destruct kept as [|grant kept]; simpl.
    + split; [|done]. intros _ grant Hin Hm.
      apply (elem_of_nil grant), Hkept. done.
    + split; [done|]. intros Hnone.
      destruct (Hnone grant); apply Hkept; by left.
Qed.

Lemma includesPermission_owner_witness :
  CollectionPolicy.includesPermission
    (Some (CollectionPolicy.mkCollection "col" "team" (Some "alice") None))
    Examples.alice [] = GrantIds ["owner:col"].
Proof.
  destruct includesPermission_owner as [Howner _].
  apply (Howner
           (CollectionPolicy.mkCollection "col" "team" (Some "alice") None)
           Examples.alice []).
  - reflexivity.
  - discriminate.
Defined.

(** ** The unique index and the routes that write grants *)

Lemma filter_active_softDeleted where_ now table :
  filter active (softDeleted where_ now table)
  = filter (λ p, active p ∧ where_ p = false) table.
Proof.
  unfold softDeleted.
  induction table as [|p table IH]; [done|].
  simpl. rewrite !filter_cons, IH.
  destruct (where_ p) eqn:Hw; simpl.
  - case_bool_decide as Hact.
    + rewrite decide_False by (unfold active; simpl; done).
      rewrite decide_False by (intros [_ ?]; done). done.
    + rewrite decide_False by done.
      rewrite decide_False by (intros [? _]; done). done.
  - destruct (decide (active p)).
    + by rewrite decide_True.
    + rewrite decide_False by (intros [? _]; done). done.
Qed.

Lemma uniqueActive_softDeleted where_ now table :
  Spec.uniqueActive table → Spec.uniqueActive (softDeleted where_ now table).
Proof.
  unfold Spec.uniqueActive. rewrite filter_active_softDeleted.
  intros Hnd. eapply sublist_NoDup; [exact Hnd|].
  apply (fmap_sublist unique_active_key). clear Hnd.
  induction table as [|p table IH]; [done|].
  rewrite !filter_cons.
  destruct (decide (active p ∧ where_ p = false)) as [[Ha _]|Hn].
  - rewrite decide_True by done. by constructor.
  - destruct (decide (active p)); [by constructor|done].
Qed.

Lemma uniqueActive_insert row table :
  Spec.uniqueActive table →
  ¬ Exists (λ q, active q ∧ unique_active_key q = unique_active_key row)
      table →
  Spec.uniqueActive (table ++ [row]).
Proof.
  unfold Spec.uniqueActive. intros Hnd Hfree.
  rewrite filter_app, map_app.
  rewrite filter_cons, filter_nil.
  destruct (decide (active row)); simpl; [|by rewrite app_nil_r].
  apply NoDup_app. split; [done|]. split; [|apply NoDup_singleton].
  intros key Hkey Hrow. apply list_elem_of_singleton in Hrow as ->.
  apply list_elem_of_In, in_map_iff in Hkey as (q & Hq & Hin).
  apply list_elem_of_In, list_elem_of_filter in Hin as [Hact Hin].
  apply Hfree, Exists_exists. by exists q.
Qed.

Lemma Permission_create_uniqueActive row db :
  Spec.uniqueActive (permissions db) →
  match Permission_create row db with
  | inl _ => True
  | inr (_, db') => Spec.uniqueActive (permissions db')
  end.
Proof.
  intros Hnd. unfold Permission_create.
  case_bool_decide as Hex; [done|]. simpl. by apply uniqueActive_insert.
Qed.

Lemma replacesGrant_destroy_create where_ now row :
  active row →
  replacesGrant (Permission_destroy where_ now ;;; Permission_create row) now.
Proof.
  intros Hrow db Hnd. unfold bind, Permission_destroy, Permission_create.
  simpl. fold (softDeleted where_ now (permissions db)).
  case_bool_decide as Hex; [done|]. simpl.
  split; [by apply uniqueActive_insert, Hex; apply uniqueActive_softDeleted|].
  split; [done|]. exists where_. split; [done|].
  intros p Hp Hact Hkey.
  assert (Hw : where_ p = true).
  { destruct (where_ p) eqn:Hw; [done|]. destruct Hex.
    apply Exists_exists. exists p. split; [|done].
    unfold softDeleted. apply list_elem_of_In, in_map_iff.
    exists p. rewrite Hw. split; [done|]. by apply list_elem_of_In. }
  split; [done|].
  apply elem_of_app. left. unfold softDeleted.
  apply list_elem_of_In, in_map_iff. exists p.
  rewrite Hw, bool_decide_eq_true_2 by done. split; [done|].
  by apply list_elem_of_In.
Qed.

Lemma replacesGrant_throw e now : replacesGrant (throw e) now.
Proof. by intros db _. Qed.

Lemma replacesGrant_bind {A} (m : Handler A) (k : A → Handler Permission.t)
    now :
  readOnly m → (∀ a, replacesGrant (k a) now) → replacesGrant (bind m k) now.
Proof.
  intros Hm Hk db Hnd. unfold bind. specialize (Hm db).
  destruct (m db) as [e|[a db1]]; [done|]. subst db1. by apply Hk.
Qed.

Lemma readOnly_ret {A} (a : A) : readOnly (ret a).
Proof. by intros db. Qed.

Lemma readOnly_throw {A} e : readOnly (@throw A e).
Proof. by intros db. Qed.

Lemma readOnly_query {A} (q : Database → A) : readOnly (query q).
Proof. by intros db. Qed.

Lemma readOnly_rejectOnEmpty {A} (row : option A) :
  readOnly (rejectOnEmpty row).
Proof. destruct row; by intros db. Qed.

Lemma readOnly_authorize can actor action target :
  readOnly (authorize can actor action target).
Proof. intros db. unfold authorize. by destruct (can _ _ _ _). Qed.

Lemma readOnly_bind {A B} (m : Handler A) (k : A → Handler B) :
  readOnly m → (∀ a, readOnly (k a)) → readOnly (bind m k).
Proof.
  intros Hm Hk db. unfold bind. specialize (Hm db).
  destruct (m db) as [e|[a db1]]; [done|]. subst db1. apply Hk.
Qed.

Lemma bind_inr {A B} (m : Handler A) (k : A → Handler B) db b db' :
  bind m k db = inr (b, db') →
  ∃ a db1, m db = inr (a, db1) ∧ k a db1 = inr (b, db').
Proof.
  unfold bind. destruct (m db) as [e|[a db1]]; [done|]. by exists a, db1.
Qed.

Lemma Permission_create_inr row db r db' :
  Permission_create row db = inr (r, db') → r = row.
Proof.
  unfold Permission_create. case_bool_decide; [done|]. by intros [= <- _].
Qed.

Create HintDb handlers.

#[local] Hint Resolve readOnly_ret readOnly_throw readOnly_query
  readOnly_rejectOnEmpty readOnly_authorize : handlers.

Ltac step_handler :=
  first
    [ apply replacesGrant_destroy_create; reflexivity
    | apply replacesGrant_throw
    | apply replacesGrant_bind;
      [ repeat (apply readOnly_bind; [|intros ?]); auto with handlers
      | intros ? ] ].

Lemma softDeleted_cases where_ now table p :
  p ∈ table →
  p ∈ softDeleted where_ now table
  ∨ set_deletedAt (Some now) p ∈ softDeleted where_ now table.
Proof.
  intros Hp. unfold softDeleted.
  destruct (where_ p && bool_decide (active p)) eqn:E; [right|left];
    apply list_elem_of_In, in_map_iff; exists p; rewrite E;
    (split; [done|by apply list_elem_of_In]).
Qed.

Lemma softDeleted_keeps_deleted where_ now table q :
  q ∈ table → ¬ active q → q ∈ softDeleted where_ now table.
Proof.
  intros Hq Hdel. unfold softDeleted.
  apply list_elem_of_In, in_map_iff. exists q.
  rewrite bool_decide_eq_false_2, andb_false_r by done.
  split; [done|by apply list_elem_of_In].
Qed.

Lemma Permission_bulkCreate_spec rows :
  ∀ db,
    match Permission_bulkCreate rows db with
    | inl _ => True
    | inr (created, db') =>
        created = rows
        ∧ permissions db' = permissions db ++ rows
        ∧ (Spec.uniqueActive (permissions db) →
           Spec.uniqueActive (permissions db'))
        ∧ ∀ row, row ∈ rows →
            ¬ Exists (λ q, active q
                           ∧ unique_active_key q = unique_active_key row)
                (permissions db)
    end.
Proof.
  induction rows as [|row rows IH]; intros db; simpl.
  - rewrite app_nil_r. split; [done|]. split; [done|]. split; [done|].
    intros row Hrow. by apply elem_of_nil in Hrow.
  - unfold bind at 1. unfold Permission_create.
    case_bool_decide as Hfree; [done|].
    set (db1 := set_permissions (permissions db ++ [row]) db).
    unfold bind at 1. specialize (IH db1).
    destruct (Permission_bulkCreate rows db1) as [e|[created db']]; [done|].
    destruct IH as (-> & Hperm & Hnd & Hrows). simpl.
    split; [done|]. split.
    { rewrite Hperm. simpl. by rewrite <- app_assoc. }
    split.
    + intros Hu. apply Hnd. simpl. by apply uniqueActive_insert.
    + intros row' [->|Hrow']%elem_of_cons; [done|].
      intros Hex. apply (Hrows row' Hrow'). simpl.
      apply Exists_app. by left.
Qed.

Lemma replacesGrants_collections_update ctx uuids collectionId permission :
  replacesGrants (collections_update_grants ctx uuids collectionId permission)
    (now ctx).
Proof.
  intros db Hu. unfold collections_update_grants.
  set (w1 := whereRoleGrant _ "viewer" _).
  set (w2 := whereRoleGrant _ "editor" _).
  set (roleGrants := if bool_decide (permission = _) then _ else _).
  set (rows := map _ roleGrants).
  unfold bind at 1, Permission_destroy at 1.
  unfold bind at 1, Permission_destroy at 1. simpl.
  fold (softDeleted w1 (now ctx) (permissions db)).
  fold (softDeleted w2 (now ctx) (softDeleted w1 (now ctx) (permissions db))).
  set (table2 := softDeleted w2 _ (softDeleted w1 _ _)).
  set (db2 := set_permissions table2 _).
  assert (Hu2 : Spec.uniqueActive table2)
    by (by do 2 apply uniqueActive_softDeleted).
  assert (Hold : ∀ p, p ∈ permissions db →
            p ∈ table2 ∨ set_deletedAt (Some (now ctx)) p ∈ table2).
  { intros p Hp.
    destruct (softDeleted_cases w1 (now ctx) _ p Hp) as [H1|H1].
    - apply softDeleted_cases, H1.
    - right. by apply softDeleted_keeps_deleted. }
  case_bool_decide as Hnil.
  - simpl. split; [done|]. split; [done|]. split.
    + intros row Hrow. by apply elem_of_nil in Hrow.
    + intros p row _ _ Hrow. by apply elem_of_nil in Hrow.
  - pose proof (Permission_bulkCreate_spec rows db2) as Hbulk.
    destruct (Permission_bulkCreate rows db2) as [e|[created db']]; [done|].
    destruct Hbulk as (-> & Hperm & Hnd & Hfree). simpl in Hperm.
    split; [by apply Hnd|]. split; [|split].
    + unfold rows, roleGrants.
      repeat case_bool_decide; simpl; repeat constructor.
    + intros row Hrow. rewrite Hperm. apply elem_of_app. by right.
    + intros p row Hp Hact Hrow Hkey. rewrite Hperm.
      apply elem_of_app. left.
      destruct (Hold p Hp) as [Hkept|Hdel]; [|done].
      destruct (Hfree row Hrow). apply Exists_exists. by exists p.
Qed.

Example treeDb_add_user :
  match transaction
          (documents_add_user (λ _ _ _ _, true)
             (λ _, DocumentPermission.Read)
             (mkContext Examples.alice 9 "g7") "leaf" "carol" None)
          Examples.treeDb with
  | (inl _, _) => []
  | (inr _, db') =>
      map (λ p, (Permission.id p, Permission.deletedAt p)) (permissions db')
  end
  = [("g1", None); ("g2", None); ("g3", None); ("g4", Some 5);
     ("g5", None); ("g6", Some 9); ("g7", None)].
Proof. vm_compute. reflexivity. Qed.

Example treeDb_update_grants :
  match collections_update_grants (mkContext Examples.alice 9 "g7")
          ("g8", "g9") "col" (Some CollectionPermission.Edit)
          Examples.treeDb with
  | inl _ => []
  | inr (rows, _) =>
      map (λ p, (Permission.subjectRole p, Permission.permission p)) rows
  end
  = [(Some "viewer", PermissionLevel.Read);
     (Some "editor", PermissionLevel.Edit)].
Proof. vm_compute. reflexivity. Qed.

(** C10: [documents.add_user] called with the acting user's own id throws
    the validation error [You cannot invite yourself] before it reads or
    writes anything, and the database is the one before the request; a
    call that returns has created a grant for a user other than the
    actor. *)
Theorem documents_add_user_rejects_self
    can defaultDocumentPermission ctx id userId permission db :
  (userId = User.id (auth_user ctx) →
   documents_add_user can defaultDocumentPermission ctx id userId permission
     db = inl (ValidationError "You cannot invite yourself")
   ∧ transaction
       (documents_add_user can defaultDocumentPermission ctx id userId
          permission) db
     = (inl (ValidationError "You cannot invite yourself"), db))
  ∧ (∀ row db',
       transaction
         (documents_add_user can defaultDocumentPermission ctx id userId
            permission) db = (inr row, db') →
       userId ≠ User.id (auth_user ctx)
       ∧ Permission.subjectType row = PermissionSubjectType.User
       ∧ Permission.subjectId row = Some userId).
Proof.
  split.
  - intros Hself. unfold transaction, documents_add_user.
    by rewrite bool_decide_eq_true_2.
  - intros row db'. unfold transaction.
    destruct (documents_add_user _ _ _ _ _ _ db) as [e|[row' db1]] eqn:E;
      [done|].
    intros [= -> ->]. unfold documents_add_user in E.
    case_bool_decide as Hself; [done|]. split; [done|].
    repeat (apply bind_inr in E as (? & ? & _ & E)).
    apply Permission_create_inr in E as ->. done.
Qed.

Lemma documents_add_user_rejects_self_witness :
  transaction
    (documents_add_user (λ _ _ _ _, true) (λ _, DocumentPermission.Read)
       (mkContext Examples.alice 9 "g7") "leaf" "alice"
       (Some DocumentPermission.Manage))
    Examples.treeDb
  = (inl (ValidationError "You cannot invite yourself"), Examples.treeDb).
Proof.
  apply (documents_add_user_rejects_self (λ _ _ _ _, true)
           (λ _, DocumentPermission.Read) (mkContext Examples.alice 9 "g7")
           "leaf" "alice" (Some DocumentPermission.Manage) Examples.treeDb).
  reflexivity.
Defined.

(** * Further properties of the code *)

(** ** What the handlers do when they return *)

Lemma query_inr {A} (q : Database → A) db a db' :
  query q db = inr (a, db') → a = q db ∧ db' = db.
Proof. unfold query. by intros [= <- <-]. Qed.

Lemma rejectOnEmpty_inr {A} (row : option A) db a db' :
  rejectOnEmpty row db = inr (a, db') → row = Some a ∧ db' = db.
Proof. destruct row; [|done]. unfold ret. by intros [= <- <-]. Qed.

Lemma ret_inr {A} (x : A) db a db' :
  ret x db = inr (a, db') → a = x ∧ db' = db.
Proof. unfold ret. by intros [= <- <-]. Qed.

Lemma authorize_inr can actor action target db u db' :
  authorize can actor action target db = inr (u, db') →
  can db actor action target = true ∧ db' = db.
Proof.
  unfold authorize. destruct (can db actor action target); [|done].
  by intros [= <- <-].
Qed.

Lemma Permission_destroy_inr where_ now db u db' :
  Permission_destroy where_ now db = inr (u, db') →
  db' = set_permissions (softDeleted where_ now (permissions db)) db.
Proof. unfold Permission_destroy. by intros [= <- <-]. Qed.

Lemma Permission_create_inr_full row db r db' :
  Permission_create row db = inr (r, db') →
  r = row
  ∧ db' = set_permissions (permissions db ++ [row]) db
  ∧ ¬ Exists (λ q, active q ∧ unique_active_key q = unique_active_key row)
        (permissions db).
Proof.
  unfold Permission_create. case_bool_decide as Hfree; [done|].
  by intros [= <- <-].
Qed.

Lemma Permission_create_inl row db e :
  Permission_create row db = inl e →
  e = UniqueConstraintError
  ∧ Exists (λ q, active q ∧ unique_active_key q = unique_active_key row)
      (permissions db).
Proof.
  unfold Permission_create. case_bool_decide as Hfree; [|done].
  by intros [= <-].
Qed.

Lemma bind_inl {A B} (m : Handler A) (k : A → Handler B) db e :
  bind m k db = inl e →
  m db = inl e ∨ ∃ a db1, m db = inr (a, db1) ∧ k a db1 = inl e.
Proof.
  unfold bind. destruct (m db) as [e'|[a db1]]; [left; congruence|].
  right. by exists a, db1.
Qed.

(** Inversion of a handler that has returned. *)
Ltac handler_inv :=
  repeat match goal with
    | H : bind _ _ _ = inr _ |- _ =>
        let a := fresh "a" in let db1 := fresh "db1" in
        let H1 := fresh "H" in
        apply bind_inr in H as (a & db1 & H1 & H); cbv beta in H
    | H : query _ _ = inr _ |- _ => apply query_inr in H as [? ?]; subst
    | H : rejectOnEmpty _ _ = inr _ |- _ =>
        apply rejectOnEmpty_inr in H as [? ?]; subst
    | H : ret _ _ = inr _ |- _ => apply ret_inr in H as [? ?]; subst
    | H : authorize _ _ _ _ _ = inr _ |- _ =>
        apply authorize_inr in H as [? ?]; subst
    | H : Permission_destroy _ _ _ = inr _ |- _ =>
        apply Permission_destroy_inr in H; subst
    | H : Permission_create _ _ = inr _ |- _ =>
        apply Permission_create_inr_full in H as (? & ? & ?); subst
    end.

Lemma documents_add_user_inr can defaultDocumentPermission ctx id userId
    permission db row db' :
  documents_add_user can defaultDocumentPermission ctx id userId permission db
  = inr (row, db') →
  ∃ document user,
    userId ≠ User.id (auth_user ctx)
    ∧ documents db !! id = Some document
    ∧ users db !! userId = Some user
    ∧ can db (auth_user ctx) "manageUsers" (TargetDocument id (Some document))
      = true
    ∧ can db (auth_user ctx) "read" (TargetUser (Some user)) = true
    ∧ row = newGrant ctx (User.teamId (auth_user ctx))
              PermissionSubjectType.User userId
              PermissionResourceType.Document id
              (documentPermissionToLevel
                 (default (defaultDocumentPermission user) permission))
              PermissionInheritMode.Self (User.id (auth_user ctx))
    ∧ db' = set_permissions
              (softDeleted
                 (whereGrant (User.teamId (auth_user ctx))
                    PermissionSubjectType.User userId
                    PermissionResourceType.Document id)
                 (now ctx) (permissions db) ++ [row])
              db.
Proof.
  unfold documents_add_user. case_bool_decide as Hself; [done|].
  intros H. handler_inv. eexists _, _. repeat split; try eassumption.
  all: try done.
Qed.

(** ** Levels and their two vocabularies *)

(** X1. The conversions between [PermissionLevel] and the document and
    collection vocabularies are inverse to each other and keep the rank;
    a missing collection permission is stored as [Read]. *)
Theorem level_conversions_round_trip :
  (∀ level,
     documentPermissionToLevel (levelToDocumentPermission level) = level
     ∧ collectionPermissionToLevel (Some (levelToCollectionPermission level))
       = level
     ∧ DocumentPermissionPriority (levelToDocumentPermission level)
       = Spec.rank level
     ∧ CollectionPermissionPriority (levelToCollectionPermission level)
       = Spec.rank level)
  ∧ (∀ permission,
       levelToDocumentPermission (documentPermissionToLevel permission)
       = permission)
  ∧ (∀ permission,
       levelToCollectionPermission
         (collectionPermissionToLevel (Some permission)) = permission)
  ∧ collectionPermissionToLevel None = PermissionLevel.Read.
Proof.
  split; [|split; [|split]].
  - by intros [].
  - by intros [].
  - by intros [].
  - done.
Qed.

(** ** The CHECK constraints and the unique index *)

Lemma subject_consistency_check_spec p :
  subject_consistency_check p = true
  ↔ (Permission.subjectType p = PermissionSubjectType.Role
     ∧ Permission.subjectRole p ≠ None ∧ Permission.subjectId p = None)
    ∨ ((Permission.subjectType p = PermissionSubjectType.User
        ∨ Permission.subjectType p = PermissionSubjectType.Group)
       ∧ Permission.subjectId p ≠ None ∧ Permission.subjectRole p = None).
Proof.
  unfold subject_consistency_check.
  rewrite orb_true_iff, !andb_true_iff, !bool_decide_eq_true. tauto.
Qed.

Lemma resource_consistency_check_spec p :
  resource_consistency_check p = true
  ↔ (Permission.resourceType p = PermissionResourceType.Workspace
     ∧ Permission.resourceId p = None)
    ∨ ((Permission.resourceType p = PermissionResourceType.Collection
        ∨ Permission.resourceType p = PermissionResourceType.Document)
       ∧ Permission.resourceId p ≠ None).
Proof.
  unfold resource_consistency_check.
  rewrite orb_true_iff, !andb_true_iff, !bool_decide_eq_true. tauto.
Qed.

Lemma default_eq_inv {A} (d : A) (x y : option A) :
  (x = None ↔ y = None) → default d x = default d y → x = y.
Proof. destruct x, y; simpl; [congruence|intuition congruence..|done]. Qed.

Lemma checked_key_grantTuple p q :
  checked p → checked q →
  unique_active_key p = unique_active_key q → grantTuple p = grantTuple q.
Proof.
  intros [Hsp Hrp] [Hsq Hrq].
  apply subject_consistency_check_spec in Hsp, Hsq.
  apply resource_consistency_check_spec in Hrp, Hrq.
  unfold unique_active_key, grantTuple.
  intros [= Ht Hst Hsi Hsr Hrt Hri Him].
  assert (Permission.subjectId p = Permission.subjectId q) as ->.
  { apply (default_eq_inv ZERO_UUID); [|done].
    destruct Hsp as [(? & ? & ?)|([?|?] & ? & ?)],
      Hsq as [(? & ? & ?)|([?|?] & ? & ?)]; intuition congruence. }
  assert (Permission.subjectRole p = Permission.subjectRole q) as ->.
  { apply (default_eq_inv ""); [|done].
    destruct Hsp as [(? & ? & ?)|([?|?] & ? & ?)],
      Hsq as [(? & ? & ?)|([?|?] & ? & ?)]; intuition congruence. }
  assert (Permission.resourceId p = Permission.resourceId q) as ->.
  { apply (default_eq_inv ZERO_UUID); [|done].
    destruct Hrp as [(? & ?)|([?|?] & ?)],
      Hrq as [(? & ?)|([?|?] & ?)]; intuition congruence. }
  by rewrite Ht, Hst, Hrt, Him.
Qed.

(** X2. Among rows that pass the CHECK constraints the expressions of
    the unique index, with their [COALESCE] of null ids and roles, are equal
    exactly when the stored team, subject, resource and inherit mode are;
    and every such row has a resource in the sense of the data model. *)
Theorem check_constraints_identify_grants p q :
  checked p → checked q →
  (unique_active_key p = unique_active_key q ↔ grantTuple p = grantTuple q)
  ∧ is_Some (Spec.resource p).
Proof.
  intros Hp Hq. split.
  - split; [by apply checked_key_grantTuple|].
    unfold unique_active_key, grantTuple. by intros [= -> -> -> -> -> -> ->].
  - destruct Hp as [_ Hrp].
    apply resource_consistency_check_spec in Hrp.
    unfold Spec.resource.
    destruct Hrp as [(Ht & Hi)|([Ht|Ht] & Hi)]; rewrite Ht.
    + rewrite Hi. by eexists.
    + destruct (Permission.resourceId p); [by eexists|done].
    + destruct (Permission.resourceId p); [by eexists|done].
Qed.

Lemma check_constraints_identify_grants_witness :
  (unique_active_key Examples.g2 = unique_active_key Examples.g6
   ↔ grantTuple Examples.g2 = grantTuple Examples.g6)
  ∧ is_Some (Spec.resource Examples.g2).
Proof.
  apply (check_constraints_identify_grants Examples.g2 Examples.g6);
    split; reflexivity.
Defined.

(** ** The history of grants *)

Lemma set_permissions_id db : db = set_permissions (permissions db) db.
Proof. by destruct db. Qed.

Lemma keptRow_refl now p : keptRow now p p.
Proof. by left. Qed.

Lemma keptRow_trans now p p1 p2 :
  keptRow now p p1 → keptRow now p1 p2 → keptRow now p p2.
Proof.
  intros [->|[Ha ->]] [->|[Ha' ->]].
  - by left.
  - by right.
  - by right.
  - unfold active in Ha'. simpl in Ha'. done.
Qed.

Lemma keptRow_checked now p p' : keptRow now p p' → checked p → checked p'.
Proof. by intros [->|[_ ->]]. Qed.

Lemma Forall2_keptRow_refl now table : Forall2 (keptRow now) table table.
Proof. induction table; constructor; [by left|done]. Qed.

Lemma historyKept_refl now db : historyKept now db db.
Proof.
  split; [apply set_permissions_id|].
  exists (permissions db), []. rewrite app_nil_r. split; [done|].
  apply Forall2_keptRow_refl.
Qed.

Lemma historyKept_trans now db db1 db2 :
  historyKept now db db1 → historyKept now db1 db2 → historyKept now db db2.
Proof.
  intros [Hf1 (old1 & add1 & Hp1 & H1)] [Hf2 (old2 & add2 & Hp2 & H2)].
  split.
  - clear -Hf1 Hf2. destruct db, db1, db2. unfold set_permissions in *.
    simpl in *. congruence.
  - rewrite Hp1 in H2.
    apply Forall2_app_inv_l in H2 as (o21 & o22 & H21 & H22 & ->).
    exists o21, (o22 ++ add2). split; [by rewrite Hp2, app_assoc|].
    assert (Transitive (keptRow now))
      by (intros x y z; apply keptRow_trans).
    by trans old1.
Qed.

Lemma Forall2_keptRow_softDeleted where_ now table :
  Forall2 (keptRow now) table (softDeleted where_ now table).
Proof.
  unfold softDeleted. induction table as [|p table IH]; simpl; [done|].
  constructor; [|done].
  destruct (where_ p); simpl; [|by left].
  case_bool_decide; [by right|by left].
Qed.

Lemma Forall2_keptRow_checked now table old :
  Forall2 (keptRow now) table old → Forall checked table → Forall checked old.
Proof.
  induction 1 as [|p p' table old Hk _ IH]; [done|].
  intros [Hp Ht]%Forall_cons. constructor; [by eapply keptRow_checked|auto].
Qed.

Lemma keepsHistory_readOnly {A} now (m : Handler A) :
  readOnly m → keepsHistory now m.
Proof.
  intros Hm db a db' H. specialize (Hm db). rewrite H in Hm. subst db'.
  split; [apply historyKept_refl|done].
Qed.

Lemma keepsHistory_bind {A B} now (m : Handler A) (k : A → Handler B) :
  keepsHistory now m → (∀ a, keepsHistory now (k a)) →
  keepsHistory now (bind m k).
Proof.
  intros Hm Hk db b db' H.
  apply bind_inr in H as (a & db1 & H1 & H2).
  destruct (Hm db a db1 H1) as [Hh1 Hc1].
  destruct (Hk a db1 b db' H2) as [Hh2 Hc2].
  split; [by eapply historyKept_trans|auto].
Qed.

Lemma keepsHistory_destroy where_ now :
  keepsHistory now (Permission_destroy where_ now).
Proof.
  intros db u db' H. apply Permission_destroy_inr in H as ->. split.
  - split; [done|]. simpl.
    exists (softDeleted where_ now (permissions db)), [].
    rewrite app_nil_r. split; [done|]. apply Forall2_keptRow_softDeleted.
  - simpl. apply (Forall2_keptRow_checked now), Forall2_keptRow_softDeleted.
Qed.

Lemma keepsHistory_create now row :
  checked row → keepsHistory now (Permission_create row).
Proof.
  intros Hrow db r db' H.
  apply Permission_create_inr_full in H as (-> & -> & _). split.
  - split; [done|]. simpl. exists (permissions db), [row].
    split; [done|]. apply Forall2_keptRow_refl.
  - simpl. intros Hc. apply Forall_app. split; [done|]. by constructor.
Qed.

Lemma keepsHistory_bulkCreate now rows :
  Forall checked rows → keepsHistory now (Permission_bulkCreate rows).
Proof.
  induction rows as [|row rows IH]; intros Hrows; simpl.
  - apply keepsHistory_readOnly, readOnly_ret.
  - apply Forall_cons in Hrows as [Hrow Hrows].
    apply keepsHistory_bind; [by apply keepsHistory_create|]. intros r.
    apply keepsHistory_bind; [by apply IH|]. intros rs.
    apply keepsHistory_readOnly, readOnly_ret.
Qed.

Lemma checked_newGrant ctx teamId subjectType subjectId resourceType
    resourceId permission inheritMode grantedById :
  subjectType ≠ PermissionSubjectType.Role →
  resourceType ≠ PermissionResourceType.Workspace →
  checked (newGrant ctx teamId subjectType subjectId resourceType resourceId
             permission inheritMode grantedById).
Proof.
  intros Hs Hr. split.
  - apply subject_consistency_check_spec. right. simpl.
    split; [by destruct subjectType; auto|done].
  - apply resource_consistency_check_spec. right. simpl.
    split; [by destruct resourceType; auto|done].
Qed.

Ltac step_history :=
  first
    [ apply keepsHistory_create; apply checked_newGrant; discriminate
    | apply keepsHistory_destroy
    | apply keepsHistory_readOnly;
      repeat (apply readOnly_bind; [|intros ?]); auto with handlers; fail
    | apply keepsHistory_bind; [|intros ?] ].

(** X3. The five handlers that write grants touch no table but
    [permissions];
    every row they find stays in its place with everything but [deletedAt]
    as it was, and [deletedAt] changes only from null to the time of the
    request; what they insert is appended; and when every row passed the
    CHECK constraints of the table before, every row passes them after. *)
Theorem grant_routes_keep_history
    can defaultDocumentPermission defaultCollectionPermission ctx uuids id
    subjectId documentPermission collectionPermission :
  keepsHistory (now ctx)
    (documents_add_user can defaultDocumentPermission ctx id subjectId
       documentPermission)
  ∧ keepsHistory (now ctx)
      (documents_add_group can defaultDocumentPermission ctx id subjectId
         documentPermission)
  ∧ keepsHistory (now ctx)
      (collections_add_user can defaultCollectionPermission ctx id subjectId
         collectionPermission)
  ∧ keepsHistory (now ctx)
      (collections_add_group can ctx id subjectId collectionPermission)
  ∧ keepsHistory (now ctx)
      (collections_update_grants ctx uuids id collectionPermission).
Proof.
  split; [|split; [|split; [|split]]].
  - unfold documents_add_user. case_bool_decide.
    + apply keepsHistory_readOnly, readOnly_throw.
    + repeat step_history.
  - unfold documents_add_group. repeat step_history.
  - unfold collections_add_user. repeat step_history.
    apply keepsHistory_readOnly.
    repeat match goal with
           | |- readOnly (match ?x with _ => _ end) => destruct x
           end; auto with handlers.
  - unfold collections_add_group. repeat step_history.
  - unfold collections_update_grants. repeat step_history.
    case_bool_decide.
    + apply keepsHistory_readOnly, readOnly_ret.
    + apply keepsHistory_bulkCreate.
      repeat case_bool_decide; simpl; repeat constructor.
Qed.

Lemma grant_routes_keep_history_witness :
  ∃ row db',
    documents_add_user (λ _ _ _ _, true) (λ _, DocumentPermission.Read)
      (mkContext Examples.alice 9 "g7") "leaf" "carol" None Examples.treeDb
    = inr (row, db')
    ∧ historyKept 9 Examples.treeDb db'
    ∧ Forall checked (permissions db').
Proof.
  destruct (documents_add_user (λ _ _ _ _, true)
              (λ _, DocumentPermission.Read)
              (mkContext Examples.alice 9 "g7") "leaf" "carol" None
              Examples.treeDb) as [e|[row db']] eqn:E;
    [by vm_compute in E|].
  exists row, db'. split; [done|].
  destruct (grant_routes_keep_history (λ _ _ _ _, true)
              (λ _, DocumentPermission.Read) (λ _, CollectionPermission.Read)
              (mkContext Examples.alice 9 "g7") ("g8", "g9") "leaf" "carol"
              None None) as (Hadd & _).
  destruct (Hadd Examples.treeDb row db' E) as [Hkept Hchecked].
  split; [exact Hkept|]. apply Hchecked.
  repeat constructor.
Defined.

(** ** The unique index is never hit by the routes *)

Lemma softDeleted_active_inv where_ now table q :
  q ∈ softDeleted where_ now table → active q →
  q ∈ table ∧ where_ q = false.
Proof.
  unfold softDeleted. intros Hq Hact.
  apply list_elem_of_In, in_map_iff in Hq as (p & Hp & Hin).
  apply list_elem_of_In in Hin.
  destruct (where_ p) eqn:Hw; simpl in Hp.
  - case_bool_decide as Hap.
    + subst q. unfold active in Hact. simpl in Hact. done.
    + subst q. done.
  - by subst q.
Qed.

Lemma whereGrant_of_key ctx teamId subjectType subjectId resourceType
    resourceId permission inheritMode grantedById q :
  subjectType ≠ PermissionSubjectType.Role →
  resourceType ≠ PermissionResourceType.Workspace →
  checked q →
  unique_active_key q
  = unique_active_key
      (newGrant ctx teamId subjectType subjectId resourceType resourceId
         permission inheritMode grantedById) →
  whereGrant teamId subjectType subjectId resourceType resourceId q = true.
Proof.
  intros Hs Hr [Hsq Hrq]. unfold unique_active_key. simpl.
  intros [= Ht Hst Hsi _ Hrt Hri _].
  apply subject_consistency_check_spec in Hsq.
  apply resource_consistency_check_spec in Hrq.
  unfold whereGrant. rewrite !andb_true_iff, !bool_decide_eq_true.
  repeat split; try done.
  - destruct Hsq as [(? & _)|(_ & Hne & _)]; [congruence|].
    destruct (Permission.subjectId q); [simpl in Hsi; congruence|done].
  - destruct Hrq as [(? & _)|(_ & Hne)]; [congruence|].
    destruct (Permission.resourceId q); [simpl in Hri; congruence|done].
Qed.

Lemma neverConflicts_destroy_create where_ now row :
  (∀ q, checked q → unique_active_key q = unique_active_key row →
        where_ q = true) →
  neverConflicts (Permission_destroy where_ now ;;; Permission_create row).
Proof.
  intros Hw db Hc H. unfold bind, Permission_destroy in H.
  apply Permission_create_inl in H as [_ Hex]. simpl in Hex.
  apply Exists_exists in Hex as (q & Hq & Hact & Hkey).
  fold (softDeleted where_ now (permissions db)) in Hq.
  apply softDeleted_active_inv in Hq as [Hin Hfalse]; [|done].
  rewrite Forall_forall in Hc. rewrite Hw in Hfalse; [done|by apply Hc|done].
Qed.

Lemma neverConflicts_bind {A B} (m : Handler A) (k : A → Handler B) :
  readOnly m → (∀ db, m db ≠ inl UniqueConstraintError) →
  (∀ a, neverConflicts (k a)) → neverConflicts (bind m k).
Proof.
  intros Hro Hm Hk db Hc H. apply bind_inl in H as [H|(a & db1 & H1 & H2)].
  - by apply (Hm db).
  - specialize (Hro db). rewrite H1 in Hro. subst db1. by apply (Hk a db).
Qed.

Lemma query_not_inl {A} (q : Database → A) db e : query q db ≠ inl e.
Proof. done. Qed.

Lemma rejectOnEmpty_not_unique {A} (row : option A) db :
  rejectOnEmpty row db ≠ inl UniqueConstraintError.
Proof. by destruct row. Qed.

Lemma authorize_not_unique can actor action target db :
  authorize can actor action target db ≠ inl UniqueConstraintError.
Proof. unfold authorize. by destruct (can _ _ _ _). Qed.

Lemma bind_not_unique {A B} (m : Handler A) (k : A → Handler B) db :
  m db ≠ inl UniqueConstraintError →
  (∀ a db1, k a db1 ≠ inl UniqueConstraintError) →
  bind m k db ≠ inl UniqueConstraintError.
Proof.
  intros Hm Hk [H|(a & db1 & _ & H)]%bind_inl; [done|]. by apply (Hk a db1).
Qed.

Ltac step_conflicts :=
  first
    [ apply neverConflicts_destroy_create; intros ? ? ?;
      eapply whereGrant_of_key; [| |eassumption|eassumption]; discriminate
    | apply neverConflicts_bind;
      [ repeat (apply readOnly_bind; [|intros ?]); auto with handlers; fail
      | intros ?;
        repeat (apply bind_not_unique; [|intros ? ?]);
        first [ apply query_not_inl | apply rejectOnEmpty_not_unique
              | apply authorize_not_unique ]
      | intros ? ] ].

Lemma neverConflicts_update_grants ctx uuids collectionId permission :
  neverConflicts (collections_update_grants ctx uuids collectionId permission).
Proof.
  intros db Hc. unfold collections_update_grants.
  set (w1 := whereRoleGrant _ "viewer" _).
  set (w2 := whereRoleGrant _ "editor" _).
  unfold bind at 1, Permission_destroy at 1.
  unfold bind at 1, Permission_destroy at 1. simpl.
  fold (softDeleted w1 (now ctx) (permissions db)).
  fold (softDeleted w2 (now ctx) (softDeleted w1 (now ctx) (permissions db))).
  set (table2 := softDeleted w2 _ (softDeleted w1 _ _)).
  assert (Hfree : ∀ role level uuid q,
            role = "viewer" ∨ role = "editor" →
            q ∈ table2 → active q →
            unique_active_key q
            ≠ unique_active_key
                {| Permission.id := uuid;
                   Permission.teamId := User.teamId (auth_user ctx);
                   Permission.subjectType := PermissionSubjectType.Role;
                   Permission.subjectId := None;
                   Permission.subjectRole := Some role;
                   Permission.resourceType :=
                     PermissionResourceType.Collection;
                   Permission.resourceId := Some collectionId;
                   Permission.permission := level;
                   Permission.inheritMode := PermissionInheritMode.Children;
                   Permission.grantedById := User.id (auth_user ctx);
                   Permission.createdAt := now ctx;
                   Permission.deletedAt := None |}).
  { intros role level uuid q Hrole Hq Hact.
    apply softDeleted_active_inv in Hq as [Hq H2]; [|done].
    apply softDeleted_active_inv in Hq as [Hq H1]; [|done].
    rewrite Forall_forall in Hc. destruct (Hc q Hq) as [Hsq Hrq].
    apply subject_consistency_check_spec in Hsq.
    apply resource_consistency_check_spec in Hrq.
    unfold unique_active_key. simpl. intros [= Ht Hst _ Hsr Hrt Hri _].
    assert (Permission.subjectRole q = Some role).
    { destruct Hsq as [(_ & Hne & _)|([?|?] & _)]; [|congruence..].
      destruct (Permission.subjectRole q); [simpl in Hsr; congruence|done]. }
    assert (Permission.resourceId q = Some collectionId).
    { destruct Hrq as [(? & _)|(_ & Hne)]; [congruence|].
      destruct (Permission.resourceId q); [simpl in Hri; congruence|done]. }
    assert (whereRoleGrant (User.teamId (auth_user ctx)) role collectionId q
            = true) as Hw.
    { unfold whereRoleGrant.
      rewrite !andb_true_iff, !bool_decide_eq_true. done. }
    unfold w1 in H1. unfold w2 in H2.
    destruct Hrole as [Hrole|Hrole]; rewrite Hrole in Hw; congruence. }
  repeat case_bool_decide; simpl; try done.
  - unfold bind at 1, Permission_create at 1.
    case_bool_decide as Hex1.
    { apply Exists_exists in Hex1 as (q & Hq & Hact & Hkey). simpl in Hq.
      destruct (Hfree "viewer" PermissionLevel.Read uuids.1 q); auto. }
    unfold bind at 1. unfold bind at 1, Permission_create at 1.
    case_bool_decide as Hex2; [|done].
    apply Exists_exists in Hex2 as (q & Hq & Hact & Hkey). simpl in Hq.
    apply elem_of_app in Hq as [Hq|Hq%list_elem_of_singleton].
    + destruct (Hfree "editor" PermissionLevel.Read uuids.2 q); auto.
    + subst q. done.
  - unfold bind at 1, Permission_create at 1.
    case_bool_decide as Hex1.
    { apply Exists_exists in Hex1 as (q & Hq & Hact & Hkey). simpl in Hq.
      destruct (Hfree "viewer" PermissionLevel.Read uuids.1 q); auto. }
    unfold bind at 1. unfold bind at 1, Permission_create at 1.
    case_bool_decide as Hex2; [|done].
    apply Exists_exists in Hex2 as (q & Hq & Hact & Hkey). simpl in Hq.
    apply elem_of_app in Hq as [Hq|Hq%list_elem_of_singleton].
    + destruct (Hfree "editor" PermissionLevel.Edit uuids.2 q); auto.
    + subst q. done.
Qed.

(** X4. In a table whose rows pass the CHECK constraints none of the
    five handlers that write grants fails on the unique index: the soft delete
    that precedes each insert has removed every active grant of the tuple
    that is inserted. *)
Theorem grant_routes_never_hit_unique_index
    can defaultDocumentPermission defaultCollectionPermission ctx uuids id
    subjectId documentPermission collectionPermission db :
  Forall checked (permissions db) →
  documents_add_user can defaultDocumentPermission ctx id subjectId
    documentPermission db ≠ inl UniqueConstraintError
  ∧ documents_add_group can defaultDocumentPermission ctx id subjectId
      documentPermission db ≠ inl UniqueConstraintError
  ∧ collections_add_user can defaultCollectionPermission ctx id subjectId
      collectionPermission db ≠ inl UniqueConstraintError
  ∧ collections_add_group can ctx id subjectId collectionPermission db
    ≠ inl UniqueConstraintError
  ∧ collections_update_grants ctx uuids id collectionPermission db
    ≠ inl UniqueConstraintError.
Proof.
  intros Hc. split; [|split; [|split; [|split]]].
  - unfold documents_add_user. case_bool_decide; [done|].
    revert db Hc. fold (@neverConflicts Permission.t).
    change (neverConflicts
      (document <- bind (query (λ db, documents db !! id)) rejectOnEmpty ;;
       user <- bind (query (λ db, users db !! subjectId)) rejectOnEmpty ;;
       authorize can (auth_user ctx) "manageUsers"
         (TargetDocument id (Some document)) ;;;
       authorize can (auth_user ctx) "read" (TargetUser (Some user)) ;;;
       Permission_destroy
         (whereGrant (User.teamId (auth_user ctx)) PermissionSubjectType.User
            subjectId PermissionResourceType.Document id) (now ctx) ;;;
       Permission_create
         (newGrant ctx (User.teamId (auth_user ctx))
            PermissionSubjectType.User subjectId
            PermissionResourceType.Document id
            (documentPermissionToLevel
               (default (defaultDocumentPermission user) documentPermission))
            PermissionInheritMode.Self (User.id (auth_user ctx))))).
    repeat step_conflicts.
  - revert db Hc.
    change (neverConflicts
              (documents_add_group can defaultDocumentPermission ctx id
                 subjectId documentPermission)).
    unfold documents_add_group. repeat step_conflicts.
  - revert db Hc.
    change (neverConflicts
              (collections_add_user can defaultCollectionPermission ctx id
                 subjectId collectionPermission)).
    unfold collections_add_user. repeat step_conflicts.
    apply neverConflicts_bind.
    + repeat match goal with
             | |- readOnly (match ?x with _ => _ end) => destruct x
             end; auto with handlers.
    + intros db.
      repeat match goal with
             | |- (match ?x with _ => _ end) _ ≠ _ => destruct x
             end; done.
    + intros ?. repeat step_conflicts.
  - revert db Hc.
    change (neverConflicts
              (collections_add_group can ctx id subjectId
                 collectionPermission)).
    unfold collections_add_group. repeat step_conflicts.
  - by apply neverConflicts_update_grants.
Qed.

Lemma grant_routes_never_hit_unique_index_witness :
  documents_add_user (λ _ _ _ _, true) (λ _, DocumentPermission.Read)
    (mkContext Examples.alice 9 "g7") "leaf" "carol" None Examples.treeDb
  ≠ inl UniqueConstraintError
  ∧ collections_update_grants (mkContext Examples.alice 9 "g7")
      ("g8", "g9") "col" (Some CollectionPermission.Edit) Examples.treeDb
    ≠ inl UniqueConstraintError.
Proof.
  destruct (grant_routes_never_hit_unique_index (λ _ _ _ _, true)
              (λ _, DocumentPermission.Read) (λ _, CollectionPermission.Read)
              (mkContext Examples.alice 9 "g7") ("g8", "g9") "leaf" "carol"
              None None Examples.treeDb) as (Hadd & _).
  { repeat constructor. }
  destruct (grant_routes_never_hit_unique_index (λ _ _ _ _, true)
              (λ _, DocumentPermission.Read) (λ _, CollectionPermission.Read)
              (mkContext Examples.alice 9 "g7") ("g8", "g9") "col" "carol"
              None (Some CollectionPermission.Edit) Examples.treeDb)
    as (_ & _ & _ & _ & Hupdate).
  { repeat constructor. }
  split; [exact Hadd|exact Hupdate].
Defined.

(** ** Removing a grant *)

Lemma NoDup_id_inj (table : list Permission.t) p q :
  NoDup (map Permission.id table) → p ∈ table → q ∈ table →
  Permission.id p = Permission.id q → p = q.
Proof.
  induction table as [|x table IH]; intros Hnd Hp Hq Hid.
  - by apply elem_of_nil in Hp.
  - simpl in Hnd. apply NoDup_cons in Hnd as [Hx Hnd].
    apply elem_of_cons in Hp as [->|Hp], Hq as [->|Hq]; [done|..|by apply IH].
    + destruct Hx. rewrite Hid. apply list_elem_of_In, in_map.
      by apply list_elem_of_In.
    + destruct Hx. rewrite <- Hid. apply list_elem_of_In, in_map.
      by apply list_elem_of_In.
Qed.

Lemma Permission_findOne_Some where_ db g :
  head (filter (λ p, where_ p = true ∧ active p) (permissions db)) = Some g →
  g ∈ permissions db ∧ where_ g = true ∧ active g.
Proof.
  intros Hg%head_Some_elem_of%list_elem_of_filter. tauto.
Qed.

Lemma Permission_findOne_None where_ db :
  head (filter (λ p, where_ p = true ∧ active p) (permissions db)) = None ↔
  ∀ p, p ∈ permissions db → ¬ (where_ p = true ∧ active p).
Proof.
  rewrite head_None. split.
  - intros Hnil p Hp Hw.
    assert (p ∈ filter (λ p, where_ p = true ∧ active p) (permissions db))
      as Hin by (by apply list_elem_of_filter).
    rewrite Hnil in Hin. by apply elem_of_nil in Hin.
  - intros Hnone. apply elem_of_nil_inv. intros p [Hw Hp]%list_elem_of_filter.
    by apply (Hnone p).
Qed.

(** The soft delete of the instance followed by the soft delete of the
    where clause is the soft delete of the where clause. *)
Lemma instance_then_where_destroy where_ now table g :
  NoDup (map Permission.id table) →
  g ∈ table → where_ g = true → active g →
  map (λ p, if where_ p && bool_decide (active p)
            then set_deletedAt (Some now) p else p)
    (map (λ p, if bool_decide (Permission.id p = Permission.id g)
               then set_deletedAt (Some now) p else p)
       table)
  = softDeleted where_ now table.
Proof.
  intros Hnd Hg Hw Hact. unfold softDeleted. rewrite map_map.
  apply map_ext_in. intros p Hp%list_elem_of_In.
  case_bool_decide as Hid.
  - assert (p = g) as -> by (by eapply NoDup_id_inj).
    rewrite Hw, (bool_decide_eq_true_2 (active g)) by done.
    rewrite (bool_decide_eq_false_2 (active (set_deletedAt (Some now) g))),
      andb_false_r; [done|].
    unfold active. simpl. done.
  - done.
Qed.

Lemma removesGrant_intro where_ now db g :
  NoDup (map Permission.id (permissions db)) →
  Some g = head (filter (λ p, where_ p = true ∧ active p) (permissions db)) →
  let db1 :=
    set_permissions
      (map (λ p, if bool_decide (Permission.id p = Permission.id g)
                 then set_deletedAt (Some now) p else p)
         (permissions db))
      db in
  let db' := set_permissions (softDeleted where_ now (permissions db1)) db1 in
  (∃ g, g ∈ permissions db ∧ where_ g = true ∧ active g)
  ∧ db' = set_permissions (softDeleted where_ now (permissions db)) db
  ∧ (∀ p, p ∈ permissions db' → active p → where_ p = false)
  ∧ (Spec.uniqueActive (permissions db) →
     Spec.uniqueActive (permissions db')).
Proof.
  intros Hnd Hfind db1 db'. symmetry in Hfind.
  apply Permission_findOne_Some in Hfind as (Hg & Hw & Hact).
  assert (db' = set_permissions (softDeleted where_ now (permissions db)) db)
    as Heq.
  { unfold db', db1. destruct db. unfold set_permissions. simpl. f_equal.
    simpl in *. unfold softDeleted at 1.
    by apply instance_then_where_destroy. }
  split; [by exists g|]. split; [done|]. rewrite Heq. simpl. split.
  - intros p Hp Hap. by apply softDeleted_active_inv in Hp as [_ Hp].
  - apply uniqueActive_softDeleted.
Qed.

Ltac remove_inv :=
  handler_inv;
  repeat match goal with
    | H : Permission_findOne _ _ = inr _ |- _ =>
        unfold Permission_findOne in H; apply query_inr in H as [? ?]; subst
    | H : Permission_instance_destroy _ _ _ = inr _ |- _ =>
        unfold Permission_instance_destroy in H; injection H as ? ?; subst
    end.

Lemma documents_remove_user_removesGrant can ctx id userId :
  removesGrant
    (whereGrant (User.teamId (auth_user ctx)) PermissionSubjectType.User
       userId PermissionResourceType.Document id)
    (now ctx) (documents_remove_user can ctx id userId).
Proof.
  intros db u db' Hnd H.
  unfold documents_remove_user in H. handler_inv.
  match goal with
  | H : (if bool_decide _ then _ else _) _ = inr _ |- _ =>
      revert H; case_bool_decide; intros H
  end; remove_inv; by apply removesGrant_intro.
Qed.

Lemma documents_remove_group_removesGrant can ctx id groupId :
  removesGrant
    (whereGrant (User.teamId (auth_user ctx)) PermissionSubjectType.Group
       groupId PermissionResourceType.Document id)
    (now ctx) (documents_remove_group can ctx id groupId).
Proof.
  intros db u db' Hnd H.
  unfold documents_remove_group in H. remove_inv.
  by apply removesGrant_intro.
Qed.

(** X5. [documents.remove_user] and [documents.remove_group], when they
    return in a table whose ids are unique, found an active grant of the
    subject on the document and have soft-deleted every active grant of
    the subject on the document, leaving all other rows and tables as they
    were: no active grant of the subject on the document is left, and at
    most one active grant per indexed tuple is kept. *)
Theorem remove_routes_soft_delete_grants can ctx id subjectId :
  removesGrant
    (whereGrant (User.teamId (auth_user ctx)) PermissionSubjectType.User
       subjectId PermissionResourceType.Document id)
    (now ctx) (documents_remove_user can ctx id subjectId)
  ∧ removesGrant
      (whereGrant (User.teamId (auth_user ctx)) PermissionSubjectType.Group
         subjectId PermissionResourceType.Document id)
      (now ctx) (documents_remove_group can ctx id subjectId).
Proof.
  split.
  - apply documents_remove_user_removesGrant.
  - apply documents_remove_group_removesGrant.
Qed.

Lemma remove_routes_soft_delete_grants_witness :
  NoDup (map Permission.id (permissions Examples.treeDb))
  ∧ ∃ db',
      documents_remove_user (λ _ _ _ _, true)
        (mkContext Examples.alice 9 "g7") "leaf" "bob" Examples.treeDb
      = inr (tt, db')
      ∧ permissions db'
        = [Examples.g1; set_deletedAt (Some 9) Examples.g2; Examples.g3;
           Examples.g4; Examples.g5; Examples.g6]
      ∧ Spec.uniqueActive (permissions db').
Proof.
  assert (Hnd : NoDup (map Permission.id (permissions Examples.treeDb))).
  { apply (bool_decide_unpack _). vm_compute. exact I. }
  split; [exact Hnd|].
  destruct (documents_remove_user (λ _ _ _ _, true)
              (mkContext Examples.alice 9 "g7") "leaf" "bob" Examples.treeDb)
    as [e|[[] db']] eqn:E; [by vm_compute in E|].
  exists db'. split; [done|].
  destruct (remove_routes_soft_delete_grants (λ _ _ _ _, true)
              (mkContext Examples.alice 9 "g7") "leaf" "bob") as [Huser _].
  destruct (Huser Examples.treeDb tt db' Hnd E) as (_ & Heq & _ & Hunique).
  split.
  - rewrite Heq. reflexivity.
  - apply Hunique. apply (bool_decide_unpack _). vm_compute. exact I.
Defined.

(** ** Who may remove a grant of a user *)

(** X6. For an existing document and user, [documents.remove_user] has
    three outcomes.  It is refused with an authorization error exactly when
    the actor removes somebody else and the policy denies [manageUsers] on
    the document or [read] on the user; the policy is not asked when the
    actor removes their own grant.  Otherwise it fails with a not-found
    error when no active grant of the user on the document exists in the
    actor's team, and returns when one exists. *)
Theorem documents_remove_user_outcomes can ctx id userId db document user :
  documents db !! id = Some document →
  users db !! userId = Some user →
  let actor := auth_user ctx in
  let where_ :=
    whereGrant (User.teamId actor) PermissionSubjectType.User userId
      PermissionResourceType.Document id in
  let allowed :=
    User.id actor = userId
    ∨ (can db actor "manageUsers" (TargetDocument id (Some document)) = true
       ∧ can db actor "read" (TargetUser (Some user)) = true) in
  (¬ allowed →
   documents_remove_user can ctx id userId db = inl AuthorizationError)
  ∧ (allowed →
     (∀ p, p ∈ permissions db → ¬ (where_ p = true ∧ active p)) →
     documents_remove_user can ctx id userId db = inl NotFoundError)
  ∧ (allowed →
     ∀ g, g ∈ permissions db → where_ g = true → active g →
          ∃ db', documents_remove_user can ctx id userId db = inr (tt, db')).
Proof.
  intros Hdoc Huser actor where_ allowed.
  assert (Hauth :
    (if bool_decide (User.id actor ≠ userId)
     then
       authorize can actor "manageUsers" (TargetDocument id (Some document)) ;;;
       authorize can actor "read" (TargetUser (Some user))
     else ret tt) db
    = if bool_decide allowed then inr (tt, db) else inl AuthorizationError).
  { unfold allowed, bind, authorize, ret.
    case_bool_decide as Hne.
    - destruct (can db actor "manageUsers" _) eqn:E1;
        [destruct (can db actor "read" _) eqn:E2|].
      + rewrite bool_decide_eq_true_2; [done|]. by right.
      + rewrite bool_decide_eq_false_2; [done|]. intros [?|[_ ?]]; done.
      + rewrite bool_decide_eq_false_2; [done|]. intros [?|[? _]]; done.
    - rewrite bool_decide_eq_true_2; [done|]. left.
      by destruct (decide (User.id actor = userId)). }
  assert (Hrun : documents_remove_user can ctx id userId db
                 = if bool_decide allowed
                   then match head (filter (λ p, where_ p = true ∧ active p)
                                      (permissions db)) with
                        | Some g =>
                            (Permission_instance_destroy g (now ctx) ;;;
                             Permission_destroy where_ (now ctx)) db
                        | None => inl NotFoundError
                        end
                   else inl AuthorizationError).
  { unfold documents_remove_user. fold actor. fold where_.
    unfold bind at 1. unfold bind at 1. unfold query at 1.
    rewrite Hdoc. unfold rejectOnEmpty at 1. unfold ret at 1.
    unfold bind at 1. unfold bind at 1. unfold query at 1.
    rewrite Huser. unfold rejectOnEmpty at 1. unfold ret at 1.
    unfold bind at 1. rewrite Hauth.
    destruct (bool_decide allowed); [|done].
    unfold bind at 1. unfold bind at 1. unfold Permission_findOne, query.
    by destruct (head _). }
  rewrite Hrun. split; [|split].
  - intros Hno. by rewrite bool_decide_eq_false_2.
  - intros Hyes Hnone. rewrite bool_decide_eq_true_2 by done.
    by rewrite (proj2 (Permission_findOne_None where_ db) Hnone).
  - intros Hyes g Hg Hw Hact. rewrite bool_decide_eq_true_2 by done.
    destruct (head _) as [g'|] eqn:Hhead.
    + unfold bind, Permission_instance_destroy, Permission_destroy.
      by eexists.
    + pose proof (proj1 (Permission_findOne_None where_ db) Hhead) as Hnone.
      by destruct (Hnone g Hg).
Qed.

Lemma documents_remove_user_outcomes_witness :
  documents_remove_user (λ _ _ _ _, false)
    (mkContext Examples.alice 9 "g7") "leaf" "bob" Examples.treeDb
  = inl AuthorizationError
  ∧ ∃ db',
      documents_remove_user (λ _ _ _ _, false)
        (mkContext Examples.bob 9 "g7") "leaf" "bob" Examples.treeDb
      = inr (tt, db').
Proof.
  split.
  - apply (documents_remove_user_outcomes (λ _ _ _ _, false)
             (mkContext Examples.alice 9 "g7") "leaf" "bob" Examples.treeDb
             (Examples.doc (Some "mid")) Examples.bob);
      [reflexivity|reflexivity|].
    intros [?|[? _]]; discriminate.
  - apply (documents_remove_user_outcomes (λ _ _ _ _, false)
             (mkContext Examples.bob 9 "g7") "leaf" "bob" Examples.treeDb
             (Examples.doc (Some "mid")) Examples.bob)
      with (g := Examples.g2);
      [reflexivity|reflexivity|by left| |reflexivity|reflexivity].
    apply list_elem_of_In. simpl. tauto.
Defined.

(** ** From a grant that is written to the access that is computed *)

Lemma resolveForDocument_direct fuel db teamId documentId collectionId
    resolved p :
  PermissionResolver.resolveForDocument fuel db teamId documentId collectionId
  = Some resolved →
  p ∈ permissions db → Spec.activeOf teamId p →
  Spec.resource p = Some (Spec.Document documentId) →
  tagged (p, direct) ∈ resolved.
Proof.
  intros Hres Hp Hact Hdoc.
  destruct (PermissionResolver.findAncestorDocumentIds fuel db documentId)
    as [ids|] eqn:Hids.
  - destruct (resolveForDocument_with fuel db teamId documentId collectionId
                ids Hids) as (r & Hr & Hperm & _).
    rewrite Hres in Hr. injection Hr as <-. rewrite Hperm.
    apply list_elem_of_In, in_map, list_elem_of_In.
    unfold Spec.resolveForDocument. rewrite !elem_of_app.
    right. right. left.
    apply list_elem_of_In, (in_map (λ p, (p, direct))), list_elem_of_In.
    by apply list_elem_of_filter.
  - unfold PermissionResolver.resolveForDocument in Hres.
    by rewrite Hids in Hres.
Qed.

Lemma rank_documentPermissionToLevel p :
  Spec.rank (documentPermissionToLevel p) = DocumentPermissionPriority p.
Proof. by destruct p. Qed.

(** X7. When [documents.add_user] returns for a user of the actor's team
    and the parent chain of the document ends, [getDocumentPermission]
    computes on the new database a level for that user on that document
    that is at least the level that was granted, and
    [isElevatedPermission] answers that the requested level is no
    elevation. *)
Theorem documents_add_user_then_permission
    can defaultDocumentPermission ctx id userId permission db row db' fuel n :
  documents_add_user can defaultDocumentPermission ctx id userId permission db
  = inr (row, db') →
  (∀ user, users db !! userId = Some user →
           User.teamId user = User.teamId (auth_user ctx)) →
  sequelize db = true →
  Spec.chainEnds (documents db) id n → (n ≤ fuel)%nat →
  ∃ level,
    getDocumentPermission fuel db' userId id None = Some (Some level)
    ∧ Spec.rank (Permission.permission row) ≤ DocumentPermissionPriority level
    ∧ ∀ requested,
        permission = Some requested →
        DocumentPermissionPriority requested
        ≤ DocumentPermissionPriority level
        ∧ isElevatedPermission fuel db' userId id requested None
          = Some false.
Proof.
  intros Hrun Hteam Hseq Hend Hfuel.
  apply documents_add_user_inr in Hrun
    as (document & user & Hself & Hdoc & Huser & _ & _ & Hrow & Hdb).
  specialize (Hteam user Huser).
  assert (Hdoc' : documents db' !! id = Some document) by (by subst db').
  assert (Huser' : users db' !! userId = Some user) by (by subst db').
  assert (Hseq' : sequelize db' = true) by (by subst db').
  assert (Hend' : Spec.chainEnds (documents db') id n) by (by subst db').
  destruct (resolveForDocument_returns fuel db' (User.teamId user) id
              (Document.collectionId document) n Hseq' Hend' Hfuel)
    as [resolved Hres].
  destruct (getDocumentPermission_effective fuel db' userId id None document
              user resolved Hdoc' Huser' Hres) as (result & Hget & Heff).
  assert (Hin : tagged (row, direct) ∈ resolved).
  { eapply resolveForDocument_direct; [exact Hres|..].
    - subst db'. simpl. apply elem_of_app. right. by apply list_elem_of_singleton.
    - subst row. by split.
    - by subst row. }
  assert (Happ : Spec.applies db' userId (User.role user)
                   (tagged (row, direct))
                 ∧ Some (ResolvedPermission.id (tagged (row, direct)))
                   ≠ None).
  { split; [|done]. subst row. reflexivity. }
  destruct result as [level|]; simpl in Heff.
  - destruct Heff as [_ Hmax]. specialize (Hmax _ Hin Happ).
    exists level. split; [done|]. split; [exact Hmax|].
    intros requested ->.
    assert (DocumentPermissionPriority requested
            ≤ DocumentPermissionPriority level) as Hle.
    { rewrite <- rank_documentPermissionToLevel.
      subst row. exact Hmax. }
    split; [exact Hle|]. unfold isElevatedPermission. rewrite Hget.
    cbn [mbind option_bind]. f_equal. apply bool_decide_eq_false_2. lia.
  - by destruct (Heff _ Hin).
Qed.

Lemma documents_add_user_then_permission_witness :
  ∃ row db',
    documents_add_user (λ _ _ _ _, true) (λ _, DocumentPermission.Read)
      (mkContext Examples.alice 9 "g7") "mid" "carol"
      (Some DocumentPermission.Edit) Examples.treeDb
    = inr (row, db')
    ∧ getDocumentPermission 5 Examples.treeDb "carol" "mid" None = Some None
    ∧ ∃ level,
        getDocumentPermission 5 db' "carol" "mid" None = Some (Some level)
        ∧ DocumentPermissionPriority DocumentPermission.Edit
          ≤ DocumentPermissionPriority level.
Proof.
  destruct (documents_add_user (λ _ _ _ _, true)
              (λ _, DocumentPermission.Read)
              (mkContext Examples.alice 9 "g7") "mid" "carol"
              (Some DocumentPermission.Edit) Examples.treeDb)
    as [e|[row db']] eqn:E; [by vm_compute in E|].
  exists row, db'. split; [done|]. split; [by vm_compute|].
  destruct (documents_add_user_then_permission (λ _ _ _ _, true)
              (λ _, DocumentPermission.Read)
              (mkContext Examples.alice 9 "g7") "mid" "carol"
              (Some DocumentPermission.Edit) Examples.treeDb row db' 5 2 E)
    as (level & Hget & _ & Hreq).
  - intros user Huser. vm_compute in Huser. by injection Huser as <-.
  - reflexivity.
  - reflexivity.
  - lia.
  - exists level. split; [exact Hget|]. by destruct (Hreq _ eq_refl).
Defined.

(** ** Removing a grant and skipping it *)

Lemma effective_members P l1 l2 result :
  (∀ r, r ∈ l1 ↔ r ∈ l2) →
  Spec.effective P l1 result → Spec.effective P l2 result.
Proof.
  intros Hmem. destruct result as [level|]; simpl.
  - intros [(r & Hr & Hrest) Hmax]. split.
    + exists r. split; [by apply Hmem|done].
    + intros r' Hr'. apply Hmax. by apply Hmem.
  - intros Hnone r Hr. apply Hnone. by apply Hmem.
Qed.

Lemma softDeleted_elem_of where_ now table p :
  p ∈ table → where_ p = false → p ∈ softDeleted where_ now table.
Proof.
  intros Hp Hw. unfold softDeleted. apply list_elem_of_In, in_map_iff.
  exists p. rewrite Hw. split; [done|by apply list_elem_of_In].
Qed.

(** The query of [resolveForDocument] reads [permissions] only through
    one where clause, which asks for active rows. *)
Lemma resolveForDocument_rows fuel db teamId documentId collectionId ids :
  PermissionResolver.findAncestorDocumentIds fuel db documentId = Some ids →
  ∃ wh src,
    (∀ p, wh p = true → active p)
    ∧ ∀ table,
        PermissionResolver.resolveForDocument fuel (set_permissions table db)
          teamId documentId collectionId
        = Some (map (PermissionResolver.toResolved src) (findAll wh table)).
Proof.
  intros Hids. eexists _, _. split; cycle 1.
  - intros table. unfold PermissionResolver.resolveForDocument.
    change (PermissionResolver.findAncestorDocumentIds fuel
              (set_permissions table db) documentId)
      with (PermissionResolver.findAncestorDocumentIds fuel db documentId).
    rewrite Hids. cbn [mbind option_bind]. reflexivity.
  - intros p [Hscope _]%andb_true_iff.
    by apply whereScope_spec in Hscope as [_ ?].
Qed.

Lemma getDocumentPermission_softDeleted fuel db where_ now g userId
    documentId :
  NoDup (map Permission.id (permissions db)) →
  g ∈ permissions db → where_ g = true →
  (∀ p, p ∈ permissions db → where_ p = true → active p → p = g) →
  getDocumentPermission fuel
    (set_permissions (softDeleted where_ now (permissions db)) db)
    userId documentId None
  = getDocumentPermission fuel db userId documentId (Some (Permission.id g)).
Proof.
  intros Hnd Hg Hw Honly.
  set (db' := set_permissions (softDeleted where_ now (permissions db)) db).
  destruct (documents db !! documentId) as [document|] eqn:Hdoc;
    [|by unfold getDocumentPermission; simpl; rewrite Hdoc].
  destruct (users db !! userId) as [user|] eqn:Huser;
    [|by unfold getDocumentPermission; simpl; rewrite Hdoc, Huser].
  destruct (PermissionResolver.findAncestorDocumentIds fuel db documentId)
    as [ids|] eqn:Hids.
  - destruct (resolveForDocument_rows fuel db (User.teamId user) documentId
                (Document.collectionId document) ids Hids)
      as (wh & src & Hwh & Hres).
    pose proof (Hres (permissions db)) as Hr.
    rewrite <- set_permissions_id in Hr.
    pose proof (Hres (softDeleted where_ now (permissions db))) as Hr'.
    fold db' in Hr'.
    destruct (getDocumentPermission_effective fuel db userId documentId
                (Some (Permission.id g)) document user _ Hdoc Huser Hr)
      as (result & -> & Heff).
    destruct (getDocumentPermission_effective fuel db' userId documentId
                None document user _ Hdoc Huser Hr')
      as (result' & -> & Heff').
    f_equal. eapply effective_unique; [|exact Heff].
    apply (effective_filter (Spec.applies db userId (User.role user))
             (λ r, Some (ResolvedPermission.id r) ≠ Some (Permission.id g))).
    eapply effective_members; cycle 1.
    + eapply effective_ext; [|exact Heff']. intros r _. simpl.
      change (Spec.applies db' userId (User.role user) r)
        with (Spec.applies db userId (User.role user) r).
      intuition congruence.
    + intros x. rewrite list_elem_of_filter.
      rewrite !list_elem_of_In, !in_map_iff. split.
      * intros (p & <- & Hp). apply list_elem_of_In in Hp.
        apply findAll_elem_of in Hp as [Hwp Hp].
        pose proof (Hwh p Hwp) as Hact.
        apply softDeleted_active_inv in Hp as [Hp Hnw]; [|done].
        split.
        -- rewrite toResolved_id. intros [= Hid].
           assert (p = g) as -> by (by eapply NoDup_id_inj).
           congruence.
        -- exists p. split; [done|]. apply list_elem_of_In.
           by apply findAll_elem_of.
      * intros [Hid (p & <- & Hp)]. apply list_elem_of_In in Hp.
        apply findAll_elem_of in Hp as [Hwp Hp].
        exists p. split; [done|]. apply list_elem_of_In.
        apply findAll_elem_of. split; [done|].
        apply softDeleted_elem_of; [done|].
        destruct (where_ p) eqn:Hwhere; [|done].
        destruct Hid. rewrite toResolved_id. f_equal. f_equal.
        apply Honly; [done..|]. by apply Hwh.
  - unfold getDocumentPermission. simpl. rewrite Hdoc, Huser.
    unfold PermissionResolver.resolveForDocument.
    change (PermissionResolver.findAncestorDocumentIds fuel db' documentId)
      with (PermissionResolver.findAncestorDocumentIds fuel db documentId).
    by rewrite Hids.
Qed.

(** X8. Removing is skipping: when [documents.remove_user] or
    [documents.remove_group] returns in a table with unique ids in which
    [g] is the only active grant of the subject on the document, the
    permission that [getDocumentPermission] computes afterwards, for any
    user and any document, is the one it computed before with
    [skipMembershipId] set to the id of [g]. *)
Theorem remove_routes_agree_with_skip can ctx id subjectId db u db' g fuel
    userId documentId subjectType :
  NoDup (map Permission.id (permissions db)) →
  (subjectType = PermissionSubjectType.User
   ∧ documents_remove_user can ctx id subjectId db = inr (u, db')
   ∨ subjectType = PermissionSubjectType.Group
     ∧ documents_remove_group can ctx id subjectId db = inr (u, db')) →
  g ∈ permissions db →
  whereGrant (User.teamId (auth_user ctx)) subjectType subjectId
    PermissionResourceType.Document id g = true →
  (∀ p, p ∈ permissions db →
        whereGrant (User.teamId (auth_user ctx)) subjectType subjectId
          PermissionResourceType.Document id p = true →
        active p → p = g) →
  getDocumentPermission fuel db' userId documentId None
  = getDocumentPermission fuel db userId documentId (Some (Permission.id g)).
Proof.
  intros Hnd Hrun Hg Hw Honly.
  assert (db' = set_permissions
                  (softDeleted
                     (whereGrant (User.teamId (auth_user ctx)) subjectType
                        subjectId PermissionResourceType.Document id)
                     (now ctx) (permissions db)) db) as ->.
  { destruct Hrun as [[-> Hrun]|[-> Hrun]].
    - by destruct (documents_remove_user_removesGrant can ctx id subjectId
                     db u db' Hnd Hrun) as (_ & ? & _).
    - by destruct (documents_remove_group_removesGrant can ctx id subjectId
                     db u db' Hnd Hrun) as (_ & ? & _). }
  by apply getDocumentPermission_softDeleted.
Qed.

Lemma remove_routes_agree_with_skip_witness :
  ∃ db',
    documents_remove_user (λ _ _ _ _, true)
      (mkContext Examples.alice 9 "g7") "leaf" "carol" Examples.treeDb
    = inr (tt, db')
    ∧ getDocumentPermission 5 Examples.treeDb "carol" "leaf" None
      = Some (Some DocumentPermission.Read)
    ∧ getDocumentPermission 5 db' "carol" "leaf" None
      = getDocumentPermission 5 Examples.treeDb "carol" "leaf" (Some "g6")
    ∧ getDocumentPermission 5 db' "carol" "leaf" None = Some None.
Proof.
  destruct (documents_remove_user (λ _ _ _ _, true)
              (mkContext Examples.alice 9 "g7") "leaf" "carol"
              Examples.treeDb) as [e|[[] db']] eqn:E; [by vm_compute in E|].
  exists db'. split; [done|]. split; [by vm_compute|].
  assert (getDocumentPermission 5 db' "carol" "leaf" None
          = getDocumentPermission 5 Examples.treeDb "carol" "leaf"
              (Some "g6")) as Heq.
  { apply (remove_routes_agree_with_skip (λ _ _ _ _, true)
             (mkContext Examples.alice 9 "g7") "leaf" "carol"
             Examples.treeDb tt db' Examples.g6 5 "carol" "leaf"
             PermissionSubjectType.User).
    - apply (bool_decide_unpack _). vm_compute. exact I.
    - left. by split.
    - apply list_elem_of_In. simpl. tauto.
    - reflexivity.
    - intros p Hp Hw _. apply list_elem_of_In in Hp. simpl in Hp.
      destruct Hp as [<-|[<-|[<-|[<-|[<-|[<-|[]]]]]]]; try done. }
  split; [exact Heq|]. rewrite Heq. by vm_compute.
Defined.

(** ** Every computed permission is justified by a grant *)

Lemma ancestry_eval_rows docs documentId fuel :
  ∀ k rows,
    PermissionResolver.ancestry_eval fuel docs (workingAt docs documentId k)
    = Some rows →
    ∀ row : PermissionResolver.AncestryRow,
      row ∈ rows →
      ∃ j, (k ≤ j)%nat ∧ Spec.nth_ancestor docs j documentId = Some row.1.
Proof.
  induction fuel as [|fuel IH]; intros k rows Hev row Hrow.
  - destruct (workingAt docs documentId k); simpl in Hev; [|done].
    injection Hev as <-. by apply elem_of_nil in Hrow.
  - destruct (workingAt docs documentId k) as [|w ws] eqn:Hw.
    + simpl in Hev. injection Hev as <-. by apply elem_of_nil in Hrow.
    + rewrite <- Hw, ancestry_eval_S in Hev by (by rewrite Hw).
      rewrite ancestry_step_working in Hev.
      destruct (PermissionResolver.ancestry_eval fuel docs
                  (workingAt docs documentId (S k))) as [rest|] eqn:Hrest;
        [|done].
      simpl in Hev. injection Hev as <-.
      apply elem_of_app in Hrow as [Hrow|Hrow].
      * exists k. split; [lia|]. unfold workingAt in Hrow.
        destruct (Spec.nth_ancestor docs k documentId) as [a|];
          simpl in Hrow; [|by apply elem_of_nil in Hrow].
        unfold rowOf in Hrow. destruct (docs !! a); simpl in Hrow;
          [|by apply elem_of_nil in Hrow].
        apply list_elem_of_singleton in Hrow. by subst row.
      * destruct (IH (S k) rest Hrest row Hrow) as (j & Hj & Hn).
        exists j. split; [lia|done].
Qed.

(** The ids that the ancestor query returns are the document itself and
    documents met by following [parentDocumentId] upward. *)
Lemma findAncestorDocumentIds_members fuel db documentId ids a :
  PermissionResolver.findAncestorDocumentIds fuel db documentId = Some ids →
  a ∈ ids → a ≠ documentId →
  ∃ j, Spec.nth_ancestor (documents db) (S j) documentId = Some a.
Proof.
  unfold PermissionResolver.findAncestorDocumentIds.
  destruct (sequelize db); simpl.
  - rewrite ancestry_base_working. intros Hev Ha Hne.
    destruct (PermissionResolver.ancestry_eval fuel (documents db)
                (workingAt (documents db) documentId 0)) as [rows|] eqn:E;
      [|done].
    simpl in Hev. injection Hev as <-.
    apply list_elem_of_In, in_map_iff in Ha as (row & <- & Hrow).
    apply list_elem_of_In in Hrow.
    destruct (ancestry_eval_rows _ _ _ _ _ E row Hrow) as (j & _ & Hj).
    destruct j as [|j]; [|by exists j].
    by apply nth_ancestor_0 in Hj.
  - intros [= <-] Ha%list_elem_of_singleton. done.
Qed.

(** X9. Whenever [getDocumentPermission] returns a level, the user and
    the document exist and an active grant of the user's team, other than
    the skipped one, carries that level and applies to the user; the grant
    is either on the document itself, or it has inherit mode [children]
    and is on the workspace, on the collection of the document, or on a
    document met by following the parent chain upward.  Grants of other
    teams, soft-deleted grants, and grants with inherit mode [self] on
    other resources never give a permission. *)
Theorem getDocumentPermission_justified fuel db userId documentId
    skipMembershipId level :
  getDocumentPermission fuel db userId documentId skipMembershipId
  = Some (Some level) →
  ∃ user document p source,
    users db !! userId = Some user
    ∧ documents db !! documentId = Some document
    ∧ p ∈ permissions db ∧ active p
    ∧ Permission.teamId p = User.teamId user
    ∧ Some (Permission.id p) ≠ skipMembershipId
    ∧ toDocumentPermission (Permission.permission p) = level
    ∧ Spec.applies db userId (User.role user) (tagged (p, source))
    ∧ (source = direct
       ∧ Spec.resource p = Some (Spec.Document documentId)
       ∨ source = inherited
         ∧ Permission.inheritMode p = PermissionInheritMode.Children
         ∧ (Spec.resource p = Some Spec.Workspace
            ∨ (∃ c, Document.collectionId document = Some c ∧ c ≠ ""
                    ∧ Spec.resource p = Some (Spec.Collection c))
            ∨ ∃ a j, Spec.resource p = Some (Spec.Document a)
                     ∧ Spec.nth_ancestor (documents db) (S j) documentId
                       = Some a)).
Proof.
  intros Hget.
  destruct (documents db !! documentId) as [document|] eqn:Hdoc;
    [|by unfold getDocumentPermission in Hget; rewrite Hdoc in Hget].
  destruct (users db !! userId) as [user|] eqn:Huser;
    [|by unfold getDocumentPermission in Hget; rewrite Hdoc, Huser in Hget].
  destruct (PermissionResolver.findAncestorDocumentIds fuel db documentId)
    as [ids|] eqn:Hids; cycle 1.
  { unfold getDocumentPermission in Hget. rewrite Hdoc, Huser in Hget.
    unfold PermissionResolver.resolveForDocument in Hget.
    by rewrite Hids in Hget. }
  destruct (resolveForDocument_with fuel db (User.teamId user) documentId
              (Document.collectionId document) ids Hids)
    as (resolved & Hres & Hperm & _).
  destruct (getDocumentPermission_effective fuel db userId documentId
              skipMembershipId document user resolved Hdoc Huser Hres)
    as (result & Hget' & Heff).
  rewrite Hget in Hget'. injection Hget' as <-. simpl in Heff.
  destruct Heff as [(r & Hr & [Happ Hskip] & Hlevel & _) _].
  rewrite Hperm in Hr.
  apply list_elem_of_In, in_map_iff in Hr as ([p source] & <- & Hin).
  apply list_elem_of_In in Hin.
  exists user, document, p, source.
  split; [done|]. split; [done|].
  unfold Spec.resolveForDocument in Hin. rewrite !elem_of_app in Hin.
  assert (∀ (s : Source) (P : Permission.t → Prop)
            `{∀ x, Decision (P x)} table,
            (p, source) ∈ map (λ p, (p, s)) (filter P table) →
            source = s ∧ P p ∧ p ∈ table) as Hsplit.
  { intros s P ? table Hmem.
    apply list_elem_of_In, in_map_iff in Hmem as (q & [= -> ->] & Hq).
    apply list_elem_of_In, list_elem_of_filter in Hq. tauto. }
  destruct Hin as [Hin|[Hin|[Hin|Hin]]];
    apply Hsplit in Hin as (-> & Hp & Hmem).
  - destruct Hp as ([Hteam Hact] & Hws & Hmode).
    repeat (split; [done|]). right. repeat (split; [done|]). by left.
  - destruct Hp as ([Hteam Hact] & Hcol & Hmode).
    repeat (split; [done|]). right. repeat (split; [done|]). right. left.
    unfold Spec.onSuppliedCollection in Hcol.
    destruct (Document.collectionId document) as [c|]; [|done].
    exists c. by destruct Hcol.
  - destruct Hp as ([Hteam Hact] & Hres').
    repeat (split; [done|]). by left.
  - destruct Hp as ([Hteam Hact] & Hanc & Hmode).
    repeat (split; [done|]). right. repeat (split; [done|]). right. right.
    unfold Spec.onAncestor in Hanc.
    destruct (Spec.resource p) as [[| |a]|]; try done.
    apply list_elem_of_filter in Hanc as [Hne Ha].
    destruct (findAncestorDocumentIds_members fuel db documentId ids a
                Hids Ha Hne) as [j Hj].
    by exists a, j.
Qed.

Lemma getDocumentPermission_justified_witness :
  ∃ p source,
    getDocumentPermission 5 Examples.treeDb "bob" "leaf" None
    = Some (Some DocumentPermission.Edit)
    ∧ p ∈ permissions Examples.treeDb
    ∧ toDocumentPermission (Permission.permission p) = DocumentPermission.Edit
    ∧ Spec.applies Examples.treeDb "bob" "viewer" (tagged (p, source)).
Proof.
  assert (getDocumentPermission 5 Examples.treeDb "bob" "leaf" None
          = Some (Some DocumentPermission.Edit)) as Hget
    by (by vm_compute).
  destruct (getDocumentPermission_justified 5 Examples.treeDb "bob" "leaf"
              None DocumentPermission.Edit Hget)
    as (user & document & p & source & Huser & _ & Hp & _ & _ & _ & Hlevel
        & Happ & _).
  exists p, source. split; [exact Hget|]. split; [exact Hp|].
  split; [exact Hlevel|].
  vm_compute in Huser. injection Huser as <-. exact Happ.
Defined.

(** ** The helpers of the policies and the [read] rule *)

Lemma grantIds_result (ids : list string) :
  (if bool_decide (0 < length ids)%nat then GrantIds ids else NoGrant)
  ≠ GrantIds []
  ∧ ((if bool_decide (0 < length ids)%nat then GrantIds ids else NoGrant)
     ≠ NoGrant ↔ ids ≠ []).
Proof.
  destruct ids as [|i ids]; simpl; (split; [done|]); split; done.
Qed.

Lemma map_filter_nonempty {A B} (f : A → B) (P : A → Prop)
    `{∀ x, Decision (P x)} (l : list A) :
  map f (filter P l) ≠ [] ↔ ∃ x, x ∈ l ∧ P x.
Proof.
  split.
  - destruct (filter P l) as [|x k] eqn:E; [done|]. intros _.
    assert (x ∈ filter P l) as Hx by (rewrite E; by left).
    apply list_elem_of_filter in Hx. exists x. tauto.
  - intros (x & Hx & HP) Hnil. apply map_eq_nil in Hnil.
    assert (x ∈ filter P l) as Hin by (by apply list_elem_of_filter).
    rewrite Hnil in Hin. by apply elem_of_nil in Hin.
Qed.

Lemma CollectionPolicy_includesPermission_grants collection user permissions :
  ¬ (truthy (CollectionPolicy.ownerId collection) = true
     ∧ CollectionPolicy.ownerId collection = Some (User.id user)) →
  CollectionPolicy.includesPermission (Some collection) user permissions
  ≠ NoGrant
  ↔ ∃ grant,
      grant ∈ default [] (CollectionPolicy.permissionGrants collection)
      ∧ CollectionPolicy.matchesSubject grant user = true
      ∧ CollectionPolicy.mapped grant ∈ permissions.
Proof.
  intros Hnot. unfold CollectionPolicy.includesPermission.
  destruct (truthy _ && bool_decide _) eqn:E.
  - apply andb_true_iff in E as [? ?%bool_decide_eq_true]. by destruct Hnot.
  - destruct (grantIds_result
                (map Permission.id
                   (filter (λ grant,
                      CollectionPolicy.matchesSubject grant user = true
                      ∧ CollectionPolicy.mapped grant ∈ permissions)
                      (default [] (CollectionPolicy.permissionGrants
                                     collection))))) as [_ ->].
    by rewrite map_filter_nonempty.
Qed.

Lemma DocumentPolicy_includesPermission_grants document user permissions :
  DocumentPolicy.includesPermission (Some document) user permissions
  ≠ NoGrant
  ↔ ∃ grant,
      grant ∈ default [] (DocumentPolicy.permissionGrants document)
      ∧ DocumentPolicy.matchesSubject grant user = true
      ∧ DocumentPolicy.mapped grant ∈ permissions.
Proof.
  unfold DocumentPolicy.includesPermission.
  destruct (grantIds_result
              (map Permission.id
                 (filter (λ grant,
                    DocumentPolicy.matchesSubject grant user = true
                    ∧ DocumentPolicy.mapped grant ∈ permissions)
                    (default [] (DocumentPolicy.permissionGrants
                                   document))))) as [_ ->].
  by rewrite map_filter_nonempty.
Qed.

(** X10. The helper [includesPermission] of both policies is monotone in
    the levels asked for: when it answers with grants for some levels it
    answers with grants for every larger set of levels, so whoever passes
    a check that asks for [manage] passes the checks that ask for [edit]
    or [manage] and for any level.  Its answer is never the empty list,
    which JavaScript would take for true. *)
Theorem includesPermission_monotone :
  (∀ collection user permissions permissions',
     (∀ level, level ∈ permissions → level ∈ permissions') →
     CollectionPolicy.includesPermission collection user permissions
     ≠ NoGrant →
     CollectionPolicy.includesPermission collection user permissions'
     ≠ NoGrant)
  ∧ (∀ document user permissions permissions',
       (∀ level, level ∈ permissions → level ∈ permissions') →
       DocumentPolicy.includesPermission document user permissions
       ≠ NoGrant →
       DocumentPolicy.includesPermission document user permissions'
       ≠ NoGrant)
  ∧ (∀ collection user permissions,
       CollectionPolicy.includesPermission collection user permissions
       ≠ GrantIds [])
  ∧ (∀ document user permissions,
       DocumentPolicy.includesPermission document user permissions
       ≠ GrantIds []).
Proof.
  split; [|split; [|split]].
  - intros [collection|] user permissions permissions' Hsub; [|done].
    destruct (decide (truthy (CollectionPolicy.ownerId collection) = true
                      ∧ CollectionPolicy.ownerId collection
                        = Some (User.id user))) as [[Ht Ho]|Hnot].
    + intros _. unfold CollectionPolicy.includesPermission.
      by rewrite Ht, Ho, bool_decide_eq_true_2.
    + rewrite !CollectionPolicy_includesPermission_grants by done.
      intros (grant & Hin & Hm & Hlevel). exists grant. auto.
  - intros [document|] user permissions permissions' Hsub; [|done].
    rewrite !DocumentPolicy_includesPermission_grants.
    intros (grant & Hin & Hm & Hlevel). exists grant. auto.
  - intros [collection|] user permissions; [|done].
    unfold CollectionPolicy.includesPermission.
    destruct (truthy _ && bool_decide _); [done|].
    apply grantIds_result.
  - intros [document|] user permissions; [|done].
    unfold DocumentPolicy.includesPermission. apply grantIds_result.
Qed.

Lemma includesPermission_monotone_witness :
  DocumentPolicy.includesPermission
    (Some (DocumentPolicy.mkDocument "leaf" "team" "alice"
             (Some [Examples.g3])))
    Examples.alice [DocumentPermission.Manage]
  = GrantIds ["g3"]
  ∧ DocumentPolicy.includesPermission
      (Some (DocumentPolicy.mkDocument "leaf" "team" "alice"
               (Some [Examples.g3])))
      Examples.alice [DocumentPermission.Edit; DocumentPermission.Manage]
    ≠ NoGrant.
Proof.
  split; [by vm_compute|].
  destruct includesPermission_monotone as (_ & Hdoc & _).
  apply (Hdoc _ _ [DocumentPermission.Manage]).
  - intros level Hlevel%list_elem_of_singleton. subst level.
    apply elem_of_cons. right. by apply list_elem_of_singleton.
  - by vm_compute.
Defined.

Lemma CollectionPolicy_mapped_values grant :
  CollectionPolicy.mapped grant ∈ CollectionRules.CollectionPermission_values.
Proof.
  unfold CollectionPolicy.mapped, CollectionRules.CollectionPermission_values.
  repeat case_bool_decide; set_solver.
Qed.

(** X11. The [read] rule of the collection policy, which is also the rule
    of [readDocument], [star], [unstar], [subscribe] and [unsubscribe]:
    without a collection, or for a user of another team, the answer is
    [false], even for the owner; for a user of the team of the collection
    the answer is a list of grants exactly when the user owns the
    collection or some grant loaded with the collection matches the user,
    at whatever level. *)
Theorem collection_read_rule user collection :
  CollectionRules.read user None = NoGrant
  ∧ (User.teamId user ≠ CollectionPolicy.teamId collection →
     CollectionRules.read user (Some collection) = NoGrant)
  ∧ (User.teamId user = CollectionPolicy.teamId collection →
     CollectionRules.read user (Some collection) ≠ NoGrant
     ↔ (CollectionPolicy.ownerId collection = Some (User.id user)
        ∧ User.id user ≠ "")
       ∨ ∃ grant,
           grant ∈ default [] (CollectionPolicy.permissionGrants collection)
           ∧ CollectionPolicy.matchesSubject grant user = true).
Proof.
  split; [done|]. unfold CollectionRules.read. split.
  - intros Hteam. by rewrite bool_decide_eq_true_2.
  - intros Hteam. rewrite bool_decide_eq_false_2 by (by intros ?).
    destruct (decide (truthy (CollectionPolicy.ownerId collection) = true
                      ∧ CollectionPolicy.ownerId collection
                        = Some (User.id user))) as [[Ht Ho]|Hnot].
    + unfold CollectionPolicy.includesPermission.
      rewrite Ht, Ho, bool_decide_eq_true_2 by done. simpl.
      split; [|done]. intros _. left. split; [done|].
      rewrite Ho in Ht. simpl in Ht.
      by apply negb_true_iff, bool_decide_eq_false in Ht.
    + rewrite CollectionPolicy_includesPermission_grants by done. split.
      * intros (grant & Hin & Hm & _). right. by exists grant.
      * intros [[Ho Hid]|(grant & Hin & Hm)].
        -- destruct Hnot. split; [|done]. rewrite Ho. simpl.
           by apply negb_true_iff, bool_decide_eq_false.
        -- exists grant. split; [done|]. split; [done|].
           apply CollectionPolicy_mapped_values.
Qed.

Lemma collection_read_rule_witness :
  CollectionRules.read (User.mk "dave" "other" "admin")
    (Some (CollectionPolicy.mkCollection "col" "team" (Some "dave")
             (Some [Examples.g3])))
  = NoGrant
  ∧ CollectionRules.read Examples.bob
      (Some (CollectionPolicy.mkCollection "col" "team" (Some "alice")
               (Some [Examples.g1])))
    ≠ NoGrant.
Proof.
  split.
  - by apply (collection_read_rule (User.mk "dave" "other" "admin")
                (CollectionPolicy.mkCollection "col" "team" (Some "dave")
                   (Some [Examples.g3]))).
  - apply (collection_read_rule Examples.bob
             (CollectionPolicy.mkCollection "col" "team" (Some "alice")
                (Some [Examples.g1]))); [reflexivity|].
    right. exists Examples.g1. split; [|reflexivity].
    simpl. by apply list_elem_of_singleton.
Defined.

Lemma soft_delete_active_inv (test : Permission.t → bool) now table p :
  p ∈ map (λ p, if test p then set_deletedAt (Some now) p else p) table →
  active p → p ∈ table.
Proof.
  intros Hp Hact. apply list_elem_of_In, in_map_iff in Hp as (q & Hq & Hin).
  apply list_elem_of_In in Hin. destruct (test q); subst p; [|done].
  unfold active in Hact. simpl in Hact. done.
Qed.

Lemma remove_steps_history where_ now g db :
  let db1 :=
    set_permissions
      (map (λ p, if bool_decide (Permission.id p = Permission.id g)
                 then set_deletedAt (Some now) p else p)
         (permissions db))
      db in
  ∃ table,
    set_permissions (softDeleted where_ now (permissions db1)) db1
    = set_permissions table db
    ∧ ∀ p, p ∈ table → active p → p ∈ permissions db.
Proof.
  intros db1. eexists. split; [by destruct db|].
  intros p Hp Hact. simpl in Hp.
  apply softDeleted_active_inv in Hp as [Hp _]; [|done].
  by apply (soft_delete_active_inv
              (λ p, bool_decide (Permission.id p = Permission.id g)) now).
Qed.

Lemma documents_remove_user_history can ctx id userId db u db' :
  documents_remove_user can ctx id userId db = inr (u, db') →
  ∃ table, db' = set_permissions table db
           ∧ ∀ p, p ∈ table → active p → p ∈ permissions db.
Proof.
  intros H. unfold documents_remove_user in H. handler_inv.
  match goal with
  | H : (if bool_decide _ then _ else _) _ = inr _ |- _ =>
      revert H; case_bool_decide; intros H
  end; remove_inv; apply remove_steps_history.
Qed.

Lemma documents_remove_group_history can ctx id groupId db u db' :
  documents_remove_group can ctx id groupId db = inr (u, db') →
  ∃ table, db' = set_permissions table db
           ∧ ∀ p, p ∈ table → active p → p ∈ permissions db.
Proof.
  intros H. unfold documents_remove_group in H. remove_inv.
  apply remove_steps_history.
Qed.

(** ** Grants between rows that exist *)

Lemma referencesExist_set table db :
  referencesExist db →
  (∀ p, p ∈ table → active p →
        p ∈ permissions db ∨ (subjectExists db p ∧ resourceExists db p)) →
  referencesExist (set_permissions table db).
Proof.
  intros Href Htable p Hp Hact. simpl in Hp.
  destruct (Htable p Hp Hact) as [Hold|Hnew]; [|exact Hnew].
  exact (Href p Hold Hact).
Qed.

Lemma referencesExist_replace where_ now row db :
  referencesExist db →
  subjectExists db row → resourceExists db row →
  referencesExist
    (set_permissions (softDeleted where_ now (permissions db) ++ [row]) db).
Proof.
  intros Href Hs Hr. apply referencesExist_set; [done|].
  intros p [Hp|Hp%list_elem_of_singleton]%elem_of_app Hact.
  - left. by apply softDeleted_active_inv in Hp as [Hp _].
  - right. by subst p.
Qed.

Lemma set_permissions_twice table table' db :
  set_permissions table (set_permissions table' db) = set_permissions table db.
Proof. done. Qed.

Lemma permissions_set_permissions table db :
  permissions (set_permissions table db) = table.
Proof. done. Qed.

Ltac norm_db :=
  rewrite ?set_permissions_twice, ?permissions_set_permissions.

Lemma Permission_bulkCreate_inr rows :
  ∀ db created db',
    Permission_bulkCreate rows db = inr (created, db') →
    created = rows ∧ db' = set_permissions (permissions db ++ rows) db.
Proof.
  induction rows as [|row rows IH]; intros db created db' H; simpl in H.
  - apply ret_inr in H as [-> ->]. rewrite app_nil_r.
    split; [done|]. apply set_permissions_id.
  - handler_inv.
    match goal with
    | H : Permission_bulkCreate rows _ = inr _ |- _ =>
        apply IH in H as [-> ->]
    end.
    split; [done|]. simpl. by rewrite <- app_assoc.
Qed.

(** X12. The routes that write grants keep every active grant between
    rows that exist.  [documents.add_user] and [documents.add_group] look
    the document and the subject up and fail when one is missing, whatever
    the policy answers; [collections.add_user] and [collections.add_group]
    do not look at what they found and keep the property when the policy
    denies a missing collection, user or group; the grant block of
    [collections.update] writes role grants on the collection that was
    loaded; the two remove routes only soft-delete. *)
Theorem grant_routes_keep_references
    can defaultDocumentPermission defaultCollectionPermission ctx uuids id
    subjectId documentPermission collectionPermission db :
  referencesExist db →
  (∀ row db',
     documents_add_user can defaultDocumentPermission ctx id subjectId
       documentPermission db = inr (row, db') →
     referencesExist db')
  ∧ (∀ row db',
       documents_add_group can defaultDocumentPermission ctx id subjectId
         documentPermission db = inr (row, db') →
       referencesExist db')
  ∧ (can db (auth_user ctx) "update" (TargetCollection id false) = false →
     can db (auth_user ctx) "read" (TargetUser None) = false →
     ∀ row db',
       collections_add_user can defaultCollectionPermission ctx id subjectId
         collectionPermission db = inr (row, db') →
       referencesExist db')
  ∧ (can db (auth_user ctx) "update" (TargetCollection id false) = false →
     can db (auth_user ctx) "read" (TargetGroup subjectId false) = false →
     ∀ row db',
       collections_add_group can ctx id subjectId collectionPermission db
       = inr (row, db') →
       referencesExist db')
  ∧ (id ∈ collections db →
     ∀ rows db',
       collections_update_grants ctx uuids id collectionPermission db
       = inr (rows, db') →
       referencesExist db')
  ∧ (∀ u db',
       documents_remove_user can ctx id subjectId db = inr (u, db') →
       referencesExist db')
  ∧ (∀ u db',
       documents_remove_group can ctx id subjectId db = inr (u, db') →
       referencesExist db').
Proof.
  intros Href.
  split; [|split; [|split; [|split; [|split; [|split]]]]].
  - intros row db' H.
    apply documents_add_user_inr in H
      as (document & user & _ & Hdoc & Huser & _ & _ & -> & ->).
    apply referencesExist_replace; [done|..]; simpl.
    + exists subjectId. by rewrite Huser.
    + exists id. by rewrite Hdoc.
  - intros row db' H. unfold documents_add_group in H. handler_inv.
    match goal with
    | H : (if bool_decide (subjectId ∈ groups _) then _ else _) = Some _
      |- _ => revert H; case_bool_decide as Hgroup; intros H; [|done]
    end.
    norm_db. apply referencesExist_replace; [done|..]; simpl.
    + by exists subjectId.
    + exists id. by eexists.
  - intros Hcol Huser row db' H. unfold collections_add_user in H.
    handler_inv.
    match goal with
    | H : can _ _ "update" (TargetCollection id (bool_decide ?P)) = true
      |- _ => destruct (decide P) as [Hin|Hout];
              [|rewrite (bool_decide_eq_false_2 P) in H by done; congruence]
    end.
    destruct (users db !! subjectId) as [user|] eqn:Hlookup; [|congruence].
    match goal with
    | H : (match collectionPermission with _ => _ end) _ = inr _ |- _ =>
        destruct collectionPermission; apply ret_inr in H as [-> ->]
    end; (norm_db; apply referencesExist_replace; [done|..]; simpl;
          [exists subjectId; by rewrite Hlookup|by exists id]).
  - intros Hcol Hgroup row db' H. unfold collections_add_group in H.
    handler_inv.
    match goal with
    | H : can _ _ "update" (TargetCollection id (bool_decide ?P)) = true
      |- _ => destruct (decide P) as [Hin|Hout];
              [|rewrite (bool_decide_eq_false_2 P) in H by done; congruence]
    end.
    match goal with
    | H : can _ _ "read" (TargetGroup subjectId (bool_decide ?P)) = true
      |- _ => destruct (decide P) as [Hing|Houtg];
              [|rewrite (bool_decide_eq_false_2 P) in H by done; congruence]
    end.
    norm_db. apply referencesExist_replace; [done|..]; simpl.
    + by exists subjectId.
    + by exists id.
  - intros Hin rows db' H. unfold collections_update_grants in H.
    handler_inv.
    match goal with
    | H : (if bool_decide (_ = []) then _ else _) _ = inr _ |- _ =>
        revert H; case_bool_decide as Hempty; intros H
    end.
    + apply ret_inr in H as [_ ->]. norm_db.
      apply referencesExist_set; [done|]. intros p Hp Hact. left.
      apply softDeleted_active_inv in Hp as [Hp _]; [|done].
      by apply softDeleted_active_inv in Hp as [Hp _].
    + apply Permission_bulkCreate_inr in H as [_ ->]. norm_db.
      apply referencesExist_set; [done|]. intros p Hp Hact.
      apply elem_of_app in Hp as [Hp|Hp].
      * left. apply softDeleted_active_inv in Hp as [Hp _]; [|done].
        by apply softDeleted_active_inv in Hp as [Hp _].
      * right. apply list_elem_of_In, in_map_iff in Hp as (grant & <- & _).
        split; simpl; [done|by exists id].
  - intros u db' H.
    destruct (documents_remove_user_history can ctx id subjectId db u db' H)
      as (table & -> & Htable).
    apply referencesExist_set; [done|]. intros p Hp Hact. left. auto.
  - intros u db' H.
    destruct (documents_remove_group_history can ctx id subjectId db u db' H)
      as (table & -> & Htable).
    apply referencesExist_set; [done|]. intros p Hp Hact. left. auto.
Qed.

Lemma referencesExist_treeDb : referencesExist Examples.treeDb.
Proof.
  intros p Hp Hact. apply list_elem_of_In in Hp. simpl in Hp.
  destruct Hp as [<-|[<-|[<-|[<-|[<-|[<-|[]]]]]]]; try done;
    split; simpl; try done;
    (eexists; split; [reflexivity|]);
    apply (bool_decide_unpack _); vm_compute; exact I.
Defined.

Lemma grant_routes_keep_references_witness :
  referencesExist Examples.treeDb
  ∧ ∃ row db',
      documents_add_group (λ _ _ _ _, true) (λ _, DocumentPermission.Read)
        (mkContext Examples.alice 9 "g7") "leaf" "eng" None Examples.treeDb
      = inr (row, db')
      ∧ referencesExist db'.
Proof.
  split; [exact referencesExist_treeDb|].
  destruct (documents_add_group (λ _ _ _ _, true)
              (λ _, DocumentPermission.Read)
              (mkContext Examples.alice 9 "g7") "leaf" "eng" None
              Examples.treeDb) as [e|[row db']] eqn:E;
    [by vm_compute in E|].
  exists row, db'. split; [done|].
  destruct (grant_routes_keep_references (λ _ _ _ _, true)
              (λ _, DocumentPermission.Read) (λ _, CollectionPermission.Read)
              (mkContext Examples.alice 9 "g7") ("g8", "g9") "leaf" "eng"
              None None Examples.treeDb referencesExist_treeDb)
    as (_ & Hgroup & _).
  exact (Hgroup row db' E).
Defined.

(** ** Deleting a user leaves the other users as they were *)

(** The query of [resolveForDocument] in a database with the same
    documents. *)
Lemma resolveForDocument_rows_of fuel db teamId documentId collectionId ids :
  PermissionResolver.findAncestorDocumentIds fuel db documentId = Some ids →
  ∃ wh src,
    (∀ p, wh p = true → active p)
    ∧ ∀ db',
        sequelize db' = sequelize db → documents db' = documents db →
        PermissionResolver.resolveForDocument fuel db' teamId documentId
          collectionId
        = Some (map (PermissionResolver.toResolved src)
                  (findAll wh (permissions db'))).
Proof.
  intros Hids. eexists _, _. split; cycle 1.
  - intros db' Hseq Hdocs. unfold PermissionResolver.resolveForDocument.
    assert (PermissionResolver.findAncestorDocumentIds fuel db' documentId
            = Some ids) as ->.
    { unfold PermissionResolver.findAncestorDocumentIds in *.
      by rewrite Hseq, Hdocs. }
    cbn [mbind option_bind]. reflexivity.
  - intros p [Hscope _]%andb_true_iff.
    by apply whereScope_spec in Hscope as [_ ?].
Qed.

Lemma applies_other_user db userId now user' role r :
  user' ≠ userId →
  Spec.applies
    (set_permissions
       (softDeleted (whereUserSubject userId) now (permissions db))
       (set_group_users
          (filter (λ gu, GroupUser.userId gu ≠ userId) (group_users db)) db))
    user' role r
  ↔ Spec.applies db user' role r.
Proof.
  intros Hne. unfold Spec.applies.
  destruct (ResolvedPermission.subjectType r); [done| |done].
  simpl. split; intros (g & Hg & Hnon & Hin & Hgu); exists g;
    (split; [done|]); (split; [done|]); (split; [done|]).
  - by apply list_elem_of_filter in Hgu as [_ ?].
  - apply list_elem_of_filter. by split.
Qed.

Lemma getDocumentPermission_other_user fuel db userId now user' documentId
    skipMembershipId :
  user' ≠ userId →
  getDocumentPermission fuel
    (set_permissions
       (softDeleted (whereUserSubject userId) now (permissions db))
       (set_group_users
          (filter (λ gu, GroupUser.userId gu ≠ userId) (group_users db)) db))
    user' documentId skipMembershipId
  = getDocumentPermission fuel db user' documentId skipMembershipId.
Proof.
  intros Hne.
  set (db' := set_permissions _ _).
  destruct (documents db !! documentId) as [document|] eqn:Hdoc;
    [|by unfold getDocumentPermission; simpl; rewrite Hdoc].
  destruct (users db !! user') as [user|] eqn:Huser;
    [|by unfold getDocumentPermission; simpl; rewrite Hdoc, Huser].
  destruct (PermissionResolver.findAncestorDocumentIds fuel db documentId)
    as [ids|] eqn:Hids.
  - destruct (resolveForDocument_rows_of fuel db (User.teamId user)
                documentId (Document.collectionId document) ids Hids)
      as (wh & src & Hwh & Hres).
    pose proof (Hres db eq_refl eq_refl) as Hr.
    pose proof (Hres db' eq_refl eq_refl) as Hr'.
    destruct (getDocumentPermission_effective fuel db user' documentId
                skipMembershipId document user _ Hdoc Huser Hr)
      as (result & -> & Heff).
    destruct (getDocumentPermission_effective fuel db' user' documentId
                skipMembershipId document user _ Hdoc Huser Hr')
      as (result' & -> & Heff').
    f_equal. eapply effective_unique; [|exact Heff].
    eapply (effective_ext
              (λ r, (Spec.applies db' user' (User.role user) r
                     ∧ Some (ResolvedPermission.id r) ≠ skipMembershipId)
                    ∧ ¬ (ResolvedPermission.subjectType r
                         = PermissionSubjectType.User
                         ∧ ResolvedPermission.subjectId r = Some userId))).
    { intros r _. unfold db'. rewrite applies_other_user by done.
      split; [tauto|]. intros [Happ Hskip]. split; [done|].
      intros [Ht Hi]. unfold Spec.applies in Happ. rewrite Ht, Hi in Happ.
      congruence. }
    apply (effective_filter
             (λ r, Spec.applies db' user' (User.role user) r
                   ∧ Some (ResolvedPermission.id r) ≠ skipMembershipId)
             (λ r, ¬ (ResolvedPermission.subjectType r
                      = PermissionSubjectType.User
                      ∧ ResolvedPermission.subjectId r = Some userId))).
    eapply effective_members; [|exact Heff'].
    intros x. rewrite list_elem_of_filter.
    rewrite !list_elem_of_In, !in_map_iff. split.
    + intros (p & <- & Hp). apply list_elem_of_In in Hp.
      apply findAll_elem_of in Hp as [Hwp Hp].
      pose proof (Hwh p Hwp) as Hact. simpl in Hp.
      apply softDeleted_active_inv in Hp as [Hp Hnw]; [|done].
      split.
      * simpl. intros [Ht Hi].
        unfold whereUserSubject in Hnw.
        by rewrite !bool_decide_eq_true_2 in Hnw.
      * exists p. split; [done|]. apply list_elem_of_In.
        by apply findAll_elem_of.
    + intros [HK (p & <- & Hp)]. apply list_elem_of_In in Hp.
      apply findAll_elem_of in Hp as [Hwp Hp].
      exists p. split; [done|]. apply list_elem_of_In.
      apply findAll_elem_of. split; [done|]. simpl.
      apply softDeleted_elem_of; [done|].
      destruct (whereUserSubject userId p) eqn:Hw; [|done].
      destruct HK. unfold whereUserSubject in Hw.
      apply andb_true_iff in Hw as [?%bool_decide_eq_true ?%bool_decide_eq_true].
      done.
  - unfold getDocumentPermission. simpl. rewrite Hdoc, Huser.
    unfold PermissionResolver.resolveForDocument.
    change (PermissionResolver.findAncestorDocumentIds fuel db' documentId)
      with (PermissionResolver.findAncestorDocumentIds fuel db documentId).
    by rewrite Hids.
Qed.

(** X13. [UserDeletedProcessor.perform] always returns; afterwards no
    active grant has the deleted user as its subject, in any team, and the
    user is a member of no group; at most one active grant per indexed
    tuple is kept; and for every other user, every document and every
    skipped membership [getDocumentPermission] computes what it computed
    before. *)
Theorem user_deleted_leaves_other_users userId now db :
  ∃ db',
    UserDeletedProcessor.perform userId now db = inr (tt, db')
    ∧ (∀ p, p ∈ permissions db' → active p →
            ¬ (Permission.subjectType p = PermissionSubjectType.User
               ∧ Permission.subjectId p = Some userId))
    ∧ Group_filterByMember db' userId = []
    ∧ (Spec.uniqueActive (permissions db) →
       Spec.uniqueActive (permissions db'))
    ∧ ∀ fuel user' documentId skipMembershipId,
        user' ≠ userId →
        getDocumentPermission fuel db' user' documentId skipMembershipId
        = getDocumentPermission fuel db user' documentId skipMembershipId.
Proof.
  eexists. split; [reflexivity|]. split; [|split; [|split]].
  - intros p Hp Hact [Ht Hi]. simpl in Hp.
    apply softDeleted_active_inv in Hp as [_ Hw]; [|done].
    unfold whereUserSubject in Hw.
    by rewrite !bool_decide_eq_true_2 in Hw.
  - apply elem_of_nil_inv. intros g Hg.
    apply elem_of_Group_filterByMember in Hg as [_ Hgu]. simpl in Hgu.
    by apply list_elem_of_filter in Hgu as [? _].
  - simpl. apply uniqueActive_softDeleted.
  - intros fuel user' documentId skipMembershipId Hne.
    exact (getDocumentPermission_other_user fuel db userId now user'
             documentId skipMembershipId Hne).
Qed.

Lemma user_deleted_leaves_other_users_witness :
  ∃ db',
    UserDeletedProcessor.perform "bob" 9 Examples.treeDb = inr (tt, db')
    ∧ getDocumentPermission 5 Examples.treeDb "bob" "leaf" None
      = Some (Some DocumentPermission.Edit)
    ∧ getDocumentPermission 5 db' "bob" "leaf" None = Some None
    ∧ getDocumentPermission 5 db' "carol" "leaf" None
      = getDocumentPermission 5 Examples.treeDb "carol" "leaf" None.
Proof.
  destruct (user_deleted_leaves_other_users "bob" 9 Examples.treeDb)
    as (db' & Hrun & _ & _ & _ & Hother).
  exists db'. split; [exact Hrun|]. split; [by vm_compute|]. split.
  - vm_compute in Hrun. injection Hrun as <-. by vm_compute.
  - apply Hother. discriminate.
Defined.

(** ** The deduplication of the migration *)

#[global] Instance windowOrder_total : Total windowOrder.
Proof. intros p q. unfold windowOrder. lia. Qed.

#[global] Instance windowOrder_trans : Transitive windowOrder.
Proof. intros p q r. unfold windowOrder. lia. Qed.

(** One order of the window is the one a stable sort gives. *)
Lemma windowOf_merge_sort table :
  windowOf table (merge_sort windowOrder (filter active table)).
Proof.
  split.
  - apply merge_sort_Permutation.
  - apply (StronglySorted_merge_sort windowOrder).
Qed.

Lemma NoDup_map_inj {A B} (f : A → B) (l : list A) x y :
  NoDup (map f l) → x ∈ l → y ∈ l → f x = f y → x = y.
Proof.
  induction l as [|z l IH]; intros Hnd Hx Hy Hf.
  - by apply elem_of_nil in Hx.
  - simpl in Hnd. apply NoDup_cons in Hnd as [Hz Hnd].
    apply elem_of_cons in Hx as [->|Hx], Hy as [->|Hy]; [done|..|by apply IH].
    + destruct Hz. rewrite Hf. apply list_elem_of_In, in_map.
      by apply list_elem_of_In.
    + destruct Hz. rewrite <- Hf. apply list_elem_of_In, in_map.
      by apply list_elem_of_In.
Qed.

Lemma NoDup_map_NoDup {A B} (f : A → B) (l : list A) :
  NoDup (map f l) → NoDup l.
Proof. apply (NoDup_fmap_1 f). Qed.

Lemma NoDup_map_strong {A B} (f : A → B) (l : list A) :
  (∀ x y, x ∈ l → y ∈ l → f x = f y → x = y) → NoDup l → NoDup (map f l).
Proof. apply (NoDup_fmap_2_strong f). Qed.

(** The rows numbered one and the ids of the others make up the window. *)
Lemma firstRows_duplicates ranked :
  ∀ seen,
    map Permission.id (firstRows seen ranked) ++ duplicates seen ranked
    ≡ₚ map Permission.id ranked.
Proof.
  induction ranked as [|p ranked IH]; intros seen; simpl; [done|].
  case_bool_decide.
  - rewrite <- Permutation_middle. by rewrite IH.
  - simpl. by rewrite IH.
Qed.

Lemma firstRows_elem_of ranked :
  ∀ seen p, p ∈ firstRows seen ranked →
            p ∈ ranked ∧ unique_active_key p ∉ seen.
Proof.
  induction ranked as [|q ranked IH]; intros seen p Hp; simpl in Hp.
  - by apply elem_of_nil in Hp.
  - case_bool_decide as Hseen.
    + destruct (IH _ _ Hp). split; [by right|done].
    + apply elem_of_cons in Hp as [->|Hp]; [split; [by left|done]|].
      destruct (IH _ _ Hp) as [Hin Hkey]. split; [by right|].
      intros Hk. apply Hkey. by right.
Qed.

Lemma firstRows_NoDup ranked :
  ∀ seen, NoDup (map unique_active_key (firstRows seen ranked)).
Proof.
  induction ranked as [|q ranked IH]; intros seen; simpl; [constructor|].
  case_bool_decide as Hseen; [apply IH|].
  simpl. apply NoDup_cons. split; [|apply IH].
  intros Hin. apply list_elem_of_In, in_map_iff in Hin as (p & Hkey & Hp).
  apply list_elem_of_In, firstRows_elem_of in Hp as [_ Hp].
  apply Hp. rewrite Hkey. by left.
Qed.

(** In an order of the window the row numbered one in a partition has the
    highest level of the partition. *)
Lemma firstRows_max ranked :
  StronglySorted windowOrder ranked →
  ∀ seen p,
    p ∈ ranked → unique_active_key p ∉ seen →
    ∃ q, q ∈ firstRows seen ranked
         ∧ unique_active_key q = unique_active_key p
         ∧ dedupeRank p ≤ dedupeRank q.
Proof.
  induction 1 as [|q ranked Hsorted IH Hall]; intros seen p Hp Hseen.
  - by apply elem_of_nil in Hp.
  - simpl. case_bool_decide as Hq.
    + apply elem_of_cons in Hp as [->|Hp]; [done|]. by apply IH.
    + destruct (decide (unique_active_key p = unique_active_key q))
        as [Heq|Hne].
      * exists q. split; [by left|]. split; [done|].
        apply elem_of_cons in Hp as [->|Hp]; [lia|].
        rewrite Forall_forall in Hall. specialize (Hall p Hp).
        unfold windowOrder in Hall. lia.
      * apply elem_of_cons in Hp as [->|Hp]; [done|].
        destruct (IH (unique_active_key q :: seen) p Hp)
          as (r & Hr & Hkey & Hrank).
        { intros [?|?]%elem_of_cons; done. }
        exists r. split; [by right|done].
Qed.

Lemma duplicates_nil ranked :
  ∀ seen,
    NoDup (map unique_active_key ranked) →
    (∀ p, p ∈ ranked → unique_active_key p ∉ seen) →
    duplicates seen ranked = [].
Proof.
  induction ranked as [|q ranked IH]; intros seen Hnd Hseen; simpl; [done|].
  simpl in Hnd. apply NoDup_cons in Hnd as [Hq Hnd].
  rewrite bool_decide_eq_false_2 by (apply Hseen; by left).
  apply IH; [done|]. intros p Hp [Heq|Hin]%elem_of_cons.
  - apply Hq. rewrite <- Heq. apply list_elem_of_In, in_map.
    by apply list_elem_of_In.
  - apply (Hseen p); [by right|done].
Qed.

Lemma filter_all {A} (P : A → Prop) `{∀ x, Decision (P x)} (l : list A) :
  (∀ x, x ∈ l → P x) → filter P l = l.
Proof.
  induction l as [|x l IH]; intros Hall; [done|].
  rewrite filter_cons, decide_True by (apply Hall; by left).
  f_equal. apply IH. intros y Hy. apply Hall. by right.
Qed.

Section Dedupe.

Variables table ranked : list Permission.t.
Hypothesis primary_key : NoDup (map Permission.id table).
Hypothesis window : windowOf table ranked.

Lemma ranked_elem_of p : p ∈ ranked ↔ p ∈ table ∧ active p.
Proof.
  destruct window as [Hperm _]. rewrite Hperm, list_elem_of_filter. tauto.
Qed.

Lemma ranked_NoDup_id : NoDup (map Permission.id ranked).
Proof.
  destruct window as [Hperm _]. rewrite Hperm.
  eapply sublist_NoDup; [exact primary_key|].
  apply (fmap_sublist Permission.id), sublist_filter.
Qed.

(** A row of the window is deleted exactly when it is not numbered one. *)
Lemma dedupe_kept_iff p :
  p ∈ ranked →
  Permission.id p ∉ duplicates [] ranked ↔ p ∈ firstRows [] ranked.
Proof.
  intros Hp.
  pose proof ranked_NoDup_id as Hnd.
  rewrite <- (firstRows_duplicates ranked []) in Hnd.
  apply NoDup_app in Hnd as (_ & Hdisj & _).
  split.
  - intros Hkept.
    assert (Permission.id p
            ∈ map Permission.id (firstRows [] ranked) ++ duplicates [] ranked)
      as Hin.
    { rewrite firstRows_duplicates. apply list_elem_of_In, in_map.
      by apply list_elem_of_In. }
    apply elem_of_app in Hin as [Hin|Hin]; [|done].
    apply list_elem_of_In, in_map_iff in Hin as (q & Hid & Hq).
    apply list_elem_of_In in Hq.
    assert (q = p) as <-; [|done].
    apply (NoDup_map_inj Permission.id ranked); [apply ranked_NoDup_id| |done..].
    by apply firstRows_elem_of in Hq as [? _].
  - intros Hfirst. apply Hdisj. apply list_elem_of_In, in_map.
    by apply list_elem_of_In.
Qed.

Lemma dedupe_with_elem_of p :
  p ∈ dedupe_with ranked table
  ↔ p ∈ table ∧ (active p → p ∈ firstRows [] ranked).
Proof.
  unfold dedupe_with. rewrite list_elem_of_filter. split.
  - intros [Hkept Hp]. split; [done|]. intros Hact.
    apply dedupe_kept_iff; [|done]. by apply ranked_elem_of.
  - intros [Hp Hfirst]. split; [|done].
    destruct (decide (active p)) as [Hact|Hact].
    + apply dedupe_kept_iff; [by apply ranked_elem_of|auto].
    + intros Hdup.
      assert (Permission.id p ∈ map Permission.id ranked) as Hin.
      { rewrite <- (firstRows_duplicates ranked []).
        apply elem_of_app. by right. }
      apply list_elem_of_In, in_map_iff in Hin as (q & Hid & Hq).
      apply list_elem_of_In, ranked_elem_of in Hq as [Hq Hqact].
      assert (q = p) as -> by (by eapply NoDup_id_inj).
      done.
Qed.

Lemma dedupe_with_uniqueActive : Spec.uniqueActive (dedupe_with ranked table).
Proof.
  unfold Spec.uniqueActive. apply NoDup_map_strong.
  - intros p q [Hp Hpin]%list_elem_of_filter [Hq Hqin]%list_elem_of_filter
      Hkey.
    apply dedupe_with_elem_of in Hpin as [_ Hpf], Hqin as [_ Hqf].
    apply (NoDup_map_inj unique_active_key (firstRows [] ranked));
      [apply firstRows_NoDup|auto..].
  - apply NoDup_filter. unfold dedupe_with. apply NoDup_filter.
    by apply (NoDup_map_NoDup Permission.id).
Qed.

Lemma dedupe_with_max p :
  p ∈ table → active p →
  ∃ q, q ∈ dedupe_with ranked table ∧ active q
       ∧ unique_active_key q = unique_active_key p
       ∧ dedupeRank p ≤ dedupeRank q.
Proof.
  intros Hp Hact. destruct window as [_ Hsorted].
  destruct (firstRows_max ranked Hsorted [] p) as (q & Hq & Hkey & Hrank).
  { by apply ranked_elem_of. }
  { apply not_elem_of_nil. }
  exists q.
  pose proof Hq as Hq'. apply firstRows_elem_of in Hq' as [Hq' _].
  apply ranked_elem_of in Hq' as [Hqt Hqa].
  split; [|done]. apply dedupe_with_elem_of. done.
Qed.

Lemma dedupe_with_unique_id :
  Spec.uniqueActive table → dedupe_with ranked table = table.
Proof.
  intros Hunique. unfold dedupe_with.
  rewrite (duplicates_nil ranked []).
  - apply filter_all. intros p _. apply not_elem_of_nil.
  - destruct window as [Hperm _]. by rewrite Hperm.
  - intros p _. apply not_elem_of_nil.
Qed.

End Dedupe.

(** X14. The deletion of duplicates that the migration runs before it
    creates the unique index, for whatever order the database gives to
    rows that are equal under the [ORDER BY] of the window: in a table
    with unique ids it leaves at most one active grant per indexed tuple,
    so that the index can be created; it deletes no soft-deleted row and
    adds none; of every partition of active rows it keeps a row of the
    highest level; and it deletes nothing from a table that has no
    duplicates. *)
Theorem dedupe_prepares_unique_index table ranked :
  NoDup (map Permission.id table) →
  windowOf table ranked →
  Spec.uniqueActive (dedupe_with ranked table)
  ∧ dedupe_with ranked table `sublist_of` table
  ∧ (∀ p, p ∈ table → ¬ active p → p ∈ dedupe_with ranked table)
  ∧ (∀ p, p ∈ table → active p →
          ∃ q, q ∈ dedupe_with ranked table ∧ active q
               ∧ unique_active_key q = unique_active_key p
               ∧ dedupeRank p ≤ dedupeRank q)
  ∧ (Spec.uniqueActive table → dedupe_with ranked table = table).
Proof.
  intros Hnd Hwindow. split; [|split; [|split; [|split]]].
  - by apply dedupe_with_uniqueActive.
  - apply sublist_filter.
  - intros p Hp Hact. apply dedupe_with_elem_of; [done..|]. by split.
  - intros p. by apply dedupe_with_max.
  - by apply dedupe_with_unique_id.
Qed.

Lemma dedupe_prepares_unique_index_witness :
  dedupe
    [Examples.g2;
     Examples.grant "g2b" PermissionSubjectType.User (Some "bob") None
       PermissionResourceType.Document (Some "leaf") PermissionLevel.Edit
       PermissionInheritMode.Self 3 None;
     Examples.g4]
  = [Examples.grant "g2b" PermissionSubjectType.User (Some "bob") None
       PermissionResourceType.Document (Some "leaf") PermissionLevel.Edit
       PermissionInheritMode.Self 3 None;
     Examples.g4]
  ∧ Spec.uniqueActive
      (dedupe
         [Examples.g2;
          Examples.grant "g2b" PermissionSubjectType.User (Some "bob") None
            PermissionResourceType.Document (Some "leaf")
            PermissionLevel.Edit PermissionInheritMode.Self 3 None;
          Examples.g4]).
Proof.
  split; [by vm_compute|]. unfold dedupe.
  apply dedupe_prepares_unique_index.
  - apply (bool_decide_unpack _). vm_compute. exact I.
  - apply windowOf_merge_sort.
Defined.

(** ** The deduplication changes nobody's permission *)

Lemma dedupeRank_rank p :
  dedupeRank p = Spec.rank (Permission.permission p) + 1.
Proof. unfold dedupeRank. by destruct (Permission.permission p). Qed.

Lemma rankOrNone_inj a b : Spec.rankOrNone a = Spec.rankOrNone b → a = b.
Proof.
  destruct a as [a|], b as [b|]; simpl; [| | |done].
  - by intros ->%DocumentPermissionPriority_inj.
  - pose proof (DocumentPermissionPriority_nonneg a). lia.
  - pose proof (DocumentPermissionPriority_nonneg b). lia.
Qed.

Lemma effective_rank_le (P Q : ResolvedPermission.t → Prop) l1 l2 res1 res2 :
  (∀ x, x ∈ l1 → P x →
        ∃ y, y ∈ l2 ∧ Q y
             ∧ Spec.rank (ResolvedPermission.permission x)
               ≤ Spec.rank (ResolvedPermission.permission y)) →
  Spec.effective P l1 res1 → Spec.effective Q l2 res2 →
  Spec.rankOrNone res1 ≤ Spec.rankOrNone res2.
Proof.
  intros Hle. destruct res1 as [a|], res2 as [b|]; simpl.
  - intros [(x & Hx & HP & _ & Hrank) _] [_ Hmax].
    destruct (Hle x Hx HP) as (y & Hy & HQ & Hxy).
    specialize (Hmax y Hy HQ). lia.
  - intros [(x & Hx & HP & _) _] Hnone.
    destruct (Hle x Hx HP) as (y & Hy & HQ & _). by destruct (Hnone y Hy).
  - intros _ _. pose proof (DocumentPermissionPriority_nonneg b). lia.
  - done.
Qed.

(** The where clause and the source tag of [resolveForDocument] read a
    row only through the columns that identify a grant and [deletedAt]. *)
Lemma resolveForDocument_rows_tuple fuel db teamId documentId collectionId
    ids :
  PermissionResolver.findAncestorDocumentIds fuel db documentId = Some ids →
  ∃ wh src,
    (∀ p, wh p = true → active p)
    ∧ (∀ p q, grantTuple p = grantTuple q →
              Permission.deletedAt p = Permission.deletedAt q →
              wh p = wh q ∧ src p = src q)
    ∧ ∀ db',
        sequelize db' = sequelize db → documents db' = documents db →
        PermissionResolver.resolveForDocument fuel db' teamId documentId
          collectionId
        = Some (map (PermissionResolver.toResolved src)
                  (findAll wh (permissions db'))).
Proof.
  intros Hids. eexists _, _. split; [|split]; cycle 2.
  - intros db' Hseq Hdocs. unfold PermissionResolver.resolveForDocument.
    assert (PermissionResolver.findAncestorDocumentIds fuel db' documentId
            = Some ids) as ->.
    { unfold PermissionResolver.findAncestorDocumentIds in *.
      by rewrite Hseq, Hdocs. }
    cbn [mbind option_bind]. reflexivity.
  - intros p [Hscope _]%andb_true_iff.
    by apply whereScope_spec in Hscope as [_ ?].
  - intros p q [= Ht Hst Hsi Hsr Hrt Hri Him] Hd.
    unfold PermissionResolver.whereScope,
      PermissionResolver.whereWorkspaceChildren,
      PermissionResolver.whereDocument,
      PermissionResolver.whereCollectionChildren,
      PermissionResolver.whereAncestorsChildren.
    split; [|by rewrite Hrt, Hri].
    rewrite Ht, Hd. f_equal.
    destruct collectionId as [c|]; [destruct (truthy (Some c))|];
      case_bool_decide; simpl; by rewrite ?Hrt, ?Hri, ?Him.
Qed.

Lemma getDocumentPermission_same_levels fuel db table' userId documentId :
  Forall checked (permissions db) →
  (∀ q, q ∈ table' → q ∈ permissions db) →
  (∀ p, p ∈ permissions db → active p →
        ∃ q, q ∈ table' ∧ active q
             ∧ unique_active_key q = unique_active_key p
             ∧ dedupeRank p ≤ dedupeRank q) →
  getDocumentPermission fuel (set_permissions table' db) userId documentId
    None
  = getDocumentPermission fuel db userId documentId None.
Proof.
  intros Hchecked Hsub Hmax. rewrite Forall_forall in Hchecked.
  set (db' := set_permissions table' db).
  destruct (documents db !! documentId) as [document|] eqn:Hdoc;
    [|by unfold getDocumentPermission; simpl; rewrite Hdoc].
  destruct (users db !! userId) as [user|] eqn:Huser;
    [|by unfold getDocumentPermission; simpl; rewrite Hdoc, Huser].
  destruct (PermissionResolver.findAncestorDocumentIds fuel db documentId)
    as [ids|] eqn:Hids.
  - destruct (resolveForDocument_rows_tuple fuel db (User.teamId user)
                documentId (Document.collectionId document) ids Hids)
      as (wh & src & Hwh & Htuple & Hres).
    pose proof (Hres db eq_refl eq_refl) as Hr.
    pose proof (Hres db' eq_refl eq_refl) as Hr'.
    destruct (getDocumentPermission_effective fuel db userId documentId
                None document user _ Hdoc Huser Hr)
      as (result & -> & Heff).
    destruct (getDocumentPermission_effective fuel db' userId documentId
                None document user _ Hdoc Huser Hr')
      as (result' & -> & Heff').
    f_equal. apply rankOrNone_inj. apply Z.le_antisymm.
    + eapply effective_rank_le; [|exact Heff'|exact Heff].
      intros x Hx HP. exists x. split; [|split; [exact HP|lia]].
      apply list_elem_of_In, in_map_iff in Hx as (q & <- & Hq).
      apply list_elem_of_In, findAll_elem_of in Hq as [Hwq Hq].
      apply list_elem_of_In, in_map. apply list_elem_of_In, findAll_elem_of.
      split; [done|]. apply Hsub. exact Hq.
    + eapply effective_rank_le; [|exact Heff|exact Heff'].
      intros x Hx [Happ _].
      apply list_elem_of_In, in_map_iff in Hx as (p & <- & Hp).
      apply list_elem_of_In, findAll_elem_of in Hp as [Hwp Hp].
      pose proof (Hwh p Hwp) as Hact.
      destruct (Hmax p Hp Hact) as (q & Hq & Hqact & Hkey & Hrank).
      assert (grantTuple q = grantTuple p) as Hgt.
      { apply checked_key_grantTuple; [apply Hchecked; auto..|done]. }
      destruct (Htuple q p Hgt) as [Hwheq Hsrc]; [congruence|].
      exists (PermissionResolver.toResolved src q). split; [|split].
      * apply list_elem_of_In, in_map. apply list_elem_of_In, findAll_elem_of.
        split; [congruence|exact Hq].
      * split; [|done].
        injection Hgt as _ Hst Hsi Hsr _ _ _.
        unfold Spec.applies in *. simpl in *.
        by rewrite Hst, Hsi, Hsr.
      * simpl. rewrite !dedupeRank_rank in Hrank. lia.
  - unfold getDocumentPermission. simpl. rewrite Hdoc, Huser.
    unfold PermissionResolver.resolveForDocument.
    change (PermissionResolver.findAncestorDocumentIds fuel db' documentId)
      with (PermissionResolver.findAncestorDocumentIds fuel db documentId).
    by rewrite Hids.
Qed.

(** X15. The deletion of duplicates changes nobody's permission: in a
    table with unique ids whose rows pass the CHECK constraints, for
    whatever order the database gives to equal rows of the window,
    [getDocumentPermission] computes for every user and every document
    after the deletion what it computed before.  The levels that the
    window ranks 3, 2 and 1 are those that [DocumentPermissionPriority]
    ranks 2, 1 and 0. *)
Theorem dedupe_keeps_permissions fuel db ranked userId documentId :
  NoDup (map Permission.id (permissions db)) →
  Forall checked (permissions db) →
  windowOf (permissions db) ranked →
  getDocumentPermission fuel
    (set_permissions (dedupe_with ranked (permissions db)) db)
    userId documentId None
  = getDocumentPermission fuel db userId documentId None.
Proof.
  intros Hnd Hchecked Hwindow.
  apply getDocumentPermission_same_levels; [done|..].
  - intros q Hq. unfold dedupe_with in Hq.
    by apply list_elem_of_filter in Hq as [_ ?].
  - intros p Hp Hact. by apply dedupe_with_max.
Qed.

Lemma dedupe_keeps_permissions_witness :
  getDocumentPermission 5
    (set_permissions
       (dedupe
          [Examples.g1; Examples.g2;
           Examples.grant "g2b" PermissionSubjectType.User (Some "bob") None
             PermissionResourceType.Document (Some "leaf")
             PermissionLevel.Manage PermissionInheritMode.Self 3 None])
       Examples.treeDb)
    "bob" "leaf" None
  = Some (Some DocumentPermission.Manage)
  ∧ dedupe
      [Examples.g1; Examples.g2;
       Examples.grant "g2b" PermissionSubjectType.User (Some "bob") None
         PermissionResourceType.Document (Some "leaf")
         PermissionLevel.Manage PermissionInheritMode.Self 3 None]
    = [Examples.g1;
       Examples.grant "g2b" PermissionSubjectType.User (Some "bob") None
         PermissionResourceType.Document (Some "leaf")
         PermissionLevel.Manage PermissionInheritMode.Self 3 None].
Proof.
  split; [|by vm_compute].
  unfold dedupe.
  pose proof (dedupe_keeps_permissions 5
                (set_permissions
                   [Examples.g1; Examples.g2;
                    Examples.grant "g2b" PermissionSubjectType.User
                      (Some "bob") None PermissionResourceType.Document
                      (Some "leaf") PermissionLevel.Manage
                      PermissionInheritMode.Self 3 None]
                   Examples.treeDb)
                (merge_sort windowOrder
                   (filter active
                      [Examples.g1; Examples.g2;
                       Examples.grant "g2b" PermissionSubjectType.User
                         (Some "bob") None PermissionResourceType.Document
                         (Some "leaf") PermissionLevel.Manage
                         PermissionInheritMode.Self 3 None]))
                "bob" "leaf") as Heq.
  etrans; [apply Heq|by vm_compute].
  - apply (bool_decide_unpack _). vm_compute. exact I.
  - repeat constructor.
  - apply windowOf_merge_sort.
Defined.

(** ** The backfill of the grants of admins and managers *)

Lemma existsRoleGrant_spec table c role :
  existsRoleGrant table c role = true
  ↔ ∃ p, p ∈ table
         ∧ Permission.teamId p = CollectionRow.teamId c
         ∧ Permission.subjectType p = PermissionSubjectType.Role
         ∧ Permission.subjectRole p = Some role
         ∧ Permission.resourceType p = PermissionResourceType.Collection
         ∧ Permission.resourceId p = Some (CollectionRow.id c)
         ∧ Permission.inheritMode p = PermissionInheritMode.Children
         ∧ active p.
Proof.
  unfold existsRoleGrant, active. rewrite existsb_exists. split.
  - intros (p & Hp & Htest). exists p.
    rewrite !andb_true_iff, !bool_decide_eq_true in Htest.
    split; [by apply list_elem_of_In|]. tauto.
  - intros (p & Hp & Hrest). exists p. split; [by apply list_elem_of_In|].
    rewrite !andb_true_iff, !bool_decide_eq_true. tauto.
Qed.

Lemma backfillSelection_elem_of collections table x :
  x ∈ backfillSelection collections table
  ↔ (x.1 ∈ collections ∧ (x.2 = "admin" ∨ x.2 = "manager"))
    ∧ CollectionRow.deletedAt x.1 = None
    ∧ existsRoleGrant table x.1 x.2 = false.
Proof.
  unfold backfillSelection.
  rewrite list_elem_of_filter, list_elem_of_In, in_flat_map.
  destruct x as [c role]. simpl. split.
  - intros [[Hd He] (c' & Hc' & Hin)]. apply list_elem_of_In in Hc'.
    simpl in Hin. destruct Hin as [[= <- <-]|[[= <- <-]|[]]]; auto.
  - intros [[Hc Hrole] [Hd He]]. split; [done|]. exists c.
    split; [by apply list_elem_of_In|]. simpl.
    destruct Hrole as [->| ->]; auto.
Qed.

Lemma map_imap_key {A B C} (f : B → C) (g : nat → A → B) (h : A → C) l :
  (∀ i x, f (g i x) = h x) → map f (imap g l) = map h l.
Proof.
  revert g. induction l as [|x l IH]; intros g Hfg; [done|].
  rewrite imap_cons. simpl. rewrite Hfg. f_equal. apply IH.
  intros i y. apply Hfg.
Qed.

Lemma checked_backfillRow uuid now x : checked (backfillRow uuid now x).
Proof.
  split.
  - apply subject_consistency_check_spec. left. done.
  - apply resource_consistency_check_spec. right. split; [by left|done].
Qed.

Lemma backfillKey_NoDup collections :
  NoDup (map CollectionRow.id collections) →
  NoDup (map backfillKey
           (flat_map (λ c, [(c, "admin"); (c, "manager")]) collections)).
Proof.
  induction collections as [|c collections IH]; intros Hnd; simpl;
    [constructor|].
  simpl in Hnd. apply NoDup_cons in Hnd as [Hc Hnd].
  assert (∀ role,
            backfillKey (c, role)
            ∉ map backfillKey
                (flat_map (λ c, [(c, "admin"); (c, "manager")]) collections))
    as Hfresh.
  { intros role Hin.
    apply list_elem_of_In, in_map_iff in Hin as ([c' role'] & Hkey & Hin).
    apply in_flat_map in Hin as (c'' & Hc'' & Hin). simpl in Hin.
    assert (c'' = c') as ->
      by (destruct Hin as [[= -> _]|[[= -> _]|[]]]; done).
    apply Hc. injection Hkey as _ _ <-.
    apply list_elem_of_In, in_map, Hc''. }
  apply NoDup_cons. split; [|apply NoDup_cons; split; [|by apply IH]].
  - intros [Heq|Hin]%elem_of_cons; [done|]. by apply (Hfresh "admin").
  - apply Hfresh.
Qed.

(** X16. The migration that backfills the grants of admins and managers:
    after [up] every collection that is not deleted has an active
    [children] grant for the role [admin] and one for the role [manager];
    the rows that were in the table are left as they were; a second run
    inserts nothing; the inserted rows pass the CHECK constraints; and in
    a table whose rows pass them, with unique collection ids, the insert
    keeps at most one active grant per indexed tuple, so it does not fail
    on the unique index. *)
Theorem backfill_up_covers_collections uuid now collections table :
  (∀ c role,
     c ∈ collections → CollectionRow.deletedAt c = None →
     role = "admin" ∨ role = "manager" →
     existsRoleGrant (backfill_up uuid now collections table) c role = true)
  ∧ table `prefix_of` backfill_up uuid now collections table
  ∧ (∀ uuid' now',
       backfill_up uuid' now' collections
         (backfill_up uuid now collections table)
       = backfill_up uuid now collections table)
  ∧ (Forall checked table →
     Forall checked (backfill_up uuid now collections table))
  ∧ (Forall checked table →
     NoDup (map CollectionRow.id collections) →
     Spec.uniqueActive table →
     Spec.uniqueActive (backfill_up uuid now collections table)).
Proof.
  assert (Hcover : ∀ c role,
            c ∈ collections → CollectionRow.deletedAt c = None →
            role = "admin" ∨ role = "manager" →
            existsRoleGrant (backfill_up uuid now collections table) c role
            = true).
  { intros c role Hc Hd Hrole. unfold backfill_up.
    destruct (existsRoleGrant table c role) eqn:E.
    - unfold existsRoleGrant in *. by rewrite existsb_app, E.
    - assert ((c, role) ∈ backfillSelection collections table) as Hsel
        by (by apply backfillSelection_elem_of).
      apply list_elem_of_lookup in Hsel as [i Hi].
      apply existsRoleGrant_spec.
      exists (backfillRow (uuid i) now (c, role)). split; [|done].
      apply elem_of_app. right.
      by apply (elem_of_lookup_imap_2
                  (λ i x, backfillRow (uuid i) now x) _ (c, role) i). }
  split; [exact Hcover|]. split; [by eexists|]. split; [|split].
  - intros uuid' now'. unfold backfill_up at 1.
    assert (backfillSelection collections
              (backfill_up uuid now collections table) = []) as ->.
    { apply elem_of_nil_inv. intros [c role] Hin.
      apply backfillSelection_elem_of in Hin as ([Hc Hrole] & Hd & He).
      simpl in *. by rewrite Hcover in He. }
    simpl. by rewrite app_nil_r.
  - intros Hchecked. unfold backfill_up. apply Forall_app. split; [done|].
    apply Forall_forall. intros p Hp.
    apply elem_of_lookup_imap_1 in Hp as (i & x & -> & _).
    apply checked_backfillRow.
  - intros Hchecked Hids Hunique. unfold Spec.uniqueActive, backfill_up.
    rewrite filter_app.
    rewrite (filter_all active (imap _ _)); cycle 1.
    { intros p Hp. by apply elem_of_lookup_imap_1 in Hp as (i & x & -> & _). }
    rewrite map_app, (map_imap_key unique_active_key _ backfillKey)
      by done.
    apply NoDup_app. split; [exact Hunique|]. split.
    + intros key Hold Hnew.
      apply list_elem_of_In, in_map_iff in Hold as (p & Hkey & Hp).
      apply list_elem_of_In, list_elem_of_filter in Hp as [Hact Hp].
      apply list_elem_of_In, in_map_iff in Hnew as ([c role] & Hkey' & Hx).
      apply list_elem_of_In, backfillSelection_elem_of in Hx
        as (_ & _ & Hnone).
      simpl in Hnone.
      assert (existsRoleGrant table c role = true) as Hsome; [|congruence].
      apply existsRoleGrant_spec. exists p. split; [done|].
      rewrite <- Hkey' in Hkey. unfold unique_active_key, backfillKey in Hkey.
      simpl in Hkey. injection Hkey as Ht Hst _ Hsr Hrt Hri Him.
      rewrite Forall_forall in Hchecked.
      destruct (Hchecked p Hp) as [Hs Hr].
      apply subject_consistency_check_spec in Hs.
      apply resource_consistency_check_spec in Hr.
      repeat (split; [done|]).
      split; [|split; [done|]]; [|split; [|done]].
      * destruct Hs as [(_ & Hrole & _)|([?|?] & _)]; [|congruence..].
        destruct (Permission.subjectRole p); [by simplify_eq/=|done].
      * destruct Hr as [(? & _)|(_ & Hid)]; [congruence|].
        destruct (Permission.resourceId p); [by simplify_eq/=|done].
    + eapply sublist_NoDup; [by apply backfillKey_NoDup|].
      apply (fmap_sublist backfillKey), sublist_filter.
Qed.

Lemma backfill_up_covers_collections_witness :
  existsRoleGrant (permissions Examples.treeDb)
    (CollectionRow.mk "col" "team" "alice" None) "manager" = false
  ∧ existsRoleGrant
      (backfill_up (λ i, match i with O => "b0" | _ => "b1" end) 9
         [CollectionRow.mk "col" "team" "alice" None]
         (permissions Examples.treeDb))
      (CollectionRow.mk "col" "team" "alice" None) "manager" = true
  ∧ Spec.uniqueActive
      (backfill_up (λ i, match i with O => "b0" | _ => "b1" end) 9
         [CollectionRow.mk "col" "team" "alice" None]
         (permissions Examples.treeDb)).
Proof.
  destruct (backfill_up_covers_collections
              (λ i, match i with O => "b0" | _ => "b1" end) 9
              [CollectionRow.mk "col" "team" "alice" None]
              (permissions Examples.treeDb))
    as (Hcover & _ & _ & _ & Hunique).
  split; [by vm_compute|]. split.
  - apply Hcover; [by left|done|by right].
  - apply Hunique.
    + repeat constructor.
    + apply (bool_decide_unpack _). vm_compute. exact I.
    + apply (bool_decide_unpack _). vm_compute. exact I.
Defined.

(** ** The migration of the user roles *)

Lemma roles_up_lookup users i :
  roles_up users !! i
  = (λ u, if bool_decide (User.role u = "member") then set_role "editor" u
          else if bool_decide (User.role u = "guest")
          then set_role "viewer" u else u)
    <$> users !! i.
Proof.
  unfold roles_up, updateRole. rewrite !lookup_fmap.
  destruct (users !! i) as [[id team role]|]; simpl; [|done].
  f_equal. repeat (case_bool_decide; simpl in *); congruence.
Qed.

Lemma roles_down_lookup users i :
  roles_down users !! i
  = (λ u, if bool_decide (User.role u = "editor") then set_role "member" u
          else if bool_decide (User.role u = "viewer")
          then set_role "guest" u else u)
    <$> users !! i.
Proof.
  unfold roles_down. by rewrite lookup_fmap.
Qed.

(** X17. The migration of the user roles on [users]: after [up] no user
    is a [member] or a [guest]; [down] after [up] gives back the table
    exactly when no user was an [editor] or a [viewer] before, a viewer of
    the old vocabulary coming back as a guest; and [up] after [down] after
    [up] is [up]. *)
Theorem roles_migration_round_trip users :
  (∀ i u, roles_up users !! i = Some u →
          User.role u ≠ "member" ∧ User.role u ≠ "guest")
  ∧ (roles_down (roles_up users) = users
     ↔ ∀ i u, users !! i = Some u →
              User.role u ≠ "editor" ∧ User.role u ≠ "viewer")
  ∧ roles_up (roles_down (roles_up users)) = roles_up users.
Proof.
  split; [|split].
  - intros i u. rewrite roles_up_lookup.
    destruct (users !! i) as [[id team role]|]; simpl; [|done].
    intros [= <-]. repeat (case_bool_decide; simpl in * ); done.
  - split.
    + intros Heq i u Hu.
      apply (f_equal (λ m : gmap string User.t, m !! i)) in Heq.
      rewrite roles_down_lookup, roles_up_lookup, Hu in Heq.
      destruct u as [id team role]. simpl in *.
      repeat (case_bool_decide; simpl in * ); simplify_eq/=; done.
    + intros Hnone. apply map_eq. intros i.
      rewrite roles_down_lookup, roles_up_lookup.
      destruct (users !! i) as [[id team role]|] eqn:Hu; simpl; [|done].
      destruct (Hnone i _ Hu) as [He Hv]. simpl in *. f_equal.
      repeat (case_bool_decide; simpl in * ); simplify_eq/=; done.
  - apply map_eq. intros i.
    rewrite roles_up_lookup, roles_down_lookup, roles_up_lookup.
    destruct (users !! i) as [[id team role]|]; simpl; [|done].
    f_equal. repeat (case_bool_decide; simpl in * ); simplify_eq/=; done.
Qed.

Lemma roles_migration_round_trip_witness :
  roles_down (roles_up Examples.teamUsers) ≠ Examples.teamUsers
  ∧ roles_down (roles_up {[ "dave" := User.mk "dave" "team" "member" ]})
    = {[ "dave" := User.mk "dave" "team" "member" ]}.
Proof.
  split.
  - intros Heq.
    destruct (roles_migration_round_trip Examples.teamUsers)
      as (_ & [Hback _] & _).
    by destruct (Hback Heq "bob" Examples.bob eq_refl) as [_ ?].
  - destruct (roles_migration_round_trip
                {[ "dave" := User.mk "dave" "team" "member" ]})
      as (_ & [_ Hback] & _).
    apply Hback. intros i u Hu.
    apply lookup_singleton_Some in Hu as [_ <-]. done.
Defined.

(** ** The role grants that [collections.update] writes *)

Lemma softDeleted_twice_active where1 where2 now table p :
  p ∈ softDeleted where2 now (softDeleted where1 now table) → active p →
  p ∈ table ∧ where1 p = false ∧ where2 p = false.
Proof.
  intros Hp Hact.
  apply softDeleted_active_inv in Hp as [Hp H2]; [|done].
  apply softDeleted_active_inv in Hp as [Hp H1]; [|done].
  done.
Qed.

(** X18. When the grant block of [collections.update] returns, the rows
    it returns are in the table and active, they are role grants of the
    actor's team on the collection with inherit mode [children], and they
    are the only active grants of the roles [viewer] and [editor] on the
    collection.  For the permission [read] they give [read] to viewers
    and to editors, for [read_write] they give [read] to viewers and
    [edit] to editors, and for [null] there is none. *)
Theorem collections_update_writes_role_grants ctx uuids id permission db
    rows db' :
  collections_update_grants ctx uuids id permission db = inr (rows, db') →
  (∀ row, row ∈ rows →
          row ∈ permissions db' ∧ active row
          ∧ Permission.teamId row = User.teamId (auth_user ctx)
          ∧ Permission.subjectType row = PermissionSubjectType.Role
          ∧ Spec.resource row = Some (Spec.Collection id)
          ∧ Permission.inheritMode row = PermissionInheritMode.Children)
  ∧ (∀ role p,
       role = "viewer" ∨ role = "editor" →
       p ∈ permissions db' → active p →
       whereRoleGrant (User.teamId (auth_user ctx)) role id p = true →
       p ∈ rows)
  ∧ map (λ row, (Permission.subjectRole row, Permission.permission row)) rows
    = match permission with
      | Some CollectionPermission.Read =>
          [(Some "viewer", PermissionLevel.Read);
           (Some "editor", PermissionLevel.Read)]
      | Some CollectionPermission.Edit =>
          [(Some "viewer", PermissionLevel.Read);
           (Some "editor", PermissionLevel.Edit)]
      | _ => []
      end.
Proof.
  intros H. unfold collections_update_grants in H. handler_inv.
  assert (Hold : ∀ role p,
            role = "viewer" ∨ role = "editor" →
            p ∈ softDeleted
                  (whereRoleGrant (User.teamId (auth_user ctx)) "editor" id)
                  (now ctx)
                  (softDeleted
                     (whereRoleGrant (User.teamId (auth_user ctx)) "viewer"
                        id)
                     (now ctx) (permissions db)) →
            active p →
            whereRoleGrant (User.teamId (auth_user ctx)) role id p = true →
            False).
  { intros role p Hrole Hp Hact Hw.
    apply softDeleted_twice_active in Hp as (_ & H1 & H2); [|done].
    destruct Hrole as [->| ->]; congruence. }
  revert H. norm_db.
  destruct permission as [[| |]|]; simpl;
    repeat (case_bool_decide; simplify_eq/=; try done); intros H.
  all: handler_inv; norm_db; (split; [|split; [|done]]).
  all: try (intros row Hrow; by apply elem_of_nil in Hrow).
  all: try (intros role p Hrole Hp Hact Hw; by destruct (Hold role p)).
  all: try (intros row Hrow;
            apply elem_of_cons in Hrow as [->|Hrow%list_elem_of_singleton];
            subst;
            (split;
             [rewrite !elem_of_app, !list_elem_of_singleton; tauto|done])).
  all: intros role p Hrole Hp Hact Hw;
    rewrite !elem_of_app, !list_elem_of_singleton in Hp;
    destruct Hp as [[Hp|Hp]|Hp]; [by destruct (Hold role p)|subst..];
    [by left|right; by left].
Qed.

Lemma collections_update_writes_role_grants_witness :
  ∃ rows db',
    collections_update_grants (mkContext Examples.alice 9 "g7") ("g8", "g9")
      "col" (Some CollectionPermission.Edit) Examples.treeDb
    = inr (rows, db')
    ∧ map (λ row, (Permission.subjectRole row, Permission.permission row))
        rows
      = [(Some "viewer", PermissionLevel.Read);
         (Some "editor", PermissionLevel.Edit)].
Proof.
  destruct (collections_update_grants (mkContext Examples.alice 9 "g7")
              ("g8", "g9") "col" (Some CollectionPermission.Edit)
              Examples.treeDb) as [e|[rows db']] eqn:E;
    [by vm_compute in E|].
  exists rows, db'. split; [done|].
  by destruct (collections_update_writes_role_grants _ _ _ _ _ _ _ E)
    as (_ & _ & ?).
Defined.

(** ** Every grant in scope is honoured *)

Lemma resolveForDocument_in_scope fuel db teamId documentId document p n :
  sequelize db = true →
  Spec.chainEnds (documents db) documentId n → (n ≤ fuel)%nat →
  p ∈ permissions db → active p → Permission.teamId p = teamId →
  Spec.resource p = Some (Spec.Document documentId)
  ∨ Permission.inheritMode p = PermissionInheritMode.Children
    ∧ (Spec.resource p = Some Spec.Workspace
       ∨ (∃ c, Document.collectionId document = Some c ∧ c ≠ ""
               ∧ Spec.resource p = Some (Spec.Collection c))
       ∨ ∃ a j, Spec.resource p = Some (Spec.Document a)
                ∧ Spec.nth_ancestor (documents db) (S j) documentId
                  = Some a) →
  ∃ resolved source,
    PermissionResolver.resolveForDocument fuel db teamId documentId
      (Document.collectionId document) = Some resolved
    ∧ tagged (p, source) ∈ resolved.
Proof.
  intros Hseq Hend Hfuel Hp Hact Hteam Hscope.
  pose proof (findAncestorDocumentIds_ends fuel db documentId n Hseq Hend
                Hfuel) as Hids.
  destruct (resolveForDocument_with fuel db teamId documentId
              (Document.collectionId document) _ Hids)
    as (resolved & Hres & Hperm & _).
  exists resolved.
  assert (Spec.activeOf teamId p) as Hactive by (by split).
  assert (∀ (s : Source) (P : Permission.t → Prop)
            `{∀ x, Decision (P x)},
            P p → (p, s) ∈ map (λ p, (p, s))
                               (filter P (permissions db))) as Hmem.
  { intros s P ? HP.
    apply list_elem_of_In, (in_map (λ p, (p, s))), list_elem_of_In.
    by apply list_elem_of_filter. }
  destruct Hscope as [Hself|[Hmode [Hws|[(c & Hc & Hne & Hcol)|Hanc]]]].
  - exists direct. split; [done|]. rewrite Hperm.
    apply list_elem_of_In, in_map, list_elem_of_In.
    unfold Spec.resolveForDocument. rewrite !elem_of_app.
    right. right. left. by apply Hmem.
  - exists inherited. split; [done|]. rewrite Hperm.
    apply list_elem_of_In, in_map, list_elem_of_In.
    unfold Spec.resolveForDocument. rewrite !elem_of_app.
    left. by apply Hmem.
  - exists inherited. split; [done|]. rewrite Hperm.
    apply list_elem_of_In, in_map, list_elem_of_In.
    unfold Spec.resolveForDocument. rewrite !elem_of_app.
    right. left. apply Hmem. split; [done|]. split; [|done].
    unfold Spec.onSuppliedCollection. by rewrite Hc.
  - destruct Hanc as (a & j & Ha & Hj).
    exists inherited. split; [done|]. rewrite Hperm.
    apply list_elem_of_In, in_map, list_elem_of_In.
    unfold Spec.resolveForDocument. rewrite !elem_of_app.
    right. right. right. apply Hmem. split; [done|]. split; [|done].
    unfold Spec.onAncestor. rewrite Ha.
    apply (inheritedAncestorIds_spec (documents db) documentId n a Hend).
    unfold Spec.strictAncestors. apply list_elem_of_omap.
    exists j. split; [|done]. apply elem_of_seq.
    destruct (decide (j < n)%nat) as [Hlt|Hge]; [lia|].
    rewrite (nth_ancestor_None_mono (documents db) n (S j) documentId)
      in Hj; [done|exact Hend|lia].
Qed.

Lemma effective_at_least (P : ResolvedPermission.t → Prop) resolved result r :
  Spec.effective P resolved result → r ∈ resolved → P r →
  ∃ level, result = Some level
           ∧ Spec.rank (ResolvedPermission.permission r)
             ≤ DocumentPermissionPriority level.
Proof.
  intros Heff Hr HP. destruct result as [level|]; simpl in Heff.
  - destruct Heff as [_ Hmax]. exists level. split; [done|]. by apply Hmax.
  - by destruct (Heff r Hr).
Qed.

(** X19. In a connected database, for an existing user and an existing
    document whose parent chain ends within the iterations followed,
    [getDocumentPermission] honours every active grant of the user's team
    that applies to the user and is in scope: a grant on the document
    itself, or a grant with inherit mode [children] on the workspace, on
    the collection of the document, or on a document further up the
    parent chain.  The level it returns is at least the level of the
    grant. *)
Theorem getDocumentPermission_honours_grants fuel db userId documentId
    document user p n :
  documents db !! documentId = Some document →
  users db !! userId = Some user →
  sequelize db = true →
  Spec.chainEnds (documents db) documentId n → (n ≤ fuel)%nat →
  p ∈ permissions db → active p →
  Permission.teamId p = User.teamId user →
  (∀ source, Spec.applies db userId (User.role user) (tagged (p, source))) →
  Spec.resource p = Some (Spec.Document documentId)
  ∨ Permission.inheritMode p = PermissionInheritMode.Children
    ∧ (Spec.resource p = Some Spec.Workspace
       ∨ (∃ c, Document.collectionId document = Some c ∧ c ≠ ""
               ∧ Spec.resource p = Some (Spec.Collection c))
       ∨ ∃ a j, Spec.resource p = Some (Spec.Document a)
                ∧ Spec.nth_ancestor (documents db) (S j) documentId
                  = Some a) →
  ∃ level,
    getDocumentPermission fuel db userId documentId None = Some (Some level)
    ∧ Spec.rank (Permission.permission p) ≤ DocumentPermissionPriority level.
Proof.
  intros Hdoc Huser Hseq Hend Hfuel Hp Hact Hteam Happ Hscope.
  destruct (resolveForDocument_in_scope fuel db (User.teamId user)
              documentId document p n Hseq Hend Hfuel Hp Hact Hteam Hscope)
    as (resolved & source & Hres & Hin).
  destruct (getDocumentPermission_effective fuel db userId documentId None
              document user resolved Hdoc Huser Hres)
    as (result & Hget & Heff).
  destruct (effective_at_least _ _ _ _ Heff Hin) as (level & -> & Hrank).
  { split; [apply Happ|done]. }
  by exists level.
Qed.

Lemma getDocumentPermission_honours_grants_witness :
  ∃ level,
    getDocumentPermission 5 Examples.treeDb "bob" "leaf" None
    = Some (Some level)
    ∧ Spec.rank (Permission.permission Examples.g5)
      ≤ DocumentPermissionPriority level.
Proof.
  apply (getDocumentPermission_honours_grants 5 Examples.treeDb "bob" "leaf"
           (Examples.doc (Some "mid")) Examples.bob Examples.g5 3).
  - reflexivity.
  - reflexivity.
  - reflexivity.
  - reflexivity.
  - lia.
  - apply list_elem_of_In. simpl. tauto.
  - reflexivity.
  - reflexivity.
  - intros source. exists "eng". split; [reflexivity|].
    split; [done|]. split.
    + apply (bool_decide_unpack _). vm_compute. exact I.
    + simpl. by apply list_elem_of_singleton.
  - right. split; [reflexivity|]. right. right.
    exists "mid", 0%nat. split; reflexivity.
Defined.

(** X20. When [collections.add_user] returns for an existing user of the
    actor's team, the grant reaches the documents of the collection: for
    every document whose [collectionId] is the collection, in a connected
    database and with a parent chain that ends within the iterations
    followed, [getDocumentPermission] computes on the new database a
    level for that user that is at least the level that was granted. *)
Theorem collections_add_user_reaches_documents
    can defaultCollectionPermission ctx id userId permission db row db'
    fuel documentId document user n :
  collections_add_user can defaultCollectionPermission ctx id userId
    permission db = inr (row, db') →
  users db !! userId = Some user →
  User.teamId user = User.teamId (auth_user ctx) →
  documents db !! documentId = Some document →
  Document.collectionId document = Some id → id ≠ "" →
  sequelize db = true →
  Spec.chainEnds (documents db) documentId n → (n ≤ fuel)%nat →
  ∃ level,
    getDocumentPermission fuel db' userId documentId None
    = Some (Some level)
    ∧ Spec.rank (Permission.permission row) ≤ DocumentPermissionPriority level
    ∧ Permission.permission row
      = collectionPermissionToLevel
          (Some (default (defaultCollectionPermission user) permission)).
Proof.
  intros Hrun Huser Hteam Hdoc Hcol Hne Hseq Hend Hfuel.
  unfold collections_add_user in Hrun. handler_inv.
  rewrite Huser in *.
  match goal with
  | H : (match permission with _ => _ end) _ = inr _ |- _ =>
      destruct permission as [requested|]; apply ret_inr in H as [-> ->]
  end; norm_db.
  all: match goal with
       | |- ∃ level, getDocumentPermission _ (set_permissions ?t _) _ _ _
                     = _ ∧ Spec.rank (Permission.permission ?r) ≤ _ ∧ _ =>
           destruct (resolveForDocument_in_scope fuel (set_permissions t db)
                       (User.teamId user) documentId document r n)
             as (resolved & source & Hres & Hin);
             [done|done|done
             |apply elem_of_app; right; by apply list_elem_of_singleton
             |done|by symmetry
             |right; split; [done|]; right; left; by exists id|];
           destruct (getDocumentPermission_effective fuel
                       (set_permissions t db) userId documentId None
                       document user resolved Hdoc Huser Hres)
             as (result & Hget & Heff);
           destruct (effective_at_least _ _ _ _ Heff Hin)
             as (level & -> & Hrank); [by split|];
           exists level; split; [exact Hget|split; [exact Hrank|done]]
       end.
Qed.

Lemma collections_add_user_reaches_documents_witness :
  ∃ row db' level,
    collections_add_user (λ _ _ _ _, true) (λ _, CollectionPermission.Read)
      (mkContext Examples.alice 9 "g7") "col" "carol"
      (Some CollectionPermission.Edit) Examples.treeDb
    = inr (row, db')
    ∧ getDocumentPermission 5 db' "carol" "mid" None = Some (Some level)
    ∧ Spec.rank PermissionLevel.Edit ≤ DocumentPermissionPriority level.
Proof.
  destruct (collections_add_user (λ _ _ _ _, true)
              (λ _, CollectionPermission.Read)
              (mkContext Examples.alice 9 "g7") "col" "carol"
              (Some CollectionPermission.Edit) Examples.treeDb)
    as [e|[row db']] eqn:E; [by vm_compute in E|].
  destruct (collections_add_user_reaches_documents (λ _ _ _ _, true)
              (λ _, CollectionPermission.Read)
              (mkContext Examples.alice 9 "g7") "col" "carol"
              (Some CollectionPermission.Edit) Examples.treeDb row db' 5
              "mid" (Examples.doc (Some "root")) Examples.carol 2 E)
    as (level & Hget & Hrank & Hrow);
    [reflexivity|reflexivity|reflexivity|reflexivity|done|reflexivity
    |reflexivity|lia|].
  exists row, db', level. split; [done|]. split; [exact Hget|].
  by rewrite Hrow in Hrank.
Defined.

(** ** The grants of one user and the permissions of the others *)

(** A change of the table that is confined to the active grants whose
    subject is one user changes the permissions of no other user. *)
Lemma getDocumentPermission_frame fuel db table' userId user' documentId
    skipMembershipId :
  user' ≠ userId →
  (∀ p, active p →
        ¬ (Permission.subjectType p = PermissionSubjectType.User
           ∧ Permission.subjectId p = Some userId) →
        p ∈ table' ↔ p ∈ permissions db) →
  getDocumentPermission fuel (set_permissions table' db) user' documentId
    skipMembershipId
  = getDocumentPermission fuel db user' documentId skipMembershipId.
Proof.
  intros Hne Hsame.
  set (db' := set_permissions table' db).
  destruct (documents db !! documentId) as [document|] eqn:Hdoc;
    [|by unfold getDocumentPermission; simpl; rewrite Hdoc].
  destruct (users db !! user') as [user|] eqn:Huser;
    [|by unfold getDocumentPermission; simpl; rewrite Hdoc, Huser].
  destruct (PermissionResolver.findAncestorDocumentIds fuel db documentId)
    as [ids|] eqn:Hids.
  - destruct (resolveForDocument_rows_of fuel db (User.teamId user)
                documentId (Document.collectionId document) ids Hids)
      as (wh & src & Hwh & Hres).
    pose proof (Hres db eq_refl eq_refl) as Hr.
    pose proof (Hres db' eq_refl eq_refl) as Hr'.
    destruct (getDocumentPermission_effective fuel db user' documentId
                skipMembershipId document user _ Hdoc Huser Hr)
      as (result & -> & Heff).
    destruct (getDocumentPermission_effective fuel db' user' documentId
                skipMembershipId document user _ Hdoc Huser Hr')
      as (result' & -> & Heff').
    change (Spec.effective
              (λ r, Spec.applies db user' (User.role user) r
                    ∧ Some (ResolvedPermission.id r) ≠ skipMembershipId)
              (map (PermissionResolver.toResolved src) (findAll wh table'))
              result') in Heff'.
    f_equal. eapply effective_unique; [|exact Heff].
    assert (Hk : ∀ l res,
              Spec.effective
                (λ r, Spec.applies db user' (User.role user) r
                      ∧ Some (ResolvedPermission.id r) ≠ skipMembershipId)
                l res
              ↔ Spec.effective
                  (λ r, Spec.applies db user' (User.role user) r
                        ∧ Some (ResolvedPermission.id r) ≠ skipMembershipId)
                  (filter (λ r, ¬ (ResolvedPermission.subjectType r
                                   = PermissionSubjectType.User
                                   ∧ ResolvedPermission.subjectId r
                                     = Some userId)) l)
                  res).
    { intros l res.
      rewrite <- (effective_filter
                    (λ r, Spec.applies db user' (User.role user) r
                          ∧ Some (ResolvedPermission.id r)
                            ≠ skipMembershipId)
                    (λ r, ¬ (ResolvedPermission.subjectType r
                             = PermissionSubjectType.User
                             ∧ ResolvedPermission.subjectId r
                               = Some userId))).
      assert (∀ r, r ∈ l →
                (Spec.applies db user' (User.role user) r
                 ∧ Some (ResolvedPermission.id r) ≠ skipMembershipId)
                ↔ ((Spec.applies db user' (User.role user) r
                    ∧ Some (ResolvedPermission.id r) ≠ skipMembershipId)
                   ∧ ¬ (ResolvedPermission.subjectType r
                        = PermissionSubjectType.User
                        ∧ ResolvedPermission.subjectId r = Some userId)))
        as Hiff.
      { intros r _. split; [|tauto]. intros [Happ Hskip].
        split; [done|]. intros [Ht Hi]. unfold Spec.applies in Happ.
        rewrite Ht, Hi in Happ. congruence. }
      split; apply effective_ext; intros r Hin; [|symmetry]; by apply Hiff. }
    apply (proj2 (Hk _ _)).
    eapply effective_members; [|exact (proj1 (Hk _ _) Heff')].
    intros x. rewrite !list_elem_of_filter.
    rewrite !list_elem_of_In, !in_map_iff.
    split; intros [HK (p & <- & Hp)]; (split; [done|]); exists p;
      (split; [done|]); apply list_elem_of_In, findAll_elem_of;
      apply list_elem_of_In, findAll_elem_of in Hp as [Hwp Hp];
      (split; [done|]); apply (Hsame p); auto.
  - unfold getDocumentPermission. simpl. rewrite Hdoc, Huser.
    unfold PermissionResolver.resolveForDocument.
    change (PermissionResolver.findAncestorDocumentIds fuel db' documentId)
      with (PermissionResolver.findAncestorDocumentIds fuel db documentId).
    by rewrite Hids.
Qed.

Lemma whereGrant_subject teamId subjectType subjectId resourceType
    resourceId p :
  whereGrant teamId subjectType subjectId resourceType resourceId p = true →
  Permission.subjectType p = subjectType
  ∧ Permission.subjectId p = Some subjectId.
Proof.
  unfold whereGrant. rewrite !andb_true_iff, !bool_decide_eq_true. tauto.
Qed.

Lemma replace_confined teamId userId resourceType resourceId now row table
    p :
  Permission.subjectType row = PermissionSubjectType.User →
  Permission.subjectId row = Some userId →
  active p →
  ¬ (Permission.subjectType p = PermissionSubjectType.User
     ∧ Permission.subjectId p = Some userId) →
  p ∈ softDeleted
        (whereGrant teamId PermissionSubjectType.User userId resourceType
           resourceId) now table ++ [row]
  ↔ p ∈ table.
Proof.
  intros Ht Hi Hact Hnot. rewrite elem_of_app, list_elem_of_singleton. split.
  - intros [Hp| ->]; [|by destruct Hnot].
    by apply softDeleted_active_inv in Hp as [? _].
  - intros Hp. left. apply softDeleted_elem_of; [done|].
    apply not_true_is_false. intros Hw. apply Hnot.
    by eapply whereGrant_subject.
Qed.

(** X21. The routes that write or remove the grant of one user change the
    permissions of no other user: after [documents.add_user] or
    [collections.add_user] for a user, and after [documents.remove_user]
    in a table with unique ids, [getDocumentPermission] computes for every
    other user, every document and every skipped membership what it
    computed before. *)
Theorem user_grant_routes_leave_other_users
    can defaultDocumentPermission defaultCollectionPermission ctx id userId
    documentPermission collectionPermission db fuel user' documentId
    skipMembershipId :
  user' ≠ userId →
  (∀ row db',
     documents_add_user can defaultDocumentPermission ctx id userId
       documentPermission db = inr (row, db') →
     getDocumentPermission fuel db' user' documentId skipMembershipId
     = getDocumentPermission fuel db user' documentId skipMembershipId)
  ∧ (∀ row db',
       collections_add_user can defaultCollectionPermission ctx id userId
         collectionPermission db = inr (row, db') →
       getDocumentPermission fuel db' user' documentId skipMembershipId
       = getDocumentPermission fuel db user' documentId skipMembershipId)
  ∧ (NoDup (map Permission.id (permissions db)) →
     ∀ u db',
       documents_remove_user can ctx id userId db = inr (u, db') →
       getDocumentPermission fuel db' user' documentId skipMembershipId
       = getDocumentPermission fuel db user' documentId skipMembershipId).
Proof.
  intros Hne. split; [|split].
  - intros row db' H.
    apply documents_add_user_inr in H
      as (document & user & _ & _ & _ & _ & _ & -> & ->).
    apply (getDocumentPermission_frame _ _ _ userId); [done|].
    intros p Hact Hnot. by apply replace_confined.
  - intros row db' H. unfold collections_add_user in H. handler_inv.
    match goal with
    | H : (match collectionPermission with _ => _ end) _ = inr _ |- _ =>
        destruct collectionPermission;
          [|destruct (users db !! userId)]; try done;
          apply ret_inr in H as [-> ->]
    end; norm_db;
      (apply (getDocumentPermission_frame _ _ _ userId); [done|]);
      intros p Hact Hnot; by apply replace_confined.
  - intros Hnd u db' H.
    destruct (documents_remove_user_removesGrant can ctx id userId db u db'
                Hnd H) as (_ & -> & _).
    apply (getDocumentPermission_frame _ _ _ userId); [done|].
    intros p Hact Hnot. split.
    + intros Hp. by apply softDeleted_active_inv in Hp as [? _].
    + intros Hp. apply softDeleted_elem_of; [done|].
      apply not_true_is_false. intros Hw. apply Hnot.
      by eapply whereGrant_subject.
Qed.

Lemma user_grant_routes_leave_other_users_witness :
  ∃ row db',
    documents_add_user (λ _ _ _ _, true) (λ _, DocumentPermission.Read)
      (mkContext Examples.alice 9 "g7") "leaf" "carol"
      (Some DocumentPermission.Manage) Examples.treeDb
    = inr (row, db')
    ∧ getDocumentPermission 5 db' "carol" "leaf" None
      ≠ getDocumentPermission 5 Examples.treeDb "carol" "leaf" None
    ∧ getDocumentPermission 5 db' "bob" "leaf" None
      = getDocumentPermission 5 Examples.treeDb "bob" "leaf" None.
Proof.
  destruct (documents_add_user (λ _ _ _ _, true)
              (λ _, DocumentPermission.Read)
              (mkContext Examples.alice 9 "g7") "leaf" "carol"
              (Some DocumentPermission.Manage) Examples.treeDb)
    as [e|[row db']] eqn:E; [by vm_compute in E|].
  exists row, db'. split; [done|]. split.
  - vm_compute in E. injection E as <- <-. by vm_compute.
  - destruct (user_grant_routes_leave_other_users (λ _ _ _ _, true)
                (λ _, DocumentPermission.Read)
                (λ _, CollectionPermission.Read)
                (mkContext Examples.alice 9 "g7") "leaf" "carol"
                (Some DocumentPermission.Manage) None Examples.treeDb 5
                "bob" "leaf" None) as (Hadd & _); [discriminate|].
    exact (Hadd row db' E).
Defined.

(** ** A grant of a group and the members of the group *)

(** X22. When [documents.add_group] returns, the grant reaches the
    members of the group: for every existing user of the actor's team who
    has a row in [group_users] for the group, provided the id of the
    group is not the empty string, in a connected database and for a
    document whose parent chain ends within the iterations followed,
    [getDocumentPermission] computes on the new database a level for that
    user on the document that is at least the level that was granted. *)
Theorem documents_add_group_reaches_members
    can defaultDocumentPermission ctx id groupId permission db row db'
    fuel userId user n :
  documents_add_group can defaultDocumentPermission ctx id groupId permission
    db = inr (row, db') →
  users db !! userId = Some user →
  User.teamId user = User.teamId (auth_user ctx) →
  GroupUser.mk groupId userId ∈ group_users db →
  groupId ≠ "" →
  sequelize db = true →
  Spec.chainEnds (documents db) id n → (n ≤ fuel)%nat →
  ∃ level,
    getDocumentPermission fuel db' userId id None = Some (Some level)
    ∧ Spec.rank (Permission.permission row) ≤ DocumentPermissionPriority level
    ∧ Permission.permission row
      = documentPermissionToLevel
          (default (defaultDocumentPermission (auth_user ctx)) permission).
Proof.
  intros Hrun Huser Hteam Hmember Hne Hseq Hend Hfuel.
  unfold documents_add_group in Hrun. handler_inv.
  match goal with
  | H : (if bool_decide (groupId ∈ groups _) then _ else _) = Some _
    |- _ => revert H; case_bool_decide as Hgroup; intros H; [|done]
  end.
  match goal with
  | H : documents db !! id = Some ?d |- _ => rename H into Hdoc
  end.
  norm_db.
  match goal with
  | |- ∃ level, getDocumentPermission _ (set_permissions ?t _) _ _ _
                = _ ∧ Spec.rank (Permission.permission ?r) ≤ _ ∧ _ =>
      destruct (resolveForDocument_in_scope fuel (set_permissions t db)
                  (User.teamId user) id a r n)
        as (resolved & source & Hres & Hin);
        [done|done|done
        |apply elem_of_app; right; by apply list_elem_of_singleton
        |done|by symmetry|by left|];
      destruct (getDocumentPermission_effective fuel
                  (set_permissions t db) userId id None
                  a user resolved Hdoc Huser Hres)
        as (result & Hget & Heff);
      destruct (effective_at_least _ _ _ _ Heff Hin)
        as (level & -> & Hrank);
        [split; [by exists groupId|done]|];
      exists level; split; [exact Hget|split; [exact Hrank|done]]
  end.
Qed.

Lemma documents_add_group_reaches_members_witness :
  ∃ row db' level,
    documents_add_group (λ _ _ _ _, true) (λ _, DocumentPermission.Read)
      (mkContext Examples.alice 9 "g7") "root" "eng"
      (Some DocumentPermission.Manage) Examples.treeDb
    = inr (row, db')
    ∧ getDocumentPermission 5 Examples.treeDb "bob" "root" None
      = Some (Some DocumentPermission.Edit)
    ∧ getDocumentPermission 5 db' "bob" "root" None = Some (Some level)
    ∧ Spec.rank PermissionLevel.Manage ≤ DocumentPermissionPriority level.
Proof.
  destruct (documents_add_group (λ _ _ _ _, true)
              (λ _, DocumentPermission.Read)
              (mkContext Examples.alice 9 "g7") "root" "eng"
              (Some DocumentPermission.Manage) Examples.treeDb)
    as [e|[row db']] eqn:E; [by vm_compute in E|].
  destruct (documents_add_group_reaches_members (λ _ _ _ _, true)
              (λ _, DocumentPermission.Read)
              (mkContext Examples.alice 9 "g7") "root" "eng"
              (Some DocumentPermission.Manage) Examples.treeDb row db' 5
              "bob" Examples.bob 1 E)
    as (level & Hget & Hrank & Hrow);
    [reflexivity|reflexivity|by apply list_elem_of_singleton|done
    |reflexivity|reflexivity|lia|].
  exists row, db', level. split; [done|]. split; [by vm_compute|].
  split; [exact Hget|]. by rewrite Hrow in Hrank.
Defined.

(** ** A conflicting grant is replaced, not refused *)

Lemma replacesWith_ext (handler handler' : Handler Permission.t) where_ now
    db row :
  handler db = handler' db →
  replacesWith handler' where_ now db row →
  replacesWith handler where_ now db row.
Proof. unfold replacesWith, transaction. by intros ->. Qed.

(** After the soft delete by a where clause that covers the tuple of
    [row], the index accepts [row]. *)
Lemma destroy_create_replaces where_ now row db :
  Forall checked (permissions db) → active row →
  (∀ q, checked q → unique_active_key q = unique_active_key row →
        where_ q = true) →
  replacesWith (Permission_destroy where_ now ;;; Permission_create row)
    where_ now db row.
Proof.
  intros Hc Hrow Hw. rewrite Forall_forall in Hc.
  assert (Hfree : ¬ Exists (λ q, active q
                                 ∧ unique_active_key q = unique_active_key row)
                      (softDeleted where_ now (permissions db))).
  { intros (q & Hq & Hact & Hkey)%Exists_exists.
    apply softDeleted_active_inv in Hq as [Hin Hfalse]; [|done].
    rewrite Hw in Hfalse; [done|by apply Hc|done]. }
  assert (Hrun : (Permission_destroy where_ now ;;; Permission_create row) db
                 = inr (row,
                        set_permissions
                          (softDeleted where_ now (permissions db) ++ [row])
                          db)).
  { unfold bind, Permission_destroy, Permission_create. simpl.
    fold (softDeleted where_ now (permissions db)).
    by rewrite bool_decide_eq_false_2. }
  unfold replacesWith. cbn zeta. split; [done|].
  split; [unfold transaction; by rewrite Hrun|].
  norm_db. split.
  - split; [apply elem_of_app; right; by apply list_elem_of_singleton|].
    split; [done|]. split.
    + intros q [Hq|Hq%list_elem_of_singleton]%elem_of_app Hact Hkey; [|done].
      destruct Hfree. apply Exists_exists. by exists q.
    + intros p Hp Hact Hkey. apply elem_of_app. left.
      unfold softDeleted. apply list_elem_of_In, in_map_iff. exists p.
      rewrite Hw by (by try apply Hc).
      rewrite bool_decide_eq_true_2 by done.
      split; [done|by apply list_elem_of_In].
  - intros Hu.
    apply uniqueActive_insert; [by apply uniqueActive_softDeleted|done].
Qed.

Lemma Permission_bulkCreate_inl rows :
  ∀ db e, Permission_bulkCreate rows db = inl e → e = UniqueConstraintError.
Proof.
  induction rows as [|row rows IH]; intros db e H;
    cbn [Permission_bulkCreate] in H; [done|].
  apply bind_inl in H as [H|(a & db1 & _ & H)].
  - by apply Permission_create_inl in H as [-> _].
  - apply bind_inl in H as [H|(a' & db2 & _ & H)]; [by eapply IH|done].
Qed.

(** The grant block of [collections.update] fails on the unique index or
    not at all. *)
Lemma collections_update_grants_inl ctx uuids collectionId permission db e :
  collections_update_grants ctx uuids collectionId permission db = inl e →
  e = UniqueConstraintError.
Proof.
  unfold collections_update_grants. intros H.
  apply bind_inl in H as [H|(u1 & db1 & _ & H)]; [done|].
  apply bind_inl in H as [H|(u2 & db2 & _ & H)]; [done|].
  cbv beta zeta in H. revert H.
  case_bool_decide; [done|]. apply Permission_bulkCreate_inl.
Qed.

(** In a table whose rows pass the CHECK constraints the grant block of
    [collections.update] returns: it has soft-deleted the role grants of
    viewers and editors on the collection and inserted the role grants of
    the permission asked for. *)
Lemma collections_update_replaces ctx uuids collectionId permission db :
  Forall checked (permissions db) →
  ∃ rows,
    replacesAllWith
      (collections_update_grants ctx uuids collectionId permission)
      [whereRoleGrant (User.teamId (auth_user ctx)) "viewer" collectionId;
       whereRoleGrant (User.teamId (auth_user ctx)) "editor" collectionId]
      (now ctx) db rows
    ∧ map (λ row, (Permission.id row, Permission.subjectRole row,
                   Permission.permission row)) rows
      = match permission with
        | Some CollectionPermission.Read =>
            [(uuids.1, Some "viewer", PermissionLevel.Read);
             (uuids.2, Some "editor", PermissionLevel.Read)]
        | Some CollectionPermission.Edit =>
            [(uuids.1, Some "viewer", PermissionLevel.Read);
             (uuids.2, Some "editor", PermissionLevel.Edit)]
        | _ => []
        end.
Proof.
  intros Hc.
  destruct (collections_update_grants ctx uuids collectionId permission db)
    as [e|[rows db']] eqn:E.
  { pose proof (collections_update_grants_inl _ _ _ _ _ _ E) as ->.
    by destruct (neverConflicts_update_grants ctx uuids collectionId
                   permission db Hc). }
  exists rows.
  unfold replacesAllWith, transaction. cbn zeta. rewrite E. cbn [foldl].
  unfold collections_update_grants in E.
  set (w1 := whereRoleGrant _ "viewer" _) in *.
  set (w2 := whereRoleGrant _ "editor" _) in *.
  set (table2 := softDeleted w2 _ (softDeleted w1 _ _)).
  assert (Hold : ∀ p, p ∈ permissions db →
            p ∈ table2 ∨ set_deletedAt (Some (now ctx)) p ∈ table2).
  { intros p Hp.
    destruct (softDeleted_cases w1 (now ctx) _ p Hp) as [H1|H1].
    - apply softDeleted_cases, H1.
    - right. by apply softDeleted_keeps_deleted. }
  apply bind_inr in E as (u1 & db1 & E1 & E). cbv beta in E.
  apply bind_inr in E as (u2 & db2 & E2 & E). cbv beta zeta in E.
  apply Permission_destroy_inr in E1. subst db1.
  apply Permission_destroy_inr in E2. revert E2. norm_db.
  fold (softDeleted w1 (now ctx) (permissions db)).
  fold (softDeleted w2 (now ctx) (softDeleted w1 (now ctx) (permissions db))).
  fold table2. intros ->.
  set (roleGrants := if bool_decide (permission = _) then _ else _) in E.
  set (created := map _ roleGrants) in E.
  assert (Hrun : rows = created
            ∧ db' = set_permissions (table2 ++ rows) db
            ∧ (Spec.uniqueActive table2 → Spec.uniqueActive (table2 ++ rows))
            ∧ ∀ row, row ∈ rows →
                ¬ Exists (λ q, active q
                               ∧ unique_active_key q = unique_active_key row)
                    table2).
  { revert E. case_bool_decide as Hnil.
    - intros [-> ->]%ret_inr. rewrite app_nil_r.
      split; [unfold created; by rewrite Hnil|]. split; [done|].
      split; [done|]. intros row Hrow. by apply elem_of_nil in Hrow.
    - intros E.
      pose proof (Permission_bulkCreate_spec created
                    (set_permissions table2 db)) as Hbulk.
      rewrite E in Hbulk. destruct Hbulk as (-> & Hperm & Hnd & Hfree).
      apply Permission_bulkCreate_inr in E as [_ ->].
      revert Hperm Hnd. norm_db. intros Hperm Hnd.
      split; [done|]. split; [done|]. split; [done|]. exact Hfree. }
  destruct Hrun as (Hrows & -> & Hnd & Hfree).
  assert (Hcontent :
    map (λ row, (Permission.id row, Permission.subjectRole row,
                 Permission.permission row)) rows
    = match permission with
      | Some CollectionPermission.Read =>
          [(uuids.1, Some "viewer", PermissionLevel.Read);
           (uuids.2, Some "editor", PermissionLevel.Read)]
      | Some CollectionPermission.Edit =>
          [(uuids.1, Some "viewer", PermissionLevel.Read);
           (uuids.2, Some "editor", PermissionLevel.Edit)]
      | _ => []
      end).
  { rewrite Hrows. unfold created, roleGrants.
    by destruct permission as [[| |]|]. }
  assert (Hdistinct : ∀ q row, q ∈ rows → row ∈ rows →
            unique_active_key q = unique_active_key row → q = row).
  { rewrite Hrows. unfold created, roleGrants.
    intros q row Hq Hrow.
    destruct permission as [[| |]|]; simpl in Hq, Hrow;
      repeat match goal with
        | H : _ ∈ [] |- _ => by apply elem_of_nil in H
        | H : _ ∈ _ :: _ |- _ => apply elem_of_cons in H as [->|H]
        end; done. }
  assert (Hactive : Forall active rows).
  { rewrite Hrows. unfold created. apply Forall_forall.
    intros row (grant & Hgrant & _)%list_elem_of_In%in_map_iff.
    by rewrite <- Hgrant. }
  rewrite Forall_forall in Hactive.
  split; [|done]. split; [done|]. split; [done|]. norm_db. split.
  - apply Forall_forall. intros row Hrow.
    split; [apply elem_of_app; by right|]. split; [by apply Hactive|]. split.
    + intros q [Hq|Hq]%elem_of_app Hact Hkey; [|by apply Hdistinct].
      destruct (Hfree row Hrow). apply Exists_exists. by exists q.
    + intros p Hp Hact Hkey. apply elem_of_app. left.
      destruct (Hold p Hp) as [Hkept|Hdel]; [|done].
      destruct (Hfree row Hrow). apply Exists_exists. by exists p.
  - intros Hu. apply Hnd. by do 2 apply uniqueActive_softDeleted.
Qed.

(** C9: the unique index admits at most one active grant per (team,
    subject, resource, inheritMode): [Permission.create] keeps it so for
    every row, and refuses a row whose tuple an active grant holds.  The
    handlers that create grants are not refused: in a table whose rows
    pass the CHECK constraints, [documents.add_user],
    [documents.add_group], [collections.add_user] and
    [collections.add_group], once the rows they look up are found and the
    policy allows the request, return the new grant; the table they leave
    is the one they found with the active grants of the subject on the
    resource soft-deleted, among them every active grant of the tuple of
    the new grant, followed by the new grant, the only active one of its
    tuple; the grant block of [collections.update] does the same for the
    role grants of viewers and editors.  Soft delete and insert happen in
    the one transaction of the request, which commits when the handler
    returns and leaves the database as it was when the handler throws. *)
Theorem grant_routes_keep_unique_active
    can defaultDocumentPermission defaultCollectionPermission ctx uuids id
    subjectId documentPermission collectionPermission db :
  (∀ row db0,
     Spec.uniqueActive (permissions db0) →
     match Permission_create row db0 with
     | inl _ => True
     | inr (_, db') => Spec.uniqueActive (permissions db')
     end)
  ∧ (∀ row db0 p,
       p ∈ permissions db0 → active p →
       unique_active_key p = unique_active_key row →
       Permission_create row db0 = inl UniqueConstraintError)
  ∧ replacesGrant
      (documents_add_user can defaultDocumentPermission ctx id subjectId
         documentPermission) (now ctx)
  ∧ replacesGrant
      (documents_add_group can defaultDocumentPermission ctx id subjectId
         documentPermission) (now ctx)
  ∧ replacesGrant
      (collections_add_user can defaultCollectionPermission ctx id subjectId
         collectionPermission) (now ctx)
  ∧ replacesGrant
      (collections_add_group can ctx id subjectId collectionPermission)
      (now ctx)
  ∧ replacesGrants
      (collections_update_grants ctx uuids id collectionPermission) (now ctx)
  ∧ (Forall checked (permissions db) →
     (∀ document user,
        subjectId ≠ User.id (auth_user ctx) →
        documents db !! id = Some document →
        users db !! subjectId = Some user →
        can db (auth_user ctx) "manageUsers"
          (TargetDocument id (Some document)) = true →
        can db (auth_user ctx) "read" (TargetUser (Some user)) = true →
        replacesWith
          (documents_add_user can defaultDocumentPermission ctx id subjectId
             documentPermission)
          (whereGrant (User.teamId (auth_user ctx))
             PermissionSubjectType.User subjectId
             PermissionResourceType.Document id)
          (now ctx) db
          (newGrant ctx (User.teamId (auth_user ctx))
             PermissionSubjectType.User subjectId
             PermissionResourceType.Document id
             (documentPermissionToLevel
                (default (defaultDocumentPermission user)
                   documentPermission))
             PermissionInheritMode.Self (User.id (auth_user ctx))))
     ∧ (∀ document,
          documents db !! id = Some document →
          subjectId ∈ groups db →
          can db (auth_user ctx) "manageUsers"
            (TargetDocument id (Some document)) = true →
          can db (auth_user ctx) "read" (TargetGroup subjectId true)
          = true →
          replacesWith
            (documents_add_group can defaultDocumentPermission ctx id
               subjectId documentPermission)
            (whereGrant (User.teamId (auth_user ctx))
               PermissionSubjectType.Group subjectId
               PermissionResourceType.Document id)
            (now ctx) db
            (newGrant ctx (User.teamId (auth_user ctx))
               PermissionSubjectType.Group subjectId
               PermissionResourceType.Document id
               (documentPermissionToLevel
                  (default (defaultDocumentPermission (auth_user ctx))
                     documentPermission))
               PermissionInheritMode.Self (User.id (auth_user ctx))))
     ∧ (∀ requested,
          can db (auth_user ctx) "update"
            (TargetCollection id (bool_decide (id ∈ collections db)))
          = true →
          can db (auth_user ctx) "read" (TargetUser (users db !! subjectId))
          = true →
          collectionPermission = Some requested
          ∨ (collectionPermission = None
             ∧ ∃ user, users db !! subjectId = Some user
                       ∧ requested = defaultCollectionPermission user) →
          replacesWith
            (collections_add_user can defaultCollectionPermission ctx id
               subjectId collectionPermission)
            (whereGrant (User.teamId (auth_user ctx))
               PermissionSubjectType.User subjectId
               PermissionResourceType.Collection id)
            (now ctx) db
            (newGrant ctx (User.teamId (auth_user ctx))
               PermissionSubjectType.User subjectId
               PermissionResourceType.Collection id
               (collectionPermissionToLevel (Some requested))
               PermissionInheritMode.Children (User.id (auth_user ctx))))
     ∧ (can db (auth_user ctx) "update"
          (TargetCollection id (bool_decide (id ∈ collections db)))
        = true →
        can db (auth_user ctx) "read"
          (TargetGroup subjectId (bool_decide (subjectId ∈ groups db)))
        = true →
        replacesWith
          (collections_add_group can ctx id subjectId collectionPermission)
          (whereGrant (User.teamId (auth_user ctx))
             PermissionSubjectType.Group subjectId
             PermissionResourceType.Collection id)
          (now ctx) db
          (newGrant ctx (User.teamId (auth_user ctx))
             PermissionSubjectType.Group subjectId
             PermissionResourceType.Collection id
             (collectionPermissionToLevel collectionPermission)
             PermissionInheritMode.Children (User.id (auth_user ctx))))
     ∧ ∃ rows,
         replacesAllWith
           (collections_update_grants ctx uuids id collectionPermission)
           [whereRoleGrant (User.teamId (auth_user ctx)) "viewer" id;
            whereRoleGrant (User.teamId (auth_user ctx)) "editor" id]
           (now ctx) db rows
         ∧ map (λ row, (Permission.id row, Permission.subjectRole row,
                        Permission.permission row)) rows
           = match collectionPermission with
             | Some CollectionPermission.Read =>
                 [(uuids.1, Some "viewer", PermissionLevel.Read);
                  (uuids.2, Some "editor", PermissionLevel.Read)]
             | Some CollectionPermission.Edit =>
                 [(uuids.1, Some "viewer", PermissionLevel.Read);
                  (uuids.2, Some "editor", PermissionLevel.Edit)]
             | _ => []
             end)
  ∧ (∀ A (handler : Handler A) db0,
       match transaction handler db0 with
       | (inl _, db') => db' = db0
       | (inr a, db') => handler db0 = inr (a, db')
       end).
Proof.
  split; [exact Permission_create_uniqueActive|].
  split.
  { intros row db0 p Hp Hact Hkey. unfold Permission_create.
    rewrite bool_decide_eq_true_2; [done|].
    apply Exists_exists. by exists p. }
  split; [|split; [|split; [|split; [|split; [|split]]]]].
  - unfold documents_add_user. case_bool_decide; repeat step_handler.
  - unfold documents_add_group. repeat step_handler.
  - unfold collections_add_user. repeat step_handler.
    repeat match goal with
           | |- readOnly (match ?x with _ => _ end) => destruct x
           end; auto with handlers.
  - unfold collections_add_group. repeat step_handler.
  - apply replacesGrants_collections_update.
  - intros Hc. split; [|split; [|split; [|split]]].
    + intros document user Hself Hdoc Huser Hmanage Hread.
      eapply replacesWith_ext;
        [|apply destroy_create_replaces;
          [exact Hc|done
          |intros q Hq Hkey;
           eapply whereGrant_of_key; [| |exact Hq|exact Hkey]; discriminate]].
      unfold documents_add_user. rewrite bool_decide_eq_false_2 by done.
      unfold bind, query, rejectOnEmpty, authorize, ret.
      by rewrite Hdoc, Huser, Hmanage, Hread.
    + intros document Hdoc Hgroup Hmanage Hread.
      eapply replacesWith_ext;
        [|apply destroy_create_replaces;
          [exact Hc|done
          |intros q Hq Hkey;
           eapply whereGrant_of_key; [| |exact Hq|exact Hkey]; discriminate]].
      unfold documents_add_group.
      unfold bind, query, rejectOnEmpty, authorize, ret.
      rewrite Hdoc. rewrite bool_decide_eq_true_2 by done.
      by rewrite Hmanage, Hread.
    + intros requested Hupdate Hread Hrequested.
      eapply replacesWith_ext;
        [|apply destroy_create_replaces;
          [exact Hc|done
          |intros q Hq Hkey;
           eapply whereGrant_of_key; [| |exact Hq|exact Hkey]; discriminate]].
      unfold collections_add_user.
      unfold bind, query, authorize, ret.
      rewrite Hupdate, Hread.
      by destruct Hrequested as [->|(-> & user & -> & ->)].
    + intros Hupdate Hread.
      eapply replacesWith_ext;
        [|apply destroy_create_replaces;
          [exact Hc|done
          |intros q Hq Hkey;
           eapply whereGrant_of_key; [| |exact Hq|exact Hkey]; discriminate]].
      unfold collections_add_group.
      unfold bind, query, authorize, ret.
      by rewrite Hupdate, Hread.
    + by apply collections_update_replaces.
  - intros A handler db0. unfold transaction.
    by destruct (handler db0) as [e|[a db']].
Qed.

Lemma grant_routes_keep_unique_active_witness :
  Forall checked (permissions Examples.treeDb)
  ∧ Examples.g6 ∈ permissions Examples.treeDb
  ∧ active Examples.g6
  ∧ ∃ row db',
      transaction
        (documents_add_user (λ _ _ _ _, true)
           (λ _, DocumentPermission.Read)
           (mkContext Examples.alice 9 "g7") "leaf" "carol"
           (Some DocumentPermission.Edit))
        Examples.treeDb = (inr row, db')
      ∧ unique_active_key Examples.g6 = unique_active_key row
      ∧ Permission.permission row = PermissionLevel.Edit
      ∧ superseded 9 (permissions Examples.treeDb) (permissions db') row
      ∧ set_deletedAt (Some 9) Examples.g6 ∈ permissions db'
      ∧ Spec.uniqueActive (permissions db').
Proof.
  assert (Hchecked : Forall checked (permissions Examples.treeDb))
    by repeat constructor.
  assert (Hunique : Spec.uniqueActive (permissions Examples.treeDb)).
  { apply (bool_decide_unpack _). vm_compute. exact I. }
  assert (Hg6 : Examples.g6 ∈ permissions Examples.treeDb).
  { simpl. do 5 right. left. }
  split; [exact Hchecked|]. split; [exact Hg6|]. split; [reflexivity|].
  destruct (grant_routes_keep_unique_active (λ _ _ _ _, true)
              (λ _, DocumentPermission.Read) (λ _, CollectionPermission.Read)
              (mkContext Examples.alice 9 "g7") ("g8", "g9") "leaf" "carol"
              (Some DocumentPermission.Edit) None Examples.treeDb)
    as (_ & _ & _ & _ & _ & _ & _ & Hreplace & _).
  destruct (Hreplace Hchecked) as (Hadd & _).
  destruct (Hadd (Examples.doc (Some "mid")) Examples.carol)
    as (_ & Htx & Hsup & Hu).
  - discriminate.
  - vm_compute. reflexivity.
  - vm_compute. reflexivity.
  - reflexivity.
  - reflexivity.
  - eexists _, _. split; [exact Htx|]. split; [reflexivity|].
    split; [reflexivity|]. split; [exact Hsup|].
    split; [|exact (Hu Hunique)].
    destruct Hsup as (_ & _ & _ & Hold).
    apply (Hold Examples.g6); [exact Hg6|reflexivity|reflexivity].
Defined.
